(** * The realtime voice session hook ([useRealtimeVoice.ts])

    A shallow embedding of the hook that manages the WebRTC session: the
    protocol types of [types/realtime.ts], the browser objects the hook
    holds references to, the hook's own state (React state, refs), and its
    operations [sendClientEvent], [handleServerEvent], [getEphemeralToken],
    [connect], [disconnect], [sendMessage], [toggleMute] and
    [clearConversation].

    Asynchronous code is written in a small resumption monad: every [await]
    and every call into the browser that can fail is a node of the result
    tree, answered from outside.  What the hook itself does between two such
    nodes is plain state passing over [World].

    After the hook come its auto-connect effect, the controls of the
    component that calls it ([VoiceInterface]), the token route and the
    edge function the credential comes from, and two utilities.  Left out:
    the unmount cleanup, which only calls [disconnect]. *)

From stdpp Require Import base option list strings gmap pretty.

(** ** Protocol types ([types/realtime.ts]) *)

Inductive RealtimeVoice :=
  alloy | ash | ballad | coral | echo | sage | shimmer | verse.

Record AudioFormat := { fmt_type : string; fmt_rate : N }.

(** [Partial<RealtimeSession>], restricted to the fields the hook reads or
    writes.  [speed] is a JS number; the hook only ever writes [1]. *)
Record RealtimeSession := {
  session_model : option string;
  session_instructions : option string;
  session_audio_input_format : option AudioFormat;
  session_audio_output_format : option AudioFormat;
  session_audio_output_voice : option RealtimeVoice;
  session_audio_output_speed : option nat
}.

Inductive ContentPartType := input_text | input_audio | text | audio.

Record ContentPart := {
  part_type : ContentPartType;
  part_text : option string;
  part_audio : option string;
  part_transcript : option string
}.

Inductive ItemType := item_message | item_function_call | item_function_call_output.
Inductive ItemStatus := completed | incomplete | failed.
Inductive Role := user | assistant | system.

Record ConversationItem := {
  item_id : option string;
  item_type : ItemType;
  item_status : option ItemStatus;
  item_role : option Role;
  item_content : option (list ContentPart);
  item_name : option string;
  item_call_id : option string;
  item_arguments : option string;
  item_output : option string
}.

Record RealtimeResponse := {
  response_id : string;
  response_output : list ConversationItem
}.

Inductive RealtimeClientEvent :=
| session_update (session : RealtimeSession)
| conversation_item_create (item : ConversationItem)
| response_create
| input_audio_buffer_append (audio_b64 : string)
| input_audio_buffer_commit
| input_audio_buffer_clear.

(** The server events of the union type, plus [unknown_event] for a parsed
    message whose [type] is none of them. *)
Inductive RealtimeServerEvent :=
| session_created (session : RealtimeSession)
| session_updated (session : RealtimeSession)
| conversation_item_created (item : ConversationItem)
| response_created (response : RealtimeResponse)
| response_done (response : RealtimeResponse)
| response_audio_delta (delta : string)
| response_text_delta (delta : string)
| input_audio_buffer_speech_started
| input_audio_buffer_speech_stopped
| error_event (error_type error_code error_message : string)
| unknown_event (type : string).

(** The body of the token endpoint's answer as [response.json()] hands it
    over.  The hook casts it to [EphemeralTokenResponse] without checking
    it, so every field may be missing; [body_error] is the [error] field of
    a failure body.  A body that parses to something other than an object
    is not modelled. *)
Record EphemeralTokenResponse := {
  value : option string;
  expires_at : option nat;
  session_config : option RealtimeSession;
  body_error : option string
}.

Record WebRTCConnectionState := {
  connected : bool;
  connecting : bool;
  connection_error : option string;
  peerConnection : option nat;
  dataChannel : option nat;
  audioElement : option nat;
  localStream : option nat
}.

Record VoiceInterfaceState := {
  isListening : bool;
  isConnected : bool;
  isConnecting : bool;
  isSpeaking : bool;
  hasPermission : bool;
  error : option string;
  currentResponse : option string;
  conversationHistory : list ConversationItem
}.

#[global] Instance ContentPartType_eq_dec : EqDecision ContentPartType.
Proof. solve_decision. Defined.
#[global] Instance Role_eq_dec : EqDecision Role.
Proof. solve_decision. Defined.

(** ** Browser objects

    The hook holds references (here: numbers into [Browser]) to objects the
    browser owns.  A closure installed as an event handler is stored with
    the variables it captured. *)
Module Browser.

Inductive ReadyState := rs_connecting | rs_open | rs_closing | rs_closed.

Inductive TrackKind := audio_track | video_track.

Record MediaStreamTrack := {
  kind : TrackKind;
  enabled : bool;
  stopped : bool
}.

Record RTCPeerConnection := {
  closed : bool;                        (* signalingState === 'closed' *)
  transceivers : list (string * string);
  senders : list (nat * nat);           (* (stream, track index) *)
  localDescription : option string;
  remoteDescription : option string;
  ontrack : option nat                  (* handler, capturing audioEl *)
}.

Record RTCDataChannel := {
  label : string;
  readyState : ReadyState;
  sent : list RealtimeClientEvent;
  onopen : option EphemeralTokenResponse;  (* handler, capturing tokenData *)
  onmessage : bool;
  onerror : bool;
  onclose : bool
}.

Record HTMLAudioElement := {
  autoplay : bool;
  srcObject : option nat
}.

Record t := {
  pcs : gmap nat RTCPeerConnection;
  channels : gmap nat RTCDataChannel;
  streams : gmap nat (list MediaStreamTrack);
  audios : gmap nat HTMLAudioElement;
  next_ref : nat
}.

Definition empty : t :=
  {| pcs := ∅; channels := ∅; streams := ∅; audios := ∅; next_ref := 0 |}.

#[global] Instance ReadyState_eq_dec : EqDecision ReadyState.
Proof. solve_decision. Defined.
#[global] Instance TrackKind_eq_dec : EqDecision TrackKind.
Proof. solve_decision. Defined.

Definition with_pcs (f : gmap nat RTCPeerConnection -> gmap nat RTCPeerConnection) (b : t) : t :=
  {| pcs := f (pcs b); channels := channels b; streams := streams b;
     audios := audios b; next_ref := next_ref b |}.
Definition with_channels (f : gmap nat RTCDataChannel -> gmap nat RTCDataChannel) (b : t) : t :=
  {| pcs := pcs b; channels := f (channels b); streams := streams b;
     audios := audios b; next_ref := next_ref b |}.
Definition with_streams (f : gmap nat (list MediaStreamTrack) -> gmap nat (list MediaStreamTrack)) (b : t) : t :=
  {| pcs := pcs b; channels := channels b; streams := f (streams b);
     audios := audios b; next_ref := next_ref b |}.
Definition with_audios (f : gmap nat HTMLAudioElement -> gmap nat HTMLAudioElement) (b : t) : t :=
  {| pcs := pcs b; channels := channels b; streams := streams b;
     audios := f (audios b); next_ref := next_ref b |}.
Definition bump (b : t) : t :=
  {| pcs := pcs b; channels := channels b; streams := streams b;
     audios := audios b; next_ref := S (next_ref b) |}.

(** [pc.close()] *)
Definition close_pc (p : RTCPeerConnection) : RTCPeerConnection :=
  {| closed := true; transceivers := transceivers p; senders := senders p;
     localDescription := localDescription p;
     remoteDescription := remoteDescription p; ontrack := ontrack p |}.

Definition set_ontrack (a : nat) (p : RTCPeerConnection) : RTCPeerConnection :=
  {| closed := closed p; transceivers := transceivers p; senders := senders p;
     localDescription := localDescription p;
     remoteDescription := remoteDescription p; ontrack := Some a |}.

Definition add_transceiver (k d : string) (p : RTCPeerConnection) : RTCPeerConnection :=
  {| closed := closed p; transceivers := transceivers p ++ [(k, d)];
     senders := senders p; localDescription := localDescription p;
     remoteDescription := remoteDescription p; ontrack := ontrack p |}.

Definition add_sender (s i : nat) (p : RTCPeerConnection) : RTCPeerConnection :=
  {| closed := closed p; transceivers := transceivers p;
     senders := senders p ++ [(s, i)]; localDescription := localDescription p;
     remoteDescription := remoteDescription p; ontrack := ontrack p |}.

Definition set_local (sdp : string) (p : RTCPeerConnection) : RTCPeerConnection :=
  {| closed := closed p; transceivers := transceivers p; senders := senders p;
     localDescription := Some sdp;
     remoteDescription := remoteDescription p; ontrack := ontrack p |}.

Definition set_remote (sdp : string) (p : RTCPeerConnection) : RTCPeerConnection :=
  {| closed := closed p; transceivers := transceivers p; senders := senders p;
     localDescription := localDescription p;
     remoteDescription := Some sdp; ontrack := ontrack p |}.

Definition set_readyState (r : ReadyState) (c : RTCDataChannel) : RTCDataChannel :=
  {| label := label c; readyState := r; sent := sent c; onopen := onopen c;
     onmessage := onmessage c; onerror := onerror c; onclose := onclose c |}.

(** [dc.close()]: the channel leaves the open state.  The two states
    'closing' and 'closed' are not told apart by the hook; the model goes
    to [rs_closed] at once. *)
Definition close_channel (c : RTCDataChannel) : RTCDataChannel :=
  set_readyState rs_closed c.

(** [dc.send(data)] on an open channel *)
Definition push_sent (ev : RealtimeClientEvent) (c : RTCDataChannel) : RTCDataChannel :=
  {| label := label c; readyState := readyState c; sent := sent c ++ [ev];
     onopen := onopen c; onmessage := onmessage c; onerror := onerror c;
     onclose := onclose c |}.

Definition set_onopen (td : EphemeralTokenResponse) (c : RTCDataChannel) : RTCDataChannel :=
  {| label := label c; readyState := readyState c; sent := sent c;
     onopen := Some td; onmessage := onmessage c; onerror := onerror c;
     onclose := onclose c |}.
Definition set_onmessage (c : RTCDataChannel) : RTCDataChannel :=
  {| label := label c; readyState := readyState c; sent := sent c;
     onopen := onopen c; onmessage := true; onerror := onerror c;
     onclose := onclose c |}.
Definition set_onerror (c : RTCDataChannel) : RTCDataChannel :=
  {| label := label c; readyState := readyState c; sent := sent c;
     onopen := onopen c; onmessage := onmessage c; onerror := true;
     onclose := onclose c |}.
Definition set_onclose (c : RTCDataChannel) : RTCDataChannel :=
  {| label := label c; readyState := readyState c; sent := sent c;
     onopen := onopen c; onmessage := onmessage c; onerror := onerror c;
     onclose := true |}.

(** [track.stop()] *)
Definition stop_track (t : MediaStreamTrack) : MediaStreamTrack :=
  {| kind := kind t; enabled := enabled t; stopped := true |}.

Definition set_enabled (b : bool) (t : MediaStreamTrack) : MediaStreamTrack :=
  {| kind := kind t; enabled := b; stopped := stopped t |}.

Definition set_srcObject (s : option nat) (a : HTMLAudioElement) : HTMLAudioElement :=
  {| autoplay := autoplay a; srcObject := s |}.

(** index of [stream.getAudioTracks()[0]] among [stream.getTracks()] *)
Fixpoint first_audio (ts : list MediaStreamTrack) : option nat :=
  match ts with
  | [] => None
  | t :: ts' =>
      if decide (kind t = audio_track) then Some 0
      else S <$> first_audio ts'
  end.

End Browser.

(** ** The hook's state *)

(** The callbacks passed as [options]; each may be absent.  A present
    callback is modelled by its call being recorded in [notified]: the
    callbacks are the collaborators' code, taken not to throw and not to
    call back into the hook. *)
Record UseRealtimeVoiceOptions := {
  onError : bool;
  onConnected : bool;
  onDisconnected : bool;
  onResponseReceived : bool;
  onSpeechStarted : bool;
  onSpeechStopped : bool;
  autoConnect : bool
}.

Inductive Notification :=
| error_notification (message : string)
| connected_notification
| disconnected_notification
| response_received (response : string)
| speech_started
| speech_stopped.

Inductive ConsoleEntry :=
| console_log (what : string)
| console_warn (what : string)
| console_error (what : string).

Record World := {
  state : VoiceInterfaceState;            (* useState *)
  connectionRef : WebRTCConnectionState;  (* useRef *)
  isMutedRef : bool;
  autoConnectAttemptedRef : bool;
  options : UseRealtimeVoiceOptions;
  browser : Browser.t;
  notified : list Notification;
  console : list ConsoleEntry
}.

(** The initial [useState] and [useRef] values. *)
Definition initial_state : VoiceInterfaceState :=
  {| isListening := false; isConnected := false; isConnecting := false;
     isSpeaking := false; hasPermission := false; error := None;
     currentResponse := None; conversationHistory := [] |}.

(** [{ connected: false, connecting: false }]: every handle absent. *)
Definition baseline : WebRTCConnectionState :=
  {| connected := false; connecting := false; connection_error := None;
     peerConnection := None; dataChannel := None; audioElement := None;
     localStream := None |}.

Definition mount (opts : UseRealtimeVoiceOptions) : World :=
  {| state := initial_state; connectionRef := baseline; isMutedRef := false;
     autoConnectAttemptedRef := false; options := opts;
     browser := Browser.empty; notified := []; console := [] |}.

Section Updates.

Definition with_state (f : VoiceInterfaceState -> VoiceInterfaceState) (w : World) : World :=
  {| state := f (state w); connectionRef := connectionRef w;
     isMutedRef := isMutedRef w;
     autoConnectAttemptedRef := autoConnectAttemptedRef w;
     options := options w; browser := browser w; notified := notified w;
     console := console w |}.

Definition with_connectionRef (f : WebRTCConnectionState -> WebRTCConnectionState) (w : World) : World :=
  {| state := state w; connectionRef := f (connectionRef w);
     isMutedRef := isMutedRef w;
     autoConnectAttemptedRef := autoConnectAttemptedRef w;
     options := options w; browser := browser w; notified := notified w;
     console := console w |}.

Definition with_isMutedRef (b : bool) (w : World) : World :=
  {| state := state w; connectionRef := connectionRef w; isMutedRef := b;
     autoConnectAttemptedRef := autoConnectAttemptedRef w;
     options := options w; browser := browser w; notified := notified w;
     console := console w |}.

Definition with_autoConnectAttemptedRef (b : bool) (w : World) : World :=
  {| state := state w; connectionRef := connectionRef w;
     isMutedRef := isMutedRef w; autoConnectAttemptedRef := b;
     options := options w; browser := browser w; notified := notified w;
     console := console w |}.

Definition with_browser (f : Browser.t -> Browser.t) (w : World) : World :=
  {| state := state w; connectionRef := connectionRef w;
     isMutedRef := isMutedRef w;
     autoConnectAttemptedRef := autoConnectAttemptedRef w;
     options := options w; browser := f (browser w); notified := notified w;
     console := console w |}.

Definition with_notified (f : list Notification -> list Notification) (w : World) : World :=
  {| state := state w; connectionRef := connectionRef w;
     isMutedRef := isMutedRef w;
     autoConnectAttemptedRef := autoConnectAttemptedRef w;
     options := options w; browser := browser w; notified := f (notified w);
     console := console w |}.

Definition with_console (f : list ConsoleEntry -> list ConsoleEntry) (w : World) : World :=
  {| state := state w; connectionRef := connectionRef w;
     isMutedRef := isMutedRef w;
     autoConnectAttemptedRef := autoConnectAttemptedRef w;
     options := options w; browser := browser w; notified := notified w;
     console := f (console w) |}.

(** Field updates of the two state records, as the object spreads
    [{ ...prev, field: v }] of the source. *)
Definition set_isListening (b : bool) (s : VoiceInterfaceState) : VoiceInterfaceState :=
  {| isListening := b; isConnected := isConnected s;
     isConnecting := isConnecting s; isSpeaking := isSpeaking s;
     hasPermission := hasPermission s; error := error s;
     currentResponse := currentResponse s;
     conversationHistory := conversationHistory s |}.
Definition set_isConnected (b : bool) (s : VoiceInterfaceState) : VoiceInterfaceState :=
  {| isListening := isListening s; isConnected := b;
     isConnecting := isConnecting s; isSpeaking := isSpeaking s;
     hasPermission := hasPermission s; error := error s;
     currentResponse := currentResponse s;
     conversationHistory := conversationHistory s |}.
Definition set_isConnecting (b : bool) (s : VoiceInterfaceState) : VoiceInterfaceState :=
  {| isListening := isListening s; isConnected := isConnected s;
     isConnecting := b; isSpeaking := isSpeaking s;
     hasPermission := hasPermission s; error := error s;
     currentResponse := currentResponse s;
     conversationHistory := conversationHistory s |}.
Definition set_isSpeaking (b : bool) (s : VoiceInterfaceState) : VoiceInterfaceState :=
  {| isListening := isListening s; isConnected := isConnected s;
     isConnecting := isConnecting s; isSpeaking := b;
     hasPermission := hasPermission s; error := error s;
     currentResponse := currentResponse s;
     conversationHistory := conversationHistory s |}.
Definition set_hasPermission (b : bool) (s : VoiceInterfaceState) : VoiceInterfaceState :=
  {| isListening := isListening s; isConnected := isConnected s;
     isConnecting := isConnecting s; isSpeaking := isSpeaking s;
     hasPermission := b; error := error s;
     currentResponse := currentResponse s;
     conversationHistory := conversationHistory s |}.
Definition set_error (e : option string) (s : VoiceInterfaceState) : VoiceInterfaceState :=
  {| isListening := isListening s; isConnected := isConnected s;
     isConnecting := isConnecting s; isSpeaking := isSpeaking s;
     hasPermission := hasPermission s; error := e;
     currentResponse := currentResponse s;
     conversationHistory := conversationHistory s |}.
Definition set_currentResponse (r : option string) (s : VoiceInterfaceState) : VoiceInterfaceState :=
  {| isListening := isListening s; isConnected := isConnected s;
     isConnecting := isConnecting s; isSpeaking := isSpeaking s;
     hasPermission := hasPermission s; error := error s;
     currentResponse := r;
     conversationHistory := conversationHistory s |}.
Definition set_conversationHistory (h : list ConversationItem) (s : VoiceInterfaceState) : VoiceInterfaceState :=
  {| isListening := isListening s; isConnected := isConnected s;
     isConnecting := isConnecting s; isSpeaking := isSpeaking s;
     hasPermission := hasPermission s; error := error s;
     currentResponse := currentResponse s;
     conversationHistory := h |}.

Definition set_connected (b : bool) (c : WebRTCConnectionState) : WebRTCConnectionState :=
  {| connected := b; connecting := connecting c;
     connection_error := connection_error c;
     peerConnection := peerConnection c; dataChannel := dataChannel c;
     audioElement := audioElement c; localStream := localStream c |}.
Definition set_connecting (b : bool) (c : WebRTCConnectionState) : WebRTCConnectionState :=
  {| connected := connected c; connecting := b;
     connection_error := connection_error c;
     peerConnection := peerConnection c; dataChannel := dataChannel c;
     audioElement := audioElement c; localStream := localStream c |}.
Definition set_peerConnection (p : nat) (c : WebRTCConnectionState) : WebRTCConnectionState :=
  {| connected := connected c; connecting := connecting c;
     connection_error := connection_error c;
     peerConnection := Some p; dataChannel := dataChannel c;
     audioElement := audioElement c; localStream := localStream c |}.
Definition set_dataChannel (d : nat) (c : WebRTCConnectionState) : WebRTCConnectionState :=
  {| connected := connected c; connecting := connecting c;
     connection_error := connection_error c;
     peerConnection := peerConnection c; dataChannel := Some d;
     audioElement := audioElement c; localStream := localStream c |}.
Definition set_audioElement (a : nat) (c : WebRTCConnectionState) : WebRTCConnectionState :=
  {| connected := connected c; connecting := connecting c;
     connection_error := connection_error c;
     peerConnection := peerConnection c; dataChannel := dataChannel c;
     audioElement := Some a; localStream := localStream c |}.
Definition set_localStream (s : nat) (c : WebRTCConnectionState) : WebRTCConnectionState :=
  {| connected := connected c; connecting := connecting c;
     connection_error := connection_error c;
     peerConnection := peerConnection c; dataChannel := dataChannel c;
     audioElement := audioElement c; localStream := Some s |}.

End Updates.

(** ** Calls out of the hook, and the resumption monad *)

Record RequestInit := {
  method : string;
  headers : list (string * string);
  body : string
}.

Record Response := { ok : bool; status : nat }.

Inductive IceGatheringState := ice_new | ice_gathering | ice_complete.

#[global] Instance IceGatheringState_eq_dec : EqDecision IceGatheringState.
Proof. solve_decision. Defined.

(** What the hook asks of the browser and the network.  Each is answered
    from outside, by a value of type [answer c] or by an exception. *)
Inductive Call :=
| fetch (url : string) (init : RequestInit)
| response_json (r : Response)
| response_text (r : Response)
| new_RTCPeerConnection
| createDataChannel (pc : nat) (label : string)
| getUserMedia
| createOffer (pc : nat)
| setLocalDescription (pc : nat) (sdp : string)
| iceGatheringState (pc : nat)
| icegatheringstatechange_complete (pc : nat)
| setRemoteDescription (pc : nat) (sdp : string).

Definition answer (c : Call) : Type :=
  match c with
  | fetch _ _ => Response
  | response_json _ => EphemeralTokenResponse
  | response_text _ => string
  | new_RTCPeerConnection => unit
  | createDataChannel _ _ => unit
  | getUserMedia => list Browser.MediaStreamTrack
  | createOffer _ => string
  | setLocalDescription _ _ => unit
  | iceGatheringState _ => IceGatheringState
  | icegatheringstatechange_complete _ => unit
  | setRemoteDescription _ _ => unit
  end.

(** The calls the source [await]s: the function is suspended there and other
    tasks may run before it resumes.  The others are synchronous. *)
Definition suspends (c : Call) : bool :=
  match c with
  | new_RTCPeerConnection | createDataChannel _ _ | iceGatheringState _ => false
  | _ => true
  end.

(** A thrown value: an [Error] with its message, or something that is not
    an instance of [Error]. *)
Inductive Thrown :=
| Error (message : string)
| not_an_Error.

Inductive Settled (X : Type) :=
| Fulfilled (x : X)
| Rejected (e : Thrown).
Arguments Fulfilled {X} x.
Arguments Rejected {X} e.

(** Where a computation stands: it returned, it threw, or it waits for the
    answer to a call, with the rest of the computation to run, on the world
    as it is then, once the answer is there. *)
Inductive Res (A : Type) : Type :=
| Value (a : A) (w : World)
| Raised (e : Thrown) (w : World)
| Ext (c : Call) (w : World) (k : Settled (answer c) -> World -> Res A).
Arguments Value {A} a w.
Arguments Raised {A} e w.
Arguments Ext {A} c w k.

Definition M (A : Type) : Type := World -> Res A.

Fixpoint res_bind {A B} (f : A -> M B) (r : Res A) : Res B :=
  match r with
  | Value a w => f a w
  | Raised e w => Raised e w
  | Ext c w k => Ext c w (fun s w' => res_bind f (k s w'))
  end.

(** [try { ... } catch (e) { h e }] *)
Fixpoint res_catch {A} (h : Thrown -> M A) (r : Res A) : Res A :=
  match r with
  | Value a w => Value a w
  | Raised e w => h e w
  | Ext c w k => Ext c w (fun s w' => res_catch h (k s w'))
  end.

#[global] Instance M_ret : MRet M := fun A a w => Value a w.
#[global] Instance M_bind : MBind M := fun A B f m w => res_bind f (m w).

Definition try_catch {A} (m : M A) (h : Thrown -> M A) : M A :=
  fun w => res_catch h (m w).

Definition throw {A} (e : Thrown) : M A := fun w => Raised e w.
Definition get : M World := fun w => Value w w.
Definition modify (f : World -> World) : M unit := fun w => Value tt (f w).

(** A call: the computation stops at the node [Ext]; a rejected promise or
    a throwing call resumes as an exception. *)
Definition call (c : Call) : M (answer c) :=
  fun w => Ext c w (fun s w' =>
    match s with
    | Fulfilled x => Value x w'
    | Rejected e => Raised e w'
    end).

Definition when (b : bool) (m : M unit) : M unit :=
  if b then m else mret tt.

(** [setState(prev => f prev)], applied at once. *)
Definition setState (f : VoiceInterfaceState -> VoiceInterfaceState) : M unit :=
  modify (with_state f).

(** [cb.current?.(...)] *)
Definition notify (present : UseRealtimeVoiceOptions -> bool) (n : Notification) : M unit :=
  modify (fun w =>
    with_notified (fun l => if present (options w) then l ++ [n] else l) w).

Definition log (e : ConsoleEntry) : M unit :=
  modify (with_console (fun l => l ++ [e])).

(** *** Running a computation against the outside

    An [Oracle] answers every call; [run] feeds the answers in, with no
    other task running in between, and lists the calls made, each with the
    world it was made in. *)
Definition Oracle := forall c : Call, Settled (answer c).

Inductive Outcome (A : Type) :=
| Returned (a : A) (w : World)
| Threw (e : Thrown) (w : World).
Arguments Returned {A} a w.
Arguments Threw {A} e w.

Definition Trace := list (Call * World).

Fixpoint run {A} (o : Oracle) (r : Res A) : Outcome A * Trace :=
  match r with
  | Value a w => (Returned a w, [])
  | Raised e w => (Threw e w, [])
  | Ext c w k => let '(out, t) := run o (k (o c) w) in (out, (c, w) :: t)
  end.

Definition calls (t : Trace) : list Call := map fst t.

(** The worlds in which the computation was suspended at an [await]. *)
Definition suspended (t : Trace) : list World :=
  map snd (filter (fun cw => suspends (fst cw) = true) t).

Definition final {A} (out : Outcome A) : World :=
  match out with Returned _ w | Threw _ w => w end.

Definition returned {A} (out : Outcome A) : bool :=
  match out with Returned _ _ => true | Threw _ _ => false end.

(** ** The hook ([useRealtimeVoice]) *)

(** JS truthiness of an optional string: [undefined] and [''] are falsy. *)
Definition truthy (s : option string) : bool :=
  match s with
  | Some s => negb (bool_decide (s = ""))
  | None => false
  end.

(** [s || d] *)
Definition or_else (s : option string) (d : string) : string :=
  if truthy s then default d s else d.

(** [`${s}`] for a value that may be [undefined] *)
Definition interpolate (s : option string) : string := default "undefined" s.

Definition is_open (dc : nat) (b : Browser.t) : bool :=
  bool_decide (Browser.readyState <$> Browser.channels b !! dc = Some Browser.rs_open).

Definition is_closed (pc : nat) (b : Browser.t) : bool :=
  bool_decide (Browser.closed <$> Browser.pcs b !! pc = Some true).

(** A fresh reference for an object the browser creates. *)
Definition new_ref : M nat :=
  w ← get;
  modify (with_browser Browser.bump);;
  mret (Browser.next_ref (browser w)).

Definition update_pc (pc : nat) (f : Browser.RTCPeerConnection -> Browser.RTCPeerConnection) : M unit :=
  modify (with_browser (Browser.with_pcs (alter f pc))).

Definition update_channel (dc : nat) (f : Browser.RTCDataChannel -> Browser.RTCDataChannel) : M unit :=
  modify (with_browser (Browser.with_channels (alter f dc))).

Definition update_stream (s : nat) (f : list Browser.MediaStreamTrack -> list Browser.MediaStreamTrack) : M unit :=
  modify (with_browser (Browser.with_streams (alter f s))).

Definition update_audio (a : nat) (f : Browser.HTMLAudioElement -> Browser.HTMLAudioElement) : M unit :=
  modify (with_browser (Browser.with_audios (alter f a))).

(** lines 84-89 *)
Definition sendClientEvent (event : RealtimeClientEvent) : M unit :=
  w ← get;
  match dataChannel (connectionRef w) with
  | Some dc =>
      if is_open dc (browser w)
      then update_channel dc (Browser.push_sent event)
      else mret tt
  | None => mret tt
  end.

(** lines 122-124: the first assistant item of the output, then the first
    part of type 'text' of its content, then that part's text; each step
    may come out undefined. *)
Definition textContent (response : RealtimeResponse) : option string :=
  item ← List.find (fun item => bool_decide (item_role item = Some assistant))
                   (response_output response);
  content ← item_content item;
  part ← List.find (fun content => bool_decide (part_type content = text)) content;
  part_text part.

Definition event_type (event : RealtimeServerEvent) : string :=
  match event with
  | session_created _ => "session.created"
  | session_updated _ => "session.updated"
  | conversation_item_created _ => "conversation.item.created"
  | response_created _ => "response.created"
  | response_done _ => "response.done"
  | response_audio_delta _ => "response.audio.delta"
  | response_text_delta _ => "response.text.delta"
  | input_audio_buffer_speech_started => "input_audio_buffer.speech_started"
  | input_audio_buffer_speech_stopped => "input_audio_buffer.speech_stopped"
  | error_event _ _ _ => "error"
  | unknown_event type => type
  end.

(** lines 92-154 *)
Definition handleServerEvent (event : RealtimeServerEvent) : M unit :=
  log (console_log ("Received server event: " +:+ event_type event));;
  match event with
  | session_created _ => log (console_log "Session created:")
  | session_updated _ => log (console_log "Session updated:")
  | conversation_item_created item =>
      setState (fun prev =>
        set_conversationHistory (conversationHistory prev ++ [item]) prev)
  | response_created _ =>
      setState (fun prev => set_isSpeaking true prev)
  | response_done response =>
      setState (fun prev => set_isSpeaking false prev);;
      let textContent := textContent response in
      if truthy textContent
      then notify onResponseReceived (response_received (default "" textContent))
      else mret tt
  | response_text_delta delta =>
      setState (fun prev =>
        set_currentResponse
          (Some (or_else (currentResponse prev) "" +:+ delta)) prev)
  | input_audio_buffer_speech_started =>
      setState (fun prev => set_isListening true prev);;
      notify onSpeechStarted speech_started
  | input_audio_buffer_speech_stopped =>
      setState (fun prev => set_isListening false prev);;
      notify onSpeechStopped speech_stopped
  | error_event error_type _ error_message =>
      let errorMessage := error_type +:+ ": " +:+ error_message in
      setState (fun prev => set_error (Some errorMessage) prev);;
      notify onError (error_notification errorMessage)
  | response_audio_delta _ | unknown_event _ => mret tt
  end.

Definition token_url : string := "/api/supabase/functions/realtime-token".
Definition baseUrl : string := "https://api.openai.com/v1/realtime/calls".

Definition token_request : Call :=
  fetch token_url
    {| method := "POST";
       headers := [("Content-Type", "application/json")];
       body := "{}" |}.

(** lines 157-172 *)
Definition getEphemeralToken : M EphemeralTokenResponse :=
  response ← call token_request;
  if negb (ok response) then
    error ← call (response_json response);
    throw (Error (or_else (body_error error) "Failed to get ephemeral token"))
  else
    call (response_json response).

(** The [session.update] event sent when the channel opens (lines 260-290). *)
Definition initial_session (tokenData : EphemeralTokenResponse) : RealtimeSession :=
  {| session_model :=
       Some (or_else (session_config tokenData ≫= session_model) "gpt-realtime");
     session_instructions := session_config tokenData ≫= session_instructions;
     session_audio_input_format :=
       Some {| fmt_type := "audio/pcm"; fmt_rate := 24000%N |};
     session_audio_output_format :=
       Some {| fmt_type := "audio/pcm"; fmt_rate := 24000%N |};
     session_audio_output_voice := Some alloy;
     session_audio_output_speed := Some 1 |}.

(** *** The handlers [connect] installs *)

(** [pc.ontrack], lines 198-204; [stream0] is [e.streams[0]]. *)
Definition pc_ontrack (audioEl : nat) (kind : Browser.TrackKind) (stream0 : option nat) : M unit :=
  log (console_log "Received remote track:");;
  if bool_decide (kind = Browser.audio_track) && bool_decide (is_Some stream0)
  then update_audio audioEl (Browser.set_srcObject stream0)
  else mret tt.

(** [dc.onopen], lines 244-291 *)
Definition dc_onopen (tokenData : EphemeralTokenResponse) : M unit :=
  log (console_log "Data channel opened");;
  modify (with_connectionRef (set_connected true));;
  modify (with_connectionRef (set_connecting false));;
  setState (fun prev =>
    set_error None (set_isConnecting false (set_isConnected true prev)));;
  notify onConnected connected_notification;;
  sendClientEvent (session_update (initial_session tokenData)).

(** [dc.onmessage], lines 293-301; [data] is [None] when [JSON.parse]
    throws on the message. *)
Definition dc_onmessage (data : option RealtimeServerEvent) : M unit :=
  try_catch
    (match data with
     | Some serverEvent => handleServerEvent serverEvent
     | None => throw (Error "SyntaxError")
     end)
    (fun err => log (console_error "Failed to parse server event:")).

(** [dc.onerror], lines 303-307 *)
Definition dc_onerror : M unit :=
  log (console_error "Data channel error:");;
  setState (fun prev => set_error (Some "Data channel error") prev).

(** [dc.onclose], lines 309-315 *)
Definition dc_onclose : M unit :=
  log (console_log "Data channel closed");;
  modify (with_connectionRef (set_connected false));;
  setState (fun prev => set_isConnected false prev);;
  notify onDisconnected disconnected_notification.

(** *** [connect] *)

(** lines 210-238: the inner [try]; the result tells whether [connect] goes
    on ([true]) or hit the [return] of the inner [catch] ([false]). *)
Definition acquire_microphone (pc : nat) : M bool :=
  try_catch
    (tracks ← call getUserMedia;
     stream ← new_ref;
     modify (with_browser (Browser.with_streams (insert stream tracks)));;
     modify (with_connectionRef (set_localStream stream));;
     w ← get;
     match Browser.first_audio tracks with
     | Some audioTrack =>
         when (negb (is_closed pc (browser w)))
              (update_pc pc (Browser.add_sender stream audioTrack))
     | None => mret tt
     end;;
     setState (fun prev => set_hasPermission true prev);;
     mret true)
    (fun err =>
     log (console_error "Failed to get user media:");;
     setState (fun prev =>
       set_hasPermission false
         (set_error (Some "Microphone permission denied or not available") prev));;
     mret false).

(** lines 240-360: what follows the microphone in the outer [try]. *)
Definition negotiate (pc : nat) (tokenData : EphemeralTokenResponse) : M unit :=
  let ephemeralKey := value tokenData in
  call (createDataChannel pc "oai-events");;
  dc ← new_ref;
  modify (with_browser (Browser.with_channels (insert dc
    {| Browser.label := "oai-events"; Browser.readyState := Browser.rs_connecting;
       Browser.sent := []; Browser.onopen := None; Browser.onmessage := false;
       Browser.onerror := false; Browser.onclose := false |})));;
  modify (with_connectionRef (set_dataChannel dc));;
  update_channel dc (Browser.set_onopen tokenData);;
  update_channel dc Browser.set_onmessage;;
  update_channel dc Browser.set_onerror;;
  update_channel dc Browser.set_onclose;;
  offer ← call (createOffer pc);
  call (setLocalDescription pc offer);;
  update_pc pc (Browser.set_local offer);;
  gathering ← call (iceGatheringState pc);
  match gathering with
  | ice_complete => mret tt
  | _ => call (icegatheringstatechange_complete pc)
  end;;
  let model := session_config tokenData ≫= session_model in
  log (console_log "model");;
  w ← get;
  sdpResponse ← call (fetch (baseUrl +:+ "?model=" +:+ interpolate model)
    {| method := "POST";
       body := or_else (Browser.pcs (browser w) !! pc ≫= Browser.localDescription) offer;
       headers := [("Authorization", "Bearer " +:+ interpolate ephemeralKey);
                   ("Content-Type", "application/sdp")] |});
  if negb (ok sdpResponse) then
    errText ← try_catch (call (response_text sdpResponse)) (fun _ => mret "");
    throw (Error ("Failed to connect to OpenAI: " +:+ pretty (status sdpResponse)
                  +:+ (if truthy (Some errText) then " - " +:+ errText else "")))
  else
    answerSdp ← call (response_text sdpResponse);
    call (setRemoteDescription pc answerSdp);;
    update_pc pc (Browser.set_remote answerSdp).

(** lines 180-360: the [try] block of [connect] *)
Definition connect_attempt : M unit :=
  setState (fun prev => set_error None (set_isConnecting true prev));;
  modify (with_connectionRef (set_connecting true));;
  tokenData ← getEphemeralToken;
  call new_RTCPeerConnection;;
  pc ← new_ref;
  modify (with_browser (Browser.with_pcs (insert pc
    {| Browser.closed := false; Browser.transceivers := [];
       Browser.senders := []; Browser.localDescription := None;
       Browser.remoteDescription := None; Browser.ontrack := None |})));;
  modify (with_connectionRef (set_peerConnection pc));;
  audioEl ← new_ref;
  modify (with_browser (Browser.with_audios (insert audioEl
    {| Browser.autoplay := true; Browser.srcObject := None |})));;
  modify (with_connectionRef (set_audioElement audioEl));;
  update_pc pc (Browser.set_ontrack audioEl);;
  update_pc pc (Browser.add_transceiver "audio" "sendrecv");;
  granted ← acquire_microphone pc;
  if (granted : bool) then negotiate pc tokenData else mret tt.

(** [error instanceof Error ? error.message : 'Connection failed'] *)
Definition message_of (error : Thrown) : string :=
  match error with
  | Error message => message
  | not_an_Error => "Connection failed"
  end.

(** lines 362-376: the [catch] block of [connect] *)
Definition connect_failed (error : Thrown) : M unit :=
  log (console_error "Connection error:");;
  modify (with_connectionRef (set_connecting false));;
  modify (with_connectionRef (set_connected false));;
  let errorMessage := message_of error in
  setState (fun prev =>
    set_error (Some errorMessage)
      (set_isConnected false (set_isConnecting false prev)));;
  notify onError (error_notification errorMessage).

(** lines 175-377 *)
Definition connect : M unit :=
  w ← get;
  if connecting (connectionRef w) || connected (connectionRef w) then mret tt
  else try_catch connect_attempt connect_failed.

(** lines 380-422 *)
Definition disconnect : M unit :=
  w ← get;
  let peerConnection := peerConnection (connectionRef w) in
  let dataChannel := dataChannel (connectionRef w) in
  let localStream := localStream (connectionRef w) in
  let audioElement := audioElement (connectionRef w) in
  match dataChannel with
  | Some dataChannel => update_channel dataChannel Browser.close_channel
  | None => mret tt
  end;;
  match peerConnection with
  | Some peerConnection => update_pc peerConnection Browser.close_pc
  | None => mret tt
  end;;
  match localStream with
  | Some localStream => update_stream localStream (map Browser.stop_track)
  | None => mret tt
  end;;
  match audioElement with
  | Some audioElement => update_audio audioElement (Browser.set_srcObject None)
  | None => mret tt
  end;;
  modify (with_connectionRef (fun _ => baseline));;
  modify (with_autoConnectAttemptedRef false);;
  setState (fun prev =>
    set_error None (set_isSpeaking false (set_isListening false
      (set_isConnecting false (set_isConnected false prev)))));;
  notify onDisconnected disconnected_notification.

(** lines 425-455 *)
Definition sendMessage (message : string) : M unit :=
  w ← get;
  if negb (connected (connectionRef w)) then
    log (console_warn "Not connected, cannot send message")
  else
    let conversationItem :=
      {| item_id := None; item_type := item_message; item_status := None;
         item_role := Some user;
         item_content := Some [ {| part_type := input_text;
                                   part_text := Some message;
                                   part_audio := None;
                                   part_transcript := None |} ];
         item_name := None; item_call_id := None; item_arguments := None;
         item_output := None |} in
    sendClientEvent (conversation_item_create conversationItem);;
    sendClientEvent response_create;;
    setState (fun prev =>
      set_conversationHistory (conversationHistory prev ++ [conversationItem]) prev).

(** lines 458-467 *)
Definition toggleMute : M unit :=
  w ← get;
  match localStream (connectionRef w) with
  | Some localStream =>
      match Browser.streams (browser w) !! localStream ≫= Browser.first_audio with
      | Some audioTrack =>
          modify (with_isMutedRef (negb (isMutedRef w)));;
          update_stream localStream
            (alter (Browser.set_enabled (negb (negb (isMutedRef w)))) audioTrack)
      | None => mret tt
      end
  | None => mret tt
  end.

(** lines 470-476 *)
Definition clearConversation : M unit :=
  setState (fun prev => set_currentResponse None (set_conversationHistory [] prev)).

(** ** Events the browser delivers

    The browser runs the handlers [connect] installed, each as a task of
    its own. *)

(** The channel reaches the open state; [dc.onopen] runs. *)
Definition channel_opens (dc : nat) : M unit :=
  update_channel dc (Browser.set_readyState Browser.rs_open);;
  w ← get;
  match Browser.channels (browser w) !! dc ≫= Browser.onopen with
  | Some tokenData => dc_onopen tokenData
  | None => mret tt
  end.

(** A message arrives on the channel; [dc.onmessage] runs. *)
Definition message_arrives (dc : nat) (data : option RealtimeServerEvent) : M unit :=
  w ← get;
  if bool_decide (Browser.onmessage <$> Browser.channels (browser w) !! dc = Some true)
  then dc_onmessage data
  else mret tt.

(** The channel is closed, by either side; [dc.onclose] runs. *)
Definition channel_closes (dc : nat) : M unit :=
  update_channel dc (Browser.set_readyState Browser.rs_closed);;
  w ← get;
  if bool_decide (Browser.onclose <$> Browser.channels (browser w) !! dc = Some true)
  then dc_onclose
  else mret tt.

(** A remote track arrives; [pc.ontrack] runs. *)
Definition track_arrives (pc : nat) (kind : Browser.TrackKind) (stream0 : option nat) : M unit :=
  w ← get;
  match Browser.pcs (browser w) !! pc ≫= Browser.ontrack with
  | Some audioEl => pc_ontrack audioEl kind stream0
  | None => mret tt
  end.

(** The world a synchronous operation leaves, when it returns. *)
Definition after {A} (m : M A) (w : World) : option World :=
  match m w with
  | Value _ w' => Some w'
  | _ => None
  end.

(** Feeding a list of inbound events to [handleServerEvent], in order. *)
Fixpoint handleServerEvents (events : list RealtimeServerEvent) : M unit :=
  match events with
  | [] => mret tt
  | event :: events' => handleServerEvent event;; handleServerEvents events'
  end.

(** ** Derived definitions

    The predicate the reasoning rules are about, and the worlds the
    operations leave, named for the statements below. *)

(** [wp o m w Q]: running [m] from [w] against [o] ends in an outcome and a
    trace that satisfy [Q]. *)
Definition wp {A} (o : Oracle) (m : M A) (w : World) (Q : Outcome A -> Trace -> Prop) : Prop :=
  Q (fst (run o (m w))) (snd (run o (m w))).

(** [acquire_microphone] returns [true] on the world [microphone_granted],
    or [false] on [microphone_refused]. *)
Definition microphone_granted (pc : nat) (tracks : list Browser.MediaStreamTrack) (w : World) : World :=
  let stream := Browser.next_ref (browser w) in
  let w1 := with_connectionRef (set_localStream stream)
              (with_browser (Browser.with_streams (insert stream tracks))
                 (with_browser Browser.bump w)) in
  with_state (fun prev => set_hasPermission true prev)
    (with_browser
       (Browser.with_pcs (fun pcs =>
          match Browser.first_audio tracks with
          | Some audioTrack =>
              if negb (is_closed pc (browser w1))
              then alter (Browser.add_sender stream audioTrack) pc pcs
              else pcs
          | None => pcs
          end))
       w1).

Definition microphone_refused (w : World) : World :=
  with_state
    (fun prev =>
       set_hasPermission false
         (set_error (Some "Microphone permission denied or not available") prev))
    (with_console (fun l => l ++ [console_error "Failed to get user media:"]) w).

(** What [disconnect] does to the browser objects whose handles the
    connection state [c] holds. *)
Definition release (c : WebRTCConnectionState) (b : Browser.t) : Browser.t :=
  let b1 := match dataChannel c with
            | Some dc => Browser.with_channels (alter Browser.close_channel dc) b
            | None => b
            end in
  let b2 := match peerConnection c with
            | Some pc => Browser.with_pcs (alter Browser.close_pc pc) b1
            | None => b1
            end in
  let b3 := match localStream c with
            | Some s => Browser.with_streams (alter (map Browser.stop_track) s) b2
            | None => b2
            end in
  match audioElement c with
  | Some a => Browser.with_audios (alter (Browser.set_srcObject None) a) b3
  | None => b3
  end.

Definition torn_down (w : World) : World :=
  {| state :=
       {| isListening := false; isConnected := false; isConnecting := false;
          isSpeaking := false; hasPermission := hasPermission (state w);
          error := None; currentResponse := currentResponse (state w);
          conversationHistory := conversationHistory (state w) |};
     connectionRef := baseline;
     isMutedRef := isMutedRef w;
     autoConnectAttemptedRef := false;
     options := options w;
     browser := release (connectionRef w) (browser w);
     notified :=
       if onDisconnected (options w)
       then notified w ++ [disconnected_notification] else notified w;
     console := console w |}.

(** The world the [catch] block of [connect] leaves. *)
Definition failure_recorded (e : Thrown) (w : World) : World :=
  with_notified
    (fun l => if onError (options w)
              then l ++ [error_notification (message_of e)] else l)
    (with_state
       (fun prev => set_error (Some (message_of e))
                      (set_isConnected false (set_isConnecting false prev)))
       (with_connectionRef (set_connected false)
          (with_connectionRef (set_connecting false)
             (with_console (fun l => l ++ [console_error "Connection error:"]) w)))).

(** The failure came before a peer connection existed: Connection State
    holds the handles it held before the call, and no browser object was
    created or touched. *)
Definition nothing_acquired (w w' : World) : Prop :=
  peerConnection (connectionRef w') = peerConnection (connectionRef w)
  /\ dataChannel (connectionRef w') = dataChannel (connectionRef w)
  /\ audioElement (connectionRef w') = audioElement (connectionRef w)
  /\ localStream (connectionRef w') = localStream (connectionRef w)
  /\ browser w' = browser w.

(** The failure came during negotiation: the peer connection, the audio
    element and the granted microphone stream are still in Connection State,
    the peer connection not closed, the tracks as they were granted; so is
    the side-channel, not closed, if it had been created. *)
Definition still_held (o : Oracle) (w w' : World) : Prop :=
  let pc := Browser.next_ref (browser w) in
  exists tracks,
    o getUserMedia = Fulfilled tracks
    /\ peerConnection (connectionRef w') = Some pc
    /\ audioElement (connectionRef w') = Some (S pc)
    /\ localStream (connectionRef w') = Some (S (S pc))
    /\ Browser.closed <$> Browser.pcs (browser w') !! pc = Some false
    /\ Browser.streams (browser w') !! S (S pc) = Some tracks
    /\ (dataChannel (connectionRef w') = dataChannel (connectionRef w)
        \/ dataChannel (connectionRef w') = Some (S (S (S pc)))
           /\ Browser.readyState <$> Browser.channels (browser w') !! S (S (S pc))
              = Some Browser.rs_connecting).

(** What can happen to the mounted hook: a call of its control surface, or
    an event the browser delivers to a handler it installed. *)
Inductive Operation :=
| do_connect
| do_disconnect
| do_sendMessage (message : string)
| do_toggleMute
| do_clearConversation
| on_open (dc : nat)
| on_message (dc : nat) (data : option RealtimeServerEvent)
| on_error
| on_close (dc : nat)
| on_track (pc : nat) (kind : Browser.TrackKind) (stream0 : option nat).

Definition perform (op : Operation) : M unit :=
  match op with
  | do_connect => connect
  | do_disconnect => disconnect
  | do_sendMessage message => sendMessage message
  | do_toggleMute => toggleMute
  | do_clearConversation => clearConversation
  | on_open dc => channel_opens dc
  | on_message dc data => message_arrives dc data
  | on_error => dc_onerror
  | on_close dc => channel_closes dc
  | on_track pc kind stream0 => track_arrives pc kind stream0
  end.

(** ** Sample collaborators *)

Definition every_callback : UseRealtimeVoiceOptions :=
  {| onError := true; onConnected := true; onDisconnected := true;
     onResponseReceived := true; onSpeechStarted := true;
     onSpeechStopped := true; autoConnect := false |}.

Definition microphone : list Browser.MediaStreamTrack :=
  [ {| Browser.kind := Browser.audio_track; Browser.enabled := true;
       Browser.stopped := false |} ].

(** The credential of the end-to-end scenario:
    [{value:"tok", expires_at: t+60, session_config:{model:"m1", ...}}]. *)
Definition credential : EphemeralTokenResponse :=
  {| value := Some "tok"; expires_at := Some 60;
     session_config :=
       Some {| session_model := Some "m1"; session_instructions := None;
               session_audio_input_format := None;
               session_audio_output_format := None;
               session_audio_output_voice := None;
               session_audio_output_speed := None |};
     body_error := None |}.

(** Every call succeeds: the backend answers 200 with [body], the remote
    peer answers the offer, the microphone is granted. *)
Definition all_succeed (body : EphemeralTokenResponse) : Oracle := fun c =>
  match c with
  | fetch _ _ => Fulfilled {| ok := true; status := 200 |}
  | response_json _ => Fulfilled body
  | response_text _ => Fulfilled "v=0 answer"
  | new_RTCPeerConnection => Fulfilled tt
  | createDataChannel _ _ => Fulfilled tt
  | getUserMedia => Fulfilled microphone
  | createOffer _ => Fulfilled "v=0 offer"
  | setLocalDescription _ _ => Fulfilled tt
  | iceGatheringState _ => Fulfilled ice_gathering
  | icegatheringstatechange_complete _ => Fulfilled tt
  | setRemoteDescription _ _ => Fulfilled tt
  end.

(** The user denies the microphone; everything else succeeds. *)
Definition microphone_denied : Oracle := fun c =>
  match c return Settled (answer c) with
  | getUserMedia => Rejected (Error "NotAllowedError")
  | c' => all_succeed credential c'
  end.

(** The token backend answers 500 with [{ error: "Internal server error" }]. *)
Definition backend_down : Oracle := fun c =>
  match c return Settled (answer c) with
  | fetch _ _ => Fulfilled {| ok := false; status := 500 |}
  | response_json _ =>
      Fulfilled {| value := None; expires_at := None; session_config := None;
                   body_error := Some "Internal server error" |}
  | c' => all_succeed credential c'
  end.

(** The remote signaling endpoint answers 401. *)
Definition offer_refused : Oracle := fun c =>
  match c return Settled (answer c) with
  | fetch url _ =>
      if bool_decide (url = token_url)
      then Fulfilled {| ok := true; status := 200 |}
      else Fulfilled {| ok := false; status := 401 |}
  | response_text _ => Fulfilled "invalid token"
  | c' => all_succeed credential c'
  end.

(** The world [connect] leaves when run, from the freshly mounted hook,
    against [o]. *)
Definition connect_from_mount (o : Oracle) : World :=
  final (fst (run o (connect (mount every_callback)))).

(** A session: [connect] succeeded and the channel has opened. *)
Definition session : World :=
  default (mount every_callback)
    (after (channel_opens 3) (connect_from_mount (all_succeed credential))).

(** Messages arriving on channel [dc], in order. *)
Fixpoint messages_arrive (dc : nat) (messages : list RealtimeServerEvent) : M unit :=
  match messages with
  | [] => mret tt
  | m :: messages' => message_arrives dc (Some m);; messages_arrive dc messages'
  end.

Definition a_user_item (t : string) : ConversationItem :=
  {| item_id := None; item_type := item_message; item_status := None;
     item_role := Some user;
     item_content := Some [ {| part_type := input_text; part_text := Some t;
                               part_audio := None; part_transcript := None |} ];
     item_name := None; item_call_id := None; item_arguments := None;
     item_output := None |}.

(** [{output:[{role:"assistant", content:[{type:"text", text:t}]}]}] *)
Definition assistant_says (t : string) : RealtimeResponse :=
  {| response_id := "resp_1";
     response_output :=
       [ {| item_id := None; item_type := item_message; item_status := None;
            item_role := Some assistant;
            item_content := Some [ {| part_type := text; part_text := Some t;
                                      part_audio := None;
                                      part_transcript := None |} ];
            item_name := None; item_call_id := None; item_arguments := None;
            item_output := None |} ] |}.

(** The inbound events of the end-to-end scenario. *)
Definition scenario (s : RealtimeSession) (A : ConversationItem) (r : RealtimeResponse)
  : list RealtimeServerEvent :=
  [ session_created s; conversation_item_created A; response_created r;
    response_text_delta "Hel"; response_text_delta "lo";
    response_done (assistant_says "Hello") ].

(** The backend answers 200 with a body that has no [value] field. *)
Definition no_secret : EphemeralTokenResponse :=
  {| value := None; expires_at := Some 60; session_config := None;
     body_error := None |}.

(** ** More of the hook *)

(** lines 478-484: the auto-connect effect.  React runs it after the first
    render and after every render in which [autoConnect], [connect],
    [state.isConnected] or [state.isConnecting] changed; [connect()] is
    called without [await]. *)
Definition autoConnect_effect : M unit :=
  w ← get;
  if autoConnect (options w) && negb (autoConnectAttemptedRef w)
     && negb (isConnected (state w)) && negb (isConnecting (state w))
  then modify (with_autoConnectAttemptedRef true);; connect
  else mret tt.

(** [m], [n] times in a row. *)
Fixpoint times (n : nat) (m : M unit) : M unit :=
  match n with
  | 0 => mret tt
  | S n' => m;; times n' m
  end.

(** What a track is, apart from being enabled or not. *)
Definition track_identity (t : Browser.MediaStreamTrack) : Browser.TrackKind * bool :=
  (Browser.kind t, Browser.stopped t).

(** The items of the [conversation.item.created] events of a sequence. *)
Definition created_items (events : list RealtimeServerEvent) : list ConversationItem :=
  omap (fun event => match event with
                     | conversation_item_created item => Some item
                     | _ => None
                     end) events.

(** The text of the [response.text.delta] events of a sequence. *)
Definition delta_texts (events : list RealtimeServerEvent) : list string :=
  omap (fun event => match event with
                     | response_text_delta delta => Some delta
                     | _ => None
                     end) events.

(** The texts [ds] one after the other. *)
Definition concat_text (ds : list string) : string := foldr String.append "" ds.

(** [currentResponse] after the deltas [ds] have been added to it. *)
Definition accumulate (current : option string) (ds : list string) : option string :=
  foldl (fun cur delta => Some (or_else cur "" +:+ delta)) current ds.

(** Messages arriving on channel [dc], parseable ([Some]) or not ([None]). *)
Fixpoint data_arrives (dc : nat) (data : list (option RealtimeServerEvent)) : M unit :=
  match data with
  | [] => mret tt
  | d :: data' => message_arrives dc d;; data_arrives dc data'
  end.

(** The auto-connect effect after the render that follows an operation:
    it runs when [state.isConnected] or [state.isConnecting] is not what it
    was at the render [before] (its other dependencies never change). *)
Definition autoConnect_after_render (before : VoiceInterfaceState) : M unit :=
  w ← get;
  if bool_decide ((isConnected before, isConnecting before)
                  = (isConnected (state w), isConnecting (state w)))
  then mret tt
  else autoConnect_effect.

(** The world after a sequence of operations, each run to its end
    against the outside as it answers during that operation: the outside
    may answer the same call differently from one operation to the next
    (within one operation no call is made twice:
    [calls_of_an_operation_are_distinct]). *)
Fixpoint performs (steps : list (Oracle * Operation)) (w : World) : World :=
  match steps with
  | [] => w
  | (o, op) :: steps' => performs steps' (final (fst (run o (perform op w))))
  end.

(** ** Another task while [connect] is suspended

    [interrupted o task r] runs [r] against [o] as [run] does, except that
    [task] runs while [r] is suspended at its first [await]: the
    computation resumes on the world [task] left. *)
Fixpoint interrupted {A} (o : Oracle) (task : World -> World) (r : Res A) : Outcome A * Trace :=
  match r with
  | Value a w => (Returned a w, [])
  | Raised e w => (Threw e w, [])
  | Ext c w k =>
      if suspends c
      then let '(out, t) := run o (k (o c) (task w)) in (out, (c, w) :: t)
      else let '(out, t) := interrupted o task (k (o c) w) in (out, (c, w) :: t)
  end.

(** Whether a trace has an [await] in it. *)
Definition has_suspended (t : Trace) : bool :=
  existsb (fun cw => suspends (fst cw)) t.

Definition wpi {A} (o : Oracle) (task : World -> World) (m : M A) (w : World)
    (Q : Outcome A -> Trace -> Prop) : Prop :=
  Q (fst (interrupted o task (m w))) (snd (interrupted o task (m w))).

(** The world [dc.onopen] leaves when channel [dc], installed with the
    credential [td], opens and is the channel of Connection State. *)
Definition opened (dc : nat) (td : EphemeralTokenResponse) (w : World) : World :=
  with_browser
    (Browser.with_channels
       (alter (Browser.push_sent (session_update (initial_session td))) dc))
    (with_notified
       (fun l => if onConnected (options w) then l ++ [connected_notification] else l)
       (with_state
          (fun prev => set_error None (set_isConnecting false (set_isConnected true prev)))
          (with_connectionRef (set_connecting false)
             (with_connectionRef (set_connected true)
                (with_console (fun l => l ++ [console_log "Data channel opened"])
                   (with_browser
                      (Browser.with_channels
                         (alter (Browser.set_readyState Browser.rs_open) dc))
                      w)))))).

(** The flags of the Voice Interface State say what the flags of
    Connection State say. *)
Definition flags_agree (w : World) : Prop :=
  isConnected (state w) = connected (connectionRef w)
  /\ isConnecting (state w) = connecting (connectionRef w).

(** Every handle of Connection State is a reference the browser has given
    out. *)
Definition handles_allocated (w : World) : Prop :=
  forall k,
    (peerConnection (connectionRef w) = Some k
     \/ dataChannel (connectionRef w) = Some k
     \/ localStream (connectionRef w) = Some k
     \/ audioElement (connectionRef w) = Some k) ->
    k < Browser.next_ref (browser w).

(** ** The voice interface ([VoiceInterface], the caller of the hook)

    The controls the component renders from the state the hook returns:
    the session button starts a session while nothing is connected and is
    disabled while connecting; the other three are rendered on a connected
    session only. *)
Module VoiceInterface.

Inductive Control := start_session | end_session | mute | clear_history.

(** Whether the control is rendered. *)
Definition shown (s : VoiceInterfaceState) (c : Control) : bool :=
  match c with
  | start_session => negb (isConnected s)
  | end_session | mute | clear_history => isConnected s
  end.

(** The [disabled] attribute. *)
Definition disabled (s : VoiceInterfaceState) (c : Control) : bool :=
  match c with
  | start_session => isConnecting s
  | end_session | mute | clear_history => false
  end.

Definition clickable (s : VoiceInterfaceState) (c : Control) : bool :=
  shown s c && negb (disabled s c).

(** The status line. *)
Definition status (s : VoiceInterfaceState) : string :=
  if isConnected s then "Connected"
  else if isConnecting s then "Connecting..."
  else "Disconnected".

(** What a click on a control calls in the hook. *)
Definition click (c : Control) : M unit :=
  match c with
  | start_session => connect
  | end_session => disconnect
  | mute => toggleMute
  | clear_history => clearConversation
  end.

End VoiceInterface.

(** ** The token route ([app/api/supabase/functions/realtime-token/route.ts])

    The route the hook posts to.  It invokes the edge function and answers
    from what the invocation gave: the data, or an error object, or an
    exception. *)
Module TokenRoute.

(** The outcome of [supabase.functions.invoke]: [{ data, error: null }],
    [{ data: null, error }] with the error's [message], or an exception. *)
Inductive Invoked :=
| invoke_data (data : EphemeralTokenResponse)
| invoke_error (message : option string)
| invoke_throws.

Record Answer := { answer_status : nat; answer_body : EphemeralTokenResponse }.

Definition error_body (message : string) : EphemeralTokenResponse :=
  {| value := None; expires_at := None; session_config := None;
     body_error := Some message |}.

(** [POST], lines 13-41 *)
Definition POST (invoked : Invoked) : Answer :=
  match invoked with
  | invoke_error message =>
      {| answer_status := 500;
         answer_body := error_body (or_else message "Failed to generate token") |}
  | invoke_data data => {| answer_status := 200; answer_body := data |}
  | invoke_throws =>
      {| answer_status := 500; answer_body := error_body "Internal server error" |}
  end.

(** What [fetch] makes of an answer: [ok] is a status from 200 to 299. *)
Definition received (a : Answer) : Response :=
  {| ok := (200 <=? answer_status a) && (answer_status a <=? 299);
     status := answer_status a |}.

(** The outside as the hook sees it when the token request is answered by
    the route, and every other call by [o]. *)
Definition behind (invoked : Invoked) (o : Oracle) : Oracle := fun c =>
  match c return Settled (answer c) with
  | fetch url init =>
      if bool_decide (url = token_url)
      then Fulfilled (received (POST invoked))
      else o (fetch url init)
  | response_json r => Fulfilled (answer_body (POST invoked))
  | c' => o c'
  end.

End TokenRoute.

(** ** The token edge function ([supabase/functions/realtime-token/index.ts])

    JSON objects are finite maps from keys to values; the values of a
    session configuration are kept as text. *)
Module RealtimeToken.

Definition Session := gmap string string.

Inductive Json :=
| json_text (s : string)
| json_session (s : Session).

Record Request := {
  req_method : string;
  (** [body.session] of the parsed body, when the body parses and has a
      session object *)
  req_session : option Session
}.

(** The request made upstream. *)
Record Asked := {
  asked_url : string;
  asked_method : string;
  asked_authorization : string;
  asked_session : Session
}.

(** What comes back: the request fails, or a response with its status,
    its text, and its parsed body or the message of the parse error. *)
Inductive Upstream :=
| unreachable (message : string)
| responded (ok : bool) (status : nat) (text : string)
            (data : string + gmap string Json).

Inductive Body :=
| plain_ok
| token_generation_error (error : string)
| token (data : gmap string Json).

Record Reply := { reply_status : nat; reply_body : Body }.

Section Serve.
(** The text of the default instructions. *)
Variable instructions : string.

Definition defaultSessionConfig : Session :=
  {[ "type" := "realtime";
     "model" := "gpt-4o-mini-realtime-preview";
     "instructions" := instructions ]}.

Definition failed (message : string) : Reply :=
  {| reply_status := 500; reply_body := token_generation_error message |}.

(** The handler given to [Deno.serve]: the reply, and the requests made
    upstream. *)
Definition serve (req : Request) (openaiKey : option string)
    (upstream : Asked -> Upstream) : Reply * list Asked :=
  if bool_decide (req_method req = "OPTIONS")
  then ({| reply_status := 200; reply_body := plain_ok |}, [])
  else if negb (truthy openaiKey)
  then (failed "OpenAI API key not configured", [])
  else
    let customConfig :=
      if bool_decide (req_method req = "POST")
      then default ∅ (req_session req) else ∅ in
    let session := customConfig ∪ defaultSessionConfig in
    let asked :=
      {| asked_url := "https://api.openai.com/v1/realtime/client_secrets";
         asked_method := "POST";
         asked_authorization := "Bearer " +:+ default "" openaiKey;
         asked_session := session |} in
    match upstream asked with
    | unreachable message => (failed message, [asked])
    | responded ok status errorText data =>
        if negb ok
        then (failed ("OpenAI API error: " +:+ pretty status +:+ " - " +:+ errorText),
              [asked])
        else match data with
             | inl message => (failed message, [asked])
             | inr data =>
                 ({| reply_status := 200;
                     reply_body := token (<["session_config" := json_session session]> data) |},
                  [asked])
             end
    end.

End Serve.
End RealtimeToken.

(** ** Utilities ([lib/utils.ts])

    A text is the sequence of its code units, which [length] counts and
    [slice] cuts. *)
Module Utils.

(** [text.slice(0, end)] for an integer [end]: a negative [end] counts
    from the end of the text. *)
Definition slice_to (text : string) (e : Z) : string :=
  let len := Z.of_nat (String.length text) in
  let e' := if (e <? 0)%Z then Z.max (len + e) 0 else Z.min e len in
  String.substring 0 (Z.to_nat e') text.

(** [truncateText], for an integer [maxLength] *)
Definition truncateText (text : string) (maxLength : Z) : string :=
  if (Z.of_nat (String.length text) <=? maxLength)%Z then text
  else slice_to text maxLength +:+ "...".

(** What reading a property of [process.env] gives, when it gives
    something: a text, or a value that is not a text (a member inherited
    from [Object.prototype], such as [constructor]), truthy or not. *)
Inductive Property :=
| a_text (s : string)
| not_a_text (is_truthy : bool).

(** JS truthiness of what was read; [None] is [undefined]. *)
Definition holds (v : option Property) : bool :=
  match v with
  | Some (a_text s) => negb (bool_decide (s = ""))
  | Some (not_a_text is_truthy) => is_truthy
  | None => false
  end.

(** [getEnvVar]: [env name] is [process.env[name]]; the result is the
    value returned or the error thrown. *)
Definition getEnvVar (env : string -> option Property) (name : string)
    (defaultValue : option string) : Property + Thrown :=
  let value := env name in
  if negb (holds value) && negb (truthy defaultValue)
  then inr (Error ("Environment variable " +:+ name +:+ " is required"))
  else inl (if holds value then default (a_text "") value
            else if truthy defaultValue then a_text (default "" defaultValue)
            else a_text "").

End Utils.

(** The options of a caller that asks for auto-connect. *)
Definition auto_connecting : UseRealtimeVoiceOptions :=
  {| onError := true; onConnected := true; onDisconnected := true;
     onResponseReceived := true; onSpeechStarted := true;
     onSpeechStopped := true; autoConnect := true |}.

(** The session that auto-connect opened on mount. *)
Definition auto_session : World :=
  default (mount auto_connecting)
    (after (channel_opens 3)
       (final (fst (run (all_succeed credential)
                      (autoConnect_effect (mount auto_connecting)))))).

(** The session after the remote side closed the channel. *)
Definition remotely_closed : World :=
  default session (after (channel_closes 3) session).

(** The session after one [toggleMute]. *)
Definition muted_session : World :=
  default session (after toggleMute session).

(** ** Reasoning about runs

    The rules for [wp] follow the structure of the program, one construct
    at a time. *)
Section Wp.
Context (o : Oracle).

Lemma run_bind {A B} (f : A -> M B) (r : Res A) :
  run o (res_bind f r) =
  match run o r with
  | (Returned a w, t) => let '(out, t') := run o (f a w) in (out, t ++ t')
  | (Threw e w, t) => (Threw e w, t)
  end.
Proof.
  induction r as [a w|e w|c w k IH]; cbn [res_bind run].
  - by destruct (run o (f a w)).
  - reflexivity.
  - rewrite IH. destruct (run o (k (o c) w)) as [[a w'|e w'] t]; [|reflexivity].
    by destruct (run o (f a w')).
Qed.

Lemma run_catch {A} (h : Thrown -> M A) (r : Res A) :
  run o (res_catch h r) =
  match run o r with
  | (Returned a w, t) => (Returned a w, t)
  | (Threw e w, t) => let '(out, t') := run o (h e w) in (out, t ++ t')
  end.
Proof.
  induction r as [a w|e w|c w k IH]; cbn [res_catch run].
  - reflexivity.
  - by destruct (run o (h e w)).
  - rewrite IH. destruct (run o (k (o c) w)) as [[a w'|e w'] t]; [reflexivity|].
    by destruct (run o (h e w')).
Qed.

Lemma wp_run {A} (m : M A) (w : World) (P : Outcome A * Trace -> Prop) :
  wp o m w (fun out t => P (out, t)) -> P (run o (m w)).
Proof. unfold wp. by destruct (run o (m w)). Qed.

Lemma wp_ret {A} (a : A) w (Q : Outcome A -> Trace -> Prop) :
  Q (Returned a w) [] -> wp o (mret a) w Q.
Proof. exact id. Qed.

Lemma wp_throw {A} (e : Thrown) w (Q : Outcome A -> Trace -> Prop) :
  Q (Threw e w) [] -> wp o (throw e) w Q.
Proof. exact id. Qed.

Lemma wp_get w (Q : Outcome World -> Trace -> Prop) :
  Q (Returned w w) [] -> wp o get w Q.
Proof. exact id. Qed.

Lemma wp_modify (g : World -> World) w (Q : Outcome unit -> Trace -> Prop) :
  Q (Returned tt (g w)) [] -> wp o (modify g) w Q.
Proof. exact id. Qed.

Lemma wp_call (c : Call) w (Q : Outcome (answer c) -> Trace -> Prop) :
  (forall x, o c = Fulfilled x -> Q (Returned x w) [(c, w)]) ->
  (forall e, o c = Rejected e -> Q (Threw e w) [(c, w)]) ->
  wp o (call c) w Q.
Proof.
  intros Hx He. unfold wp, call. cbn [run].
  destruct (o c) as [x|e]; cbn; auto.
Qed.

Lemma wp_bind {A B} (m : M A) (f : A -> M B) w (Q : Outcome B -> Trace -> Prop) :
  wp o m w (fun out t =>
    match out with
    | Returned a w' => wp o (f a) w' (fun out' t' => Q out' (t ++ t'))
    | Threw e w' => Q (Threw e w') t
    end) ->
  wp o (m ≫= f) w Q.
Proof.
  unfold wp, mbind, M_bind. rewrite run_bind.
  destruct (run o (m w)) as [[a w'|e w'] t]; cbn; [|done].
  by destruct (run o (f a w')).
Qed.

Lemma wp_try_catch {A} (m : M A) (h : Thrown -> M A) w (Q : Outcome A -> Trace -> Prop) :
  wp o m w (fun out t =>
    match out with
    | Returned a w' => Q (Returned a w') t
    | Threw e w' => wp o (h e) w' (fun out' t' => Q out' (t ++ t'))
    end) ->
  wp o (try_catch m h) w Q.
Proof.
  unfold wp, try_catch. rewrite run_catch.
  destruct (run o (m w)) as [[a w'|e w'] t]; cbn; [done|].
  by destruct (run o (h e w')).
Qed.

Lemma wp_mono {A} (m : M A) w (Q Q' : Outcome A -> Trace -> Prop) :
  (forall out t, Q out t -> Q' out t) -> wp o m w Q -> wp o m w Q'.
Proof. unfold wp. auto. Qed.

End Wp.

#[global] Opaque wp.

(** Projections of updated worlds are evaluated as they appear, so that the
    values a program reads (a fresh reference, a flag) stay small. *)
Ltac simpl_world :=
  cbn beta iota zeta delta
    [state connectionRef isMutedRef autoConnectAttemptedRef options browser
     notified console with_state with_connectionRef with_isMutedRef
     with_autoConnectAttemptedRef with_browser with_notified with_console
     connected connecting connection_error peerConnection dataChannel
     audioElement localStream set_connected set_connecting set_peerConnection
     set_dataChannel set_audioElement set_localStream
     Browser.pcs Browser.channels Browser.streams Browser.audios
     Browser.next_ref Browser.with_pcs Browser.with_channels
     Browser.with_streams Browser.with_audios Browser.bump fst snd
     microphone_granted microphone_refused].

(** One step of symbolic execution through a primitive of the monad. *)
Ltac wp_prim :=
  lazymatch goal with
  | |- wp _ (mbind _ _) _ _ => apply wp_bind
  | |- wp _ (mret _) _ _ => apply wp_ret
  | |- wp _ (throw _) _ _ => apply wp_throw
  | |- wp _ get _ _ => apply wp_get
  | |- wp _ (modify _) _ _ => apply wp_modify
  | |- wp _ (try_catch _ _) _ _ => apply wp_try_catch
  | |- wp ?o (call ?c) ?w ?Q =>
      apply (wp_call o c w Q); [intros ? ?|intros ? ?]
  | |- wp _ (if ?b then _ else _) _ _ => destruct b eqn:?
  | |- wp _ (match ?x with _ => _ end) _ _ => destruct x eqn:?
  | |- wp _ (setState _) _ _ => unfold setState
  | |- wp _ (notify _ _) _ _ => unfold notify
  | |- wp _ (log _) _ _ => unfold log
  | |- wp _ (when _ _) _ _ => unfold when
  | |- wp _ new_ref _ _ => unfold new_ref
  | |- wp _ (update_pc _ _) _ _ => unfold update_pc
  | |- wp _ (update_channel _ _) _ _ => unfold update_channel
  | |- wp _ (update_stream _ _) _ _ => unfold update_stream
  | |- wp _ (update_audio _ _) _ _ => unfold update_audio
  end; simpl_world.

(** *** The microphone step as one rule

    [acquire_microphone] makes one call and never throws: it returns [true]
    on the world [microphone_granted], or [false] on [microphone_refused]. *)
Lemma with_pcs_unchanged w :
  with_browser (Browser.with_pcs (fun pcs => pcs)) w = w.
Proof. by destruct w as [? ? ? ? ? [] ? ?]. Qed.

Lemma wp_acquire_microphone (o : Oracle) pc w (Q : Outcome bool -> Trace -> Prop) :
  (forall tracks, o getUserMedia = Fulfilled tracks ->
     Q (Returned true (microphone_granted pc tracks w)) [(getUserMedia, w)]) ->
  (forall e, o getUserMedia = Rejected e ->
     Q (Returned false (microphone_refused w)) [(getUserMedia, w)]) ->
  wp o (acquire_microphone pc) w Q.
Proof.
  intros Hgranted Hrefused. unfold acquire_microphone.
  repeat wp_prim; cbn [app];
    try match goal with
        | He : o getUserMedia = Rejected _ |- _ => exact (Hrefused _ He)
        end;
    match goal with
    | Hf : o getUserMedia = Fulfilled _ |- _ => specialize (Hgranted _ Hf)
    end;
    unfold microphone_granted in Hgranted; cbv zeta in Hgranted;
    repeat match goal with
           | E : Browser.first_audio _ = _ |- _ => rewrite E in Hgranted; clear E
           end;
    cbn [browser with_browser with_connectionRef] in Hgranted;
    repeat match goal with
           | E : negb _ = _ |- _ => rewrite E in Hgranted; clear E
           end;
    rewrite ?with_pcs_unchanged in Hgranted;
    exact Hgranted.
Qed.

(** One step of symbolic execution through [connect]. *)
Ltac wp_step :=
  first
    [ wp_prim
    | lazymatch goal with
      | |- wp _ getEphemeralToken _ _ => unfold getEphemeralToken
      | |- wp _ (acquire_microphone _) _ _ =>
          apply wp_acquire_microphone; intros ? ?
      | |- wp _ (negotiate _ _) _ _ => unfold negotiate
      | |- wp _ connect_attempt _ _ => unfold connect_attempt
      | |- wp _ (connect_failed _) _ _ => unfold connect_failed
      end; simpl_world ].

Ltac wp_run := repeat wp_step.

(** * Properties *)

(** Tests on strings and on browser objects are left folded while the
    operations are unfolded. *)
Arguments truthy : simpl never.
Arguments or_else : simpl never.
Arguments is_open : simpl never.
Arguments is_closed : simpl never.
Arguments textContent : simpl never.

Ltac unfold_hook :=
  unfold connect, connect_attempt, connect_failed, getEphemeralToken,
    acquire_microphone, negotiate, setState, notify, log, when, new_ref,
    update_pc, update_channel, update_stream, update_audio, token_request,
    sendClientEvent, handleServerEvent, disconnect, sendMessage, toggleMute,
    clearConversation, dc_onopen, dc_onmessage, dc_onerror, dc_onclose,
    pc_ontrack, channel_opens, message_arrives, channel_closes, track_arrives,
    call, modify, get, throw, try_catch, mbind, M_bind, mret, M_ret;
  cbn.

(** ** The synchronous operations return *)

Lemma disconnect_returns w : disconnect w = Value tt (torn_down w).
Proof.
  unfold_hook. unfold torn_down, release.
  destruct (dataChannel (connectionRef w)), (peerConnection (connectionRef w)),
    (localStream (connectionRef w)), (audioElement (connectionRef w));
    reflexivity.
Qed.

Lemma release_baseline b : release baseline b = b.
Proof. reflexivity. Qed.

Lemma handleServerEvent_returns event w :
  exists w', handleServerEvent event w = Value tt w'
    /\ connectionRef w' = connectionRef w
    /\ browser w' = browser w
    /\ options w' = options w.
Proof.
  destruct event; unfold_hook; try (eexists; split; [reflexivity|by cbn]).
  destruct (truthy _); eexists; (split; [reflexivity|by cbn]).
Qed.

(** Inbound [conversation.item.created] events append to the history, in
    order, and touch nothing else of the state. *)
Lemma items_created_append items : forall w,
  exists w', handleServerEvents (map conversation_item_created items) w = Value tt w'
    /\ state w' = set_conversationHistory (conversationHistory (state w) ++ items) (state w)
    /\ connectionRef w' = connectionRef w
    /\ browser w' = browser w
    /\ options w' = options w
    /\ notified w' = notified w.
Proof.
  induction items as [|item items IH]; intros w.
  - exists w. cbn. rewrite app_nil_r. by destruct (state w).
  - cbn [map handleServerEvents]. unfold_hook.
    match goal with |- context [handleServerEvents _ ?w1] =>
      destruct (IH w1) as (w' & -> & Hs & Hc & Hb & Ho & Hn) end.
    exists w'. split; [reflexivity|]. rewrite Hs, Hc, Hb, Ho, Hn. cbn.
    by rewrite <- app_assoc.
Qed.

Example session_is_connected :
  connected (connectionRef session) = true
  /\ connecting (connectionRef session) = false
  /\ dataChannel (connectionRef session) = Some 3
  /\ is_open 3 (browser session) = true
  /\ state session =
       {| isListening := false; isConnected := true; isConnecting := false;
          isSpeaking := false; hasPermission := true; error := None;
          currentResponse := None; conversationHistory := [] |}
  /\ notified session = [connected_notification]
  /\ Browser.sent <$> Browser.channels (browser session) !! 3
     = Some [session_update (initial_session credential)].
Proof. vm_compute. repeat split. Qed.


(** ** Sending on the side-channel *)

(** C5: invoking the outbound-event sender while the side-channel handle is
    absent, or present but not in the open state, returns without throwing
    and leaves the whole world as it was: nothing is sent, nothing is
    queued on the channel or anywhere else, no state changes. *)
Theorem sendClientEvent_closed_is_noop (event : RealtimeClientEvent) (w : World) :
  (forall dc, dataChannel (connectionRef w) = Some dc ->
     Browser.readyState <$> Browser.channels (browser w) !! dc
       ≠ Some Browser.rs_open) ->
  sendClientEvent event w = Value tt w.
Proof.
  intros Hclosed. unfold_hook.
  destruct (dataChannel (connectionRef w)) as [dc|]; [|reflexivity].
  unfold is_open. rewrite bool_decide_eq_false_2; [reflexivity|].
  by apply Hclosed.
Qed.

(** On the channel the session negotiation created, before it opens. *)
Lemma sendClientEvent_closed_is_noop_witness :
  (forall dc,
     dataChannel (connectionRef (connect_from_mount (all_succeed credential)))
       = Some dc ->
     Browser.readyState
       <$> Browser.channels (browser (connect_from_mount (all_succeed credential))) !! dc
       ≠ Some Browser.rs_open)
  /\ dataChannel (connectionRef (connect_from_mount (all_succeed credential)))
     = Some 3
  /\ sendClientEvent response_create (connect_from_mount (all_succeed credential))
     = Value tt (connect_from_mount (all_succeed credential)).
Proof.
  assert (H : forall dc,
     dataChannel (connectionRef (connect_from_mount (all_succeed credential)))
       = Some dc ->
     Browser.readyState
       <$> Browser.channels (browser (connect_from_mount (all_succeed credential))) !! dc
       ≠ Some Browser.rs_open).
  { intros dc Hdc. vm_compute in Hdc. injection Hdc as <-. vm_compute.
    discriminate. }
  split; [exact H|]. split; [reflexivity|].
  exact (sendClientEvent_closed_is_noop response_create
           (connect_from_mount (all_succeed credential)) H).
Defined.

(** C10: [sendMessage], called while the connection's [connected] flag is
    false, returns without throwing after a console warning: no event is put
    on the side-channel (no browser object changes), and the Voice Interface
    State, its history included, is what it was. *)
Theorem sendMessage_disconnected_is_noop (message : string) (w : World) :
  connected (connectionRef w) = false ->
  sendMessage message w
    = Value tt (with_console
        (fun l => l ++ [console_warn "Not connected, cannot send message"]) w)
  /\ (forall w', sendMessage message w = Value tt w' ->
        state w' = state w
        /\ conversationHistory (state w') = conversationHistory (state w)
        /\ browser w' = browser w
        /\ connectionRef w' = connectionRef w
        /\ notified w' = notified w).
Proof.
  intros Hc.
  assert (E : sendMessage message w
    = Value tt (with_console
        (fun l => l ++ [console_warn "Not connected, cannot send message"]) w)).
  { unfold_hook. rewrite Hc. reflexivity. }
  split; [exact E|].
  intros w' Hw'. rewrite E in Hw'. injection Hw' as <-. by cbn.
Qed.

Lemma sendMessage_disconnected_is_noop_witness :
  connected (connectionRef (mount every_callback)) = false
  /\ sendMessage "Will I get the job?" (mount every_callback)
     = Value tt (with_console
         (fun l => l ++ [console_warn "Not connected, cannot send message"])
         (mount every_callback)).
Proof.
  split; [reflexivity|].
  exact (proj1 (sendMessage_disconnected_is_noop "Will I get the job?"
                  (mount every_callback) eq_refl)).
Defined.

(** The same call on an open session does send and does append. *)
Example sendMessage_connected :
  exists w', sendMessage "Will I get the job?" session = Value tt w'
    /\ conversationHistory (state w') = [a_user_item "Will I get the job?"]
    /\ Browser.sent <$> Browser.channels (browser w') !! 3
       = Some [ session_update (initial_session credential);
                conversation_item_create (a_user_item "Will I get the job?");
                response_create ].
Proof. eexists. vm_compute. repeat split. Qed.

(** ** Inbound events *)

(** C9: [isListening] and [isSpeaking] are independent: after
    [response.created] followed by [input_audio_buffer.speech_started] both
    are true, and on every state neither handler changes the other's flag:
    [response.created] raises [isSpeaking] and leaves [isListening] as it
    was, [input_audio_buffer.speech_started] raises [isListening] and
    leaves [isSpeaking] as it was.  The same holds of the two events that
    lower the flags. *)
Theorem listening_speaking_independent (r : RealtimeResponse) (w : World) :
  (exists w1 w2,
     handleServerEvent (response_created r) w = Value tt w1
     /\ handleServerEvent input_audio_buffer_speech_started w1 = Value tt w2
     /\ isSpeaking (state w2) = true
     /\ isListening (state w2) = true
     /\ isListening (state w1) = isListening (state w)
     /\ isSpeaking (state w2) = isSpeaking (state w1))
  /\ (exists w', handleServerEvent (response_created r) w = Value tt w'
        /\ isSpeaking (state w') = true
        /\ isListening (state w') = isListening (state w))
  /\ (exists w', handleServerEvent input_audio_buffer_speech_started w = Value tt w'
        /\ isListening (state w') = true
        /\ isSpeaking (state w') = isSpeaking (state w))
  /\ (exists w', handleServerEvent input_audio_buffer_speech_stopped w = Value tt w'
        /\ isListening (state w') = false
        /\ isSpeaking (state w') = isSpeaking (state w))
  /\ (exists w', handleServerEvent (response_done r) w = Value tt w'
        /\ isSpeaking (state w') = false
        /\ isListening (state w') = isListening (state w)).
Proof.
  split; [|split; [|split; [|split]]].
  - unfold_hook. do 2 eexists. split; [reflexivity|]. cbn.
    split; [reflexivity|]. by cbn.
  - unfold_hook. eexists. split; [reflexivity|]. by cbn.
  - unfold_hook. eexists. split; [reflexivity|]. by cbn.
  - unfold_hook. eexists. split; [reflexivity|]. by cbn.
  - unfold_hook. destruct (truthy _); eexists; (split; [reflexivity|]); by cbn.
Qed.

Lemma or_else_empty (s : option string) : or_else s "" = default "" s.
Proof.
  destruct s as [s|]; [|reflexivity]. unfold or_else, truthy.
  case_bool_decide; cbn; congruence.
Qed.

Lemma handleServerEvents_step event events w w1 :
  handleServerEvent event w = Value tt w1 ->
  handleServerEvents (event :: events) w = handleServerEvents events w1.
Proof.
  intros E. cbn [handleServerEvents]. unfold mbind, M_bind. by rewrite E.
Qed.

Lemma scenario_on_any_state s A r w :
  exists w',
    handleServerEvents (scenario s A r) w = Value tt w'
    /\ state w' =
         {| isListening := isListening (state w);
            isConnected := isConnected (state w);
            isConnecting := isConnecting (state w);
            isSpeaking := false;
            hasPermission := hasPermission (state w);
            error := error (state w);
            currentResponse :=
              Some ((default "" (currentResponse (state w)) +:+ "Hel") +:+ "lo");
            conversationHistory := conversationHistory (state w) ++ [A] |}
    /\ notified w' =
         if onResponseReceived (options w)
         then notified w ++ [response_received "Hello"] else notified w.
Proof.
  unfold scenario.
  do 6 (erewrite handleServerEvents_step; [|unfold_hook; reflexivity]).
  eexists. split; [reflexivity|]. cbn. rewrite !or_else_empty. by cbn.
Qed.

(** C8: on a connected session, the inbound sequence [session.created],
    [conversation.item.created{A}], [response.created],
    [response.text.delta{"Hel"}], [response.text.delta{"lo"}],
    [response.done] with an assistant item saying "Hello" leaves
    [isConnected] true, [isSpeaking] false, the history [[A]], no error, the
    deltas accumulated in order in [currentResponse], and the
    response-received notification fired exactly once, with "Hello".  First
    end to end, from [connect] with the scenario's credential through the
    messages arriving on the open channel; then for the handler on any
    state. *)
Theorem end_to_end_scenario (s : RealtimeSession) (A : ConversationItem) (r : RealtimeResponse) :
  (exists w',
     messages_arrive 3 (scenario s A r) session = Value tt w'
     /\ state w' =
          {| isListening := false; isConnected := true; isConnecting := false;
             isSpeaking := false; hasPermission := true; error := None;
             currentResponse := Some "Hello"; conversationHistory := [A] |}
     /\ notified w' = [connected_notification; response_received "Hello"]
     /\ textContent (assistant_says "Hello") = Some "Hello")
  /\ (forall w, exists w',
        handleServerEvents (scenario s A r) w = Value tt w'
        /\ isConnected (state w') = isConnected (state w)
        /\ isSpeaking (state w') = false
        /\ conversationHistory (state w') = conversationHistory (state w) ++ [A]
        /\ error (state w') = error (state w)
        /\ currentResponse (state w')
           = Some ((default "" (currentResponse (state w)) +:+ "Hel") +:+ "lo")
        /\ notified w' =
             if onResponseReceived (options w)
             then notified w ++ [response_received "Hello"] else notified w).
Proof.
  split.
  - eexists. vm_compute. repeat split.
  - intros w. destruct (scenario_on_any_state s A r w) as (w' & E & Hs & Hn).
    exists w'. rewrite Hs, Hn. by cbn.
Qed.

(** ** [connect] *)

Lemma connect_guard w :
  connecting (connectionRef w) || connected (connectionRef w) = true ->
  connect w = Value tt w.
Proof.
  intros Hbusy. unfold connect, mbind, M_bind, get. cbn [res_bind].
  by rewrite Hbusy.
Qed.

Lemma connect_idle w :
  connecting (connectionRef w) || connected (connectionRef w) = false ->
  connect w = try_catch connect_attempt connect_failed w.
Proof.
  intros Hidle. unfold connect, mbind, M_bind, get. cbn [res_bind].
  by rewrite Hidle.
Qed.

Lemma connect_failed_returns e w :
  connect_failed e w = Value tt (failure_recorded e w).
Proof. reflexivity. Qed.

(** A run of [connect] from an idle connection is the run of its [try]
    block, with the [catch] block applied to what it throws: [connect]
    itself never throws. *)
Lemma run_connect o w :
  connecting (connectionRef w) || connected (connectionRef w) = false ->
  run o (connect w) =
  match run o (connect_attempt w) with
  | (Returned a w1, t) => (Returned a w1, t)
  | (Threw e w2, t) => (Returned tt (failure_recorded e w2), t)
  end.
Proof.
  intros Hidle. rewrite (connect_idle w Hidle). unfold try_catch.
  rewrite run_catch. destruct (run o (connect_attempt w)) as [[a w1|e w2] t];
    [reflexivity|].
  rewrite connect_failed_returns. cbn [run]. by rewrite app_nil_r.
Qed.

(** Closes a goal about the final world or the trace of one path. *)
Ltac leaf := cbn; repeat first [done | constructor].

(** While an attempt is in flight the [connecting] flag is up: in every
    world in which [connect] makes a call, so in every world in which it is
    suspended. *)
Lemma connect_in_flight o w :
  connecting (connectionRef w) || connected (connectionRef w) = false ->
  Forall (fun cw => connecting (connectionRef cw.2) = true)
         (snd (run o (connect w))).
Proof.
  intros Hidle. rewrite (run_connect o w Hidle).
  apply (wp_run o connect_attempt w
    (fun p => Forall _ (snd match p with
                            | (Returned a w1, t) => (Returned a w1, t)
                            | (Threw e w2, t) => (Returned tt (failure_recorded e w2), t)
                            end))).
  wp_run. all: leaf.
Qed.

(** C4, as the code has it: calling [connect] while the connection is
    connecting or connected returns at once, on the same world: it makes no
    call at all (no credential fetch, no peer connection, no negotiation).
    That covers every world in which an earlier [connect], run with nothing
    in between, is suspended at an [await]: a second attempt started there
    goes nowhere. *)
Theorem connect_while_busy_is_noop (w : World) :
  (connecting (connectionRef w) || connected (connectionRef w) = true
   \/ exists o w0,
        connecting (connectionRef w0) || connected (connectionRef w0) = false
        /\ w ∈ suspended (snd (run o (connect w0)))) ->
  connect w = Value tt w
  /\ forall o, run o (connect w) = (Returned tt w, []).
Proof.
  intros Hbusy.
  assert (E : connect w = Value tt w).
  { apply connect_guard. destruct Hbusy as [Hbusy|(o & w0 & Hidle & Hin)];
      [exact Hbusy|].
    pose proof (connect_in_flight o w0 Hidle) as Hall.
    unfold suspended in Hin. apply list_elem_of_fmap in Hin as ([c w'] & -> & Hin).
    apply list_elem_of_filter in Hin as [_ Hin].
    rewrite Forall_forall in Hall. specialize (Hall _ Hin). cbn in Hall.
    cbn. by rewrite Hall. }
  split; [exact E|]. intros o. by rewrite E.
Qed.

Lemma connect_while_busy_is_noop_witness :
  connecting (connectionRef session) || connected (connectionRef session) = true
  /\ connect session = Value tt session.
Proof.
  split; [reflexivity|].
  exact (proj1 (connect_while_busy_is_noop session (or_introl eq_refl))).
Defined.

(** C4 as stated fails in its conclusion: the guard does not keep two
    attempts from both reaching negotiation.  [disconnect], called while
    the first attempt waits for the credential, lowers the flag without
    cancelling the attempt; a second [connect] then runs, posts its offer
    and applies its answer, and the first attempt, resumed, posts an offer
    and applies an answer of its own, on a second peer connection. *)
Lemma disconnect_lets_a_second_attempt_negotiate :
  let o := all_succeed credential in
  let offer := fetch (baseUrl +:+ "?model=m1")
                 {| method := "POST";
                    headers := [("Authorization", "Bearer tok");
                                ("Content-Type", "application/sdp")];
                    body := "v=0 offer" |} in
  let w0 := with_connectionRef (set_connecting true)
              (with_state (fun prev => set_error None (set_isConnecting true prev))
                 (mount every_callback)) in
  let second_attempt := fun w => final (fst (run o (connect (torn_down w)))) in
  head (suspended (snd (run o (connect (mount every_callback))))) = Some w0
  /\ connecting (connectionRef w0) = true
  /\ disconnect w0 = Value tt (torn_down w0)
  /\ connecting (connectionRef (torn_down w0)) = false
  /\ offer ∈ calls (snd (run o (connect (torn_down w0))))
  /\ setRemoteDescription 0 "v=0 answer"
     ∈ calls (snd (run o (connect (torn_down w0))))
  /\ offer ∈ calls (snd (interrupted o second_attempt (connect (mount every_callback))))
  /\ setRemoteDescription 4 "v=0 answer"
     ∈ calls (snd (interrupted o second_attempt (connect (mount every_callback)))).
Proof.
  intros o offer w0 second_attempt.
  split; [vm_compute; reflexivity|].
  split; [reflexivity|]. split; [apply disconnect_returns|].
  split; [reflexivity|].
  split; [vm_compute; repeat constructor|].
  split; [vm_compute; repeat constructor|].
  split; [vm_compute; repeat constructor|].
  vm_compute; repeat constructor.
Qed.

(** [connect] on the mounted hook stops at the token request, with the
    flag already up: calling it again there returns at once. *)
Example connect_suspends_at_the_token_request :
  exists w1 k,
    connect (mount every_callback) = Ext token_request w1 k
    /\ connecting (connectionRef w1) = true
    /\ isConnecting (state w1) = true
    /\ connect w1 = Value tt w1.
Proof. do 2 eexists. split; [reflexivity|]. by repeat split. Qed.

(** The worlds in which a successful attempt from the mounted hook is
    suspended; in the second of them, say, a second [connect] is a
    no-op. *)
Example connect_twice :
  length (suspended (snd (run (all_succeed credential) (connect (mount every_callback))))) = 9
  /\ forall w, suspended (snd (run (all_succeed credential) (connect (mount every_callback)))) !! 1 = Some w ->
       connect w = Value tt w.
Proof.
  split; [by vm_compute|]. intros w Hw. apply connect_guard.
  vm_compute in Hw. injection Hw as <-. reflexivity.
Qed.

(** ** Credential acquisition *)

(** Brings together what is known of the oracle's answers on a path, and
    closes the path when two facts contradict each other. *)
Ltac oracle_facts :=
  repeat match goal with
         | H : _ /\ _ |- _ => destruct H
         | H : exists _, _ |- _ => destruct H
         | H : _ \/ _ |- _ => destruct H
         | H : negb _ = true |- _ => apply negb_true_iff in H
         | H : negb _ = false |- _ => apply negb_false_iff in H
         | H1 : ?o ?c = _, H2 : ?o ?c = _ |- _ => rewrite H1 in H2
         | H : Fulfilled _ = Rejected _ |- _ => discriminate H
         | H : Rejected _ = Fulfilled _ |- _ => discriminate H
         | H : Fulfilled _ = Fulfilled _ |- _ => injection H as H; subst
         | H : Rejected _ = Rejected _ |- _ => injection H as H; subst
         | H1 : ?b = true, H2 : ?b = false |- _ =>
             rewrite H1 in H2; discriminate H2
         | H : true = false |- _ => discriminate H
         | H : false = true |- _ => discriminate H
         end.

(** The run of [getEphemeralToken], in closed form. *)
Lemma run_getEphemeralToken o w :
  run o (getEphemeralToken w) =
  match o token_request with
  | Rejected e => (Threw e w, [(token_request, w)])
  | Fulfilled r =>
      (match o (response_json r) with
       | Rejected e => Threw e w
       | Fulfilled body =>
           if ok r then Returned body w
           else Threw (Error (or_else (body_error body)
                                "Failed to get ephemeral token")) w
       end,
       [(token_request, w); (response_json r, w)])
  end.
Proof.
  apply (wp_run o getEphemeralToken w (fun p => p = _)).
  wp_run; cbn;
    repeat match goal with
           | H : negb _ = true |- _ => apply negb_true_iff in H
           | H : negb _ = false |- _ => apply negb_false_iff in H
           | H : _ = _ |- _ => rewrite H
           end; reflexivity.
Qed.

(** C3, as the code has it: credential acquisition fails exactly when the
    token request is rejected, the backend answers with a non-success
    status, or the body of the answer cannot be read.  What it throws is
    the rejection itself when the request is rejected or the body cannot be
    read, and a plain [Error] carrying the backend's [error] text, or
    'Failed to get ephemeral token' when the body has none, when the status
    is not a success.  A success answer is returned as it is, whether or not
    it has the secret field.  One request is made and at most one body is
    read (no retry), and the world is not touched.  When acquisition fails
    inside [connect], [connect] makes no further call (no peer connection,
    no negotiation) and records the message of what was thrown. *)
Theorem credential_acquisition (o : Oracle) (w : World) :
  (returned (fst (run o (getEphemeralToken w))) = false <->
     (exists e, o token_request = Rejected e)
     \/ exists r, o token_request = Fulfilled r
          /\ (ok r = false \/ exists e, o (response_json r) = Rejected e))
  /\ (forall r body, o token_request = Fulfilled r -> ok r = true ->
        o (response_json r) = Fulfilled body ->
        run o (getEphemeralToken w)
        = (Returned body w, [(token_request, w); (response_json r, w)]))
  /\ (forall r body, o token_request = Fulfilled r -> ok r = false ->
        o (response_json r) = Fulfilled body ->
        fst (run o (getEphemeralToken w))
        = Threw (Error (or_else (body_error body) "Failed to get ephemeral token")) w)
  /\ (forall e, o token_request = Rejected e ->
        run o (getEphemeralToken w) = (Threw e w, [(token_request, w)]))
  /\ (forall r e, o token_request = Fulfilled r ->
        o (response_json r) = Rejected e ->
        run o (getEphemeralToken w)
        = (Threw e w, [(token_request, w); (response_json r, w)]))
  /\ (calls (snd (run o (getEphemeralToken w))) = [token_request]
      \/ exists r, calls (snd (run o (getEphemeralToken w)))
                   = [token_request; response_json r])
  /\ final (fst (run o (getEphemeralToken w))) = w
  /\ (connecting (connectionRef w) || connected (connectionRef w) = false ->
      forall e w1 t, run o (getEphemeralToken w) = (Threw e w1, t) ->
      exists w' t',
        run o (connect w) = (Returned tt w', t')
        /\ calls t' = calls t
        /\ error (state w') = Some (message_of e)
        /\ isConnecting (state w') = false
        /\ isConnected (state w') = false
        /\ connectionRef w'
           = set_connected false (set_connecting false (connectionRef w))
        /\ browser w' = browser w
        /\ notified w' =
             if onError (options w)
             then notified w ++ [error_notification (message_of e)]
             else notified w).
Proof.
  rewrite run_getEphemeralToken.
  split; [|split; [|split; [|split; [|split; [|split; [|split]]]]]].
  - destruct (o token_request) as [r|e] eqn:Hr; cbn.
    + destruct (o (response_json r)) as [body|e] eqn:Hbody; cbn.
      * destruct (ok r) eqn:Hok; cbn; (split; intros ?); oracle_facts; try done.
        right. exists r. split; [done|by left].
      * split; [intros _|done]. right. exists r. split; [done|right; by exists e].
    + split; [intros _|done]. left. by exists e.
  - intros r body -> Hok ->. by rewrite Hok.
  - intros r body -> Hok ->. by rewrite Hok.
  - by intros e ->.
  - by intros r e -> ->.
  - destruct (o token_request) as [r|e]; cbn; [right; by exists r|by left].
  - destruct (o token_request) as [r|e]; cbn; [|done].
    destruct (o (response_json r)) as [body|e]; cbn; [|done]. by destruct (ok r).
  - intros Hidle e w1 t Htoken. rewrite (run_connect o w Hidle).
    apply (wp_run o connect_attempt w
      (fun p => exists w' t',
         match p with
         | (Returned a w1, t) => (Returned a w1, t)
         | (Threw e w2, t) => (Returned tt (failure_recorded e w2), t)
         end = (Returned tt w', t') /\ _)).
    wp_run;
      repeat match goal with
             | H : negb _ = true |- _ => apply negb_true_iff in H
             | H : negb _ = false |- _ => apply negb_false_iff in H
             end;
      repeat match goal with
             | H : o token_request = _ |- _ => rewrite H in Htoken; clear H
             | H : o (response_json _) = _ |- _ => rewrite H in Htoken; clear H
             | H : ok _ = _ |- _ => rewrite H in Htoken; clear H
             end;
      cbn in Htoken; try discriminate Htoken;
      injection Htoken as <- <- <-;
      do 2 eexists; (split; [reflexivity|]); by cbn.
Qed.

Lemma credential_acquisition_witness :
  connecting (connectionRef (mount every_callback))
    || connected (connectionRef (mount every_callback)) = false
  /\ exists w' t',
       run backend_down (connect (mount every_callback)) = (Returned tt w', t')
       /\ calls t' = [token_request; response_json {| ok := false; status := 500 |}]
       /\ error (state w') = Some "Internal server error"
       /\ isConnecting (state w') = false.
Proof.
  split; [reflexivity|].
  destruct (proj2 (proj2 (proj2 (proj2 (proj2 (proj2 (proj2
              (credential_acquisition backend_down (mount every_callback))))))))
              eq_refl (Error "Internal server error") (mount every_callback)
              [(token_request, mount every_callback);
               (response_json {| ok := false; status := 500 |}, mount every_callback)]
              eq_refl)
    as (w' & t' & Hrun & Hcalls & Herror & Hconnecting & _).
  exists w', t'. split; [exact Hrun|]. split; [exact Hcalls|].
  split; [exact Herror|exact Hconnecting].
Defined.

(** C3 as stated fails: a 200 answer whose body lacks the secret is not an
    acquisition failure, and [connect] goes on to build the peer connection
    and to post the offer with the bearer text 'Bearer undefined'. *)
Lemma missing_secret_is_accepted :
  let o := all_succeed no_secret in
  let w := mount every_callback in
  value no_secret = None
  /\ fst (run o (getEphemeralToken w)) = Returned no_secret w
  /\ new_RTCPeerConnection ∈ calls (snd (run o (connect w)))
  /\ fetch (baseUrl +:+ "?model=undefined")
        {| method := "POST";
           headers := [("Authorization", "Bearer undefined");
                       ("Content-Type", "application/sdp")];
           body := "v=0 offer" |} ∈ calls (snd (run o (connect w)))
  /\ error (state (final (fst (run o (connect w))))) = None.
Proof.
  intros o w. vm_compute. repeat split; repeat constructor.
Qed.

(** ** Microphone failure *)

(** Evaluates lookups in the maps of browser objects after the updates of
    one path. *)
Ltac lookups :=
  cbn;
  repeat match goal with
         | |- context [match Browser.first_audio ?t with _ => _ end] =>
             destruct (Browser.first_audio t)
         | |- context [if negb ?b then _ else _] => destruct (negb b)
         end;
  rewrite ?lookup_alter_eq, ?lookup_insert_eq; cbn.

(** C2, as the code has it: when the microphone is refused, [connect]
    returns having made no call after [getUserMedia] (no data channel, no
    offer, no exchange with the remote signaling endpoint);
    [hasPermission] is false, [isConnected] is what it was, the connection
    is not connected and the state's [error] is the microphone message.
    The peer connection and the audio element created before the
    microphone was asked for stay in Connection State, the peer connection
    not closed. *)
Theorem microphone_failure_aborts (o : Oracle) (w : World)
    (r : Response) (body : EphemeralTokenResponse) (e : Thrown) :
  connecting (connectionRef w) || connected (connectionRef w) = false ->
  o token_request = Fulfilled r ->
  ok r = true ->
  o (response_json r) = Fulfilled body ->
  o new_RTCPeerConnection = Fulfilled tt ->
  o getUserMedia = Rejected e ->
  exists w' t,
    run o (connect w) = (Returned tt w', t)
    /\ calls t = [token_request; response_json r; new_RTCPeerConnection; getUserMedia]
    /\ hasPermission (state w') = false
    /\ isConnected (state w') = isConnected (state w)
    /\ connected (connectionRef w') = false
    /\ error (state w') = Some "Microphone permission denied or not available"
    /\ peerConnection (connectionRef w') = Some (Browser.next_ref (browser w))
    /\ Browser.closed <$> Browser.pcs (browser w') !! Browser.next_ref (browser w)
       = Some false
    /\ audioElement (connectionRef w') = Some (S (Browser.next_ref (browser w)))
    /\ dataChannel (connectionRef w') = dataChannel (connectionRef w)
    /\ localStream (connectionRef w') = localStream (connectionRef w)
    /\ Browser.channels (browser w') = Browser.channels (browser w)
    /\ Browser.streams (browser w') = Browser.streams (browser w).
Proof.
  intros Hidle Hr Hok Hbody Hpc Hmic. rewrite (run_connect o w Hidle).
  apply orb_false_elim in Hidle as [_ Hconnected].
  apply (wp_run o connect_attempt w
    (fun p => exists w' t,
       match p with
       | (Returned a w1, t) => (Returned a w1, t)
       | (Threw e w2, t) => (Returned tt (failure_recorded e w2), t)
       end = (Returned tt w', t) /\ _)).
  wp_run; oracle_facts.
  do 2 eexists. split; [reflexivity|]. cbn.
  repeat (split; [done|]). split; [by lookups|done].
Qed.

Lemma microphone_failure_aborts_witness :
  connecting (connectionRef (mount every_callback))
    || connected (connectionRef (mount every_callback)) = false
  /\ microphone_denied token_request = Fulfilled {| ok := true; status := 200 |}
  /\ microphone_denied (response_json {| ok := true; status := 200 |})
     = Fulfilled credential
  /\ microphone_denied new_RTCPeerConnection = Fulfilled tt
  /\ microphone_denied getUserMedia = Rejected (Error "NotAllowedError")
  /\ exists w' t,
       run microphone_denied (connect (mount every_callback)) = (Returned tt w', t)
       /\ calls t = [token_request; response_json {| ok := true; status := 200 |};
                     new_RTCPeerConnection; getUserMedia]
       /\ hasPermission (state w') = false
       /\ peerConnection (connectionRef w') = Some 0.
Proof.
  repeat (split; [reflexivity|]).
  destruct (microphone_failure_aborts microphone_denied (mount every_callback)
              {| ok := true; status := 200 |} credential
              (Error "NotAllowedError")
              eq_refl eq_refl eq_refl eq_refl eq_refl eq_refl)
    as (w' & t & Hrun & Hcalls & Hperm & _ & _ & _ & Hpc & _).
  exists w', t. split; [exact Hrun|]. split; [exact Hcalls|].
  split; [exact Hperm|exact Hpc].
Defined.

(** C2 as stated fails on two counts: after the refusal the [connecting]
    flag and [isConnecting] are still up when [connect] has returned, with
    no channel whose opening could lower them, and the peer connection is
    still in Connection State, not closed. *)
Lemma microphone_denied_stays_connecting :
  let w' := connect_from_mount microphone_denied in
  returned (fst (run microphone_denied (connect (mount every_callback)))) = true
  /\ connecting (connectionRef w') = true
  /\ isConnecting (state w') = true
  /\ dataChannel (connectionRef w') = None
  /\ Browser.channels (browser w') = ∅
  /\ peerConnection (connectionRef w') = Some 0
  /\ Browser.closed <$> Browser.pcs (browser w') !! 0 = Some false
  /\ connect w' = Value tt w'.
Proof. vm_compute. repeat split. Qed.

(** ** Failures on the connect path *)

(** What [disconnect] does to the objects Connection State holds. *)
Lemma torn_down_releases w :
  (forall dc, dataChannel (connectionRef w) = Some dc ->
     Browser.channels (browser (torn_down w)) !! dc
     = Browser.close_channel <$> Browser.channels (browser w) !! dc)
  /\ (forall pc, peerConnection (connectionRef w) = Some pc ->
        Browser.pcs (browser (torn_down w)) !! pc
        = Browser.close_pc <$> Browser.pcs (browser w) !! pc)
  /\ (forall s, localStream (connectionRef w) = Some s ->
        Browser.streams (browser (torn_down w)) !! s
        = map Browser.stop_track <$> Browser.streams (browser w) !! s)
  /\ (forall a, audioElement (connectionRef w) = Some a ->
        Browser.audios (browser (torn_down w)) !! a
        = Browser.set_srcObject None <$> Browser.audios (browser w) !! a).
Proof.
  unfold torn_down, release. cbn.
  destruct (dataChannel (connectionRef w)) as [dc0|],
           (peerConnection (connectionRef w)) as [pc0|],
           (localStream (connectionRef w)) as [s0|],
           (audioElement (connectionRef w)) as [a0|]; cbn.
  all: repeat split; intros ? [= <-]; by rewrite lookup_alter_eq.
Qed.

(** C1, as the code has it: a failure that reaches the top-level handler of
    [connect] (credential fetch, peer-connection construction, negotiation,
    remote description) ends [connect] without an exception, with
    [connecting] and [connected] false, [isConnecting] and [isConnected]
    false, the error message in the state and in the error notification.
    The teardown procedure is not run: either nothing had been acquired
    yet, or what had been acquired is still held, unreleased, when
    [connect] returns.  [disconnect], called on the state [connect] left,
    closes the channel and the peer connection it holds, stops the tracks
    of the stream it holds, detaches the sink it holds, and resets
    Connection State to the baseline. *)
Theorem connect_failure_is_recorded (o : Oracle) (w : World) :
  connecting (connectionRef w) || connected (connectionRef w) = false ->
  exists w' t,
    run o (connect w) = (Returned tt w', t)
    /\ (forall e w2 t2,
          run o (connect_attempt w) = (Threw e w2, t2) ->
          connected (connectionRef w') = false
          /\ connecting (connectionRef w') = false
          /\ isConnected (state w') = false
          /\ isConnecting (state w') = false
          /\ error (state w') = Some (message_of e)
          /\ notified w' =
               (if onError (options w)
                then notified w ++ [error_notification (message_of e)]
                else notified w)
          /\ (nothing_acquired w w' \/ still_held o w w'))
    /\ exists w'',
         disconnect w' = Value tt w''
         /\ connectionRef w'' = baseline
         /\ (forall dc, dataChannel (connectionRef w') = Some dc ->
               Browser.channels (browser w'') !! dc
               = Browser.close_channel <$> Browser.channels (browser w') !! dc)
         /\ (forall pc, peerConnection (connectionRef w') = Some pc ->
               Browser.pcs (browser w'') !! pc
               = Browser.close_pc <$> Browser.pcs (browser w') !! pc)
         /\ (forall s, localStream (connectionRef w') = Some s ->
               Browser.streams (browser w'') !! s
               = map Browser.stop_track <$> Browser.streams (browser w') !! s)
         /\ (forall a, audioElement (connectionRef w') = Some a ->
               Browser.audios (browser w'') !! a
               = Browser.set_srcObject None <$> Browser.audios (browser w') !! a).
Proof.
  intros Hidle.
  assert (H : exists w' t,
    run o (connect w) = (Returned tt w', t)
    /\ forall e w2 t2,
         run o (connect_attempt w) = (Threw e w2, t2) ->
         connected (connectionRef w') = false
         /\ connecting (connectionRef w') = false
         /\ isConnected (state w') = false
         /\ isConnecting (state w') = false
         /\ error (state w') = Some (message_of e)
         /\ notified w' =
              (if onError (options w)
               then notified w ++ [error_notification (message_of e)]
               else notified w)
         /\ (nothing_acquired w w' \/ still_held o w w')).
  { rewrite (run_connect o w Hidle).
    apply (wp_run o connect_attempt w
      (fun p => exists w' t,
         match p with
         | (Returned a w1, t) => (Returned a w1, t)
         | (Threw e w2, t) => (Returned tt (failure_recorded e w2), t)
         end = (Returned tt w', t)
         /\ forall e w2 t2, p = (Threw e w2, t2) -> _)).
    wp_run; do 2 eexists; (split; [reflexivity|]); intros e' w2 t2 Heq;
      try discriminate Heq; injection Heq as <- <- <-; cbn;
      repeat (split; [done|]).
    all: first
      [ left; by repeat split
      | right; eexists; split; [eassumption|]; cbn;
        repeat (split; [done|]);
        split; [by lookups|];
        split; [by lookups|];
        first [left; reflexivity | right; split; [reflexivity|by lookups]] ]. }
  destruct H as (w' & t & Hrun & Hfail).
  exists w', t. split; [exact Hrun|]. split; [exact Hfail|].
  exists (torn_down w'). split; [apply disconnect_returns|].
  split; [reflexivity|]. apply torn_down_releases.
Qed.

Lemma connect_failure_is_recorded_witness :
  connecting (connectionRef (mount every_callback))
    || connected (connectionRef (mount every_callback)) = false
  /\ exists w' t,
       run offer_refused (connect (mount every_callback)) = (Returned tt w', t)
       /\ error (state w') = Some "Failed to connect to OpenAI: 401 - invalid token"
       /\ connecting (connectionRef w') = false
       /\ connected (connectionRef w') = false.
Proof.
  split; [reflexivity|].
  destruct (connect_failure_is_recorded offer_refused (mount every_callback) eq_refl)
    as (w' & t & Hrun & Hfail & _).
  exists w', t. split; [exact Hrun|].
  destruct (Hfail (Error "Failed to connect to OpenAI: 401 - invalid token")
              (final (fst (run offer_refused (connect_attempt (mount every_callback)))))
              (snd (run offer_refused (connect_attempt (mount every_callback)))))
    as (Hconnected & Hconnecting & _ & _ & Herror & _).
  { by vm_compute. }
  split; [exact Herror|]. split; [exact Hconnecting|exact Hconnected].
Defined.

(** C1 as stated fails: after the remote endpoint refuses the offer,
    [connect] has returned and Connection State is not the baseline: it
    still holds the peer connection, not closed, the microphone stream, its
    track not stopped, and the side-channel, not closed. *)
Lemma refused_offer_leaks :
  let w' := connect_from_mount offer_refused in
  returned (fst (run offer_refused (connect (mount every_callback)))) = true
  /\ connectionRef w' ≠ baseline
  /\ peerConnection (connectionRef w') = Some 0
  /\ Browser.closed <$> Browser.pcs (browser w') !! 0 = Some false
  /\ localStream (connectionRef w') = Some 2
  /\ Browser.streams (browser w') !! 2 = Some microphone
  /\ dataChannel (connectionRef w') = Some 3
  /\ Browser.readyState <$> Browser.channels (browser w') !! 3
     = Some Browser.rs_connecting
  /\ (forall w'', disconnect w' = Value tt w'' ->
        connectionRef w'' = baseline
        /\ Browser.closed <$> Browser.pcs (browser w'') !! 0 = Some true).
Proof.
  intros w'. repeat (split; [by vm_compute|]).
  intros w'' Hw''. rewrite disconnect_returns in Hw''. injection Hw'' as <-.
  by vm_compute.
Qed.

(** ** Teardown *)

(** C7: teardown is total and idempotent.  [disconnect] returns on every
    world, leaving the baseline Connection State; run again on what it left,
    it returns again and changes nothing of Connection State, of the
    browser objects or of the Voice Interface State: only the disconnected
    notification fires once more.  On a Connection State that is already
    the baseline it touches no browser object. *)
Theorem teardown_idempotent (w : World) :
  (exists w1 w2,
     disconnect w = Value tt w1
     /\ disconnect w1 = Value tt w2
     /\ connectionRef w1 = baseline
     /\ connectionRef w2 = connectionRef w1
     /\ browser w2 = browser w1
     /\ state w2 = state w1
     /\ autoConnectAttemptedRef w2 = autoConnectAttemptedRef w1
     /\ isMutedRef w2 = isMutedRef w1
     /\ console w2 = console w1
     /\ notified w2 =
          if onDisconnected (options w)
          then notified w1 ++ [disconnected_notification] else notified w1)
  /\ (connectionRef w = baseline ->
      exists w1, disconnect w = Value tt w1
        /\ connectionRef w1 = baseline
        /\ browser w1 = browser w).
Proof.
  split.
  - exists (torn_down w), (torn_down (torn_down w)).
    rewrite !disconnect_returns. by repeat split.
  - intros Hbase. exists (torn_down w). rewrite disconnect_returns.
    split; [reflexivity|]. split; [reflexivity|]. cbn. by rewrite Hbase.
Qed.

Lemma teardown_idempotent_witness :
  connectionRef (mount every_callback) = baseline
  /\ exists w1, disconnect (mount every_callback) = Value tt w1
       /\ connectionRef w1 = baseline
       /\ browser w1 = browser (mount every_callback).
Proof.
  split; [reflexivity|].
  exact (proj2 (teardown_idempotent (mount every_callback)) eq_refl).
Defined.

(** On a live session the first teardown closes the channel and the peer
    connection, stops the microphone track and detaches the sink; the
    second finds nothing to do. *)
Example teardown_of_session :
  Browser.readyState <$> Browser.channels (browser (torn_down session)) !! 3
    = Some Browser.rs_closed
  /\ Browser.closed <$> Browser.pcs (browser (torn_down session)) !! 0 = Some true
  /\ Browser.streams (browser (torn_down session)) !! 2
     = Some (map Browser.stop_track microphone)
  /\ Browser.srcObject <$> Browser.audios (browser (torn_down session)) !! 1
     = Some None
  /\ browser (torn_down (torn_down session)) = browser (torn_down session).
Proof. by vm_compute. Qed.

(** ** The conversation history *)

(** One step of symbolic execution through any operation. *)
Ltac wp_step_any :=
  first
    [ wp_step
    | lazymatch goal with
      | |- wp _ connect _ _ => unfold connect
      | |- wp _ disconnect _ _ => unfold disconnect
      | |- wp _ (sendMessage _) _ _ => unfold sendMessage
      | |- wp _ (sendClientEvent _) _ _ => unfold sendClientEvent
      | |- wp _ toggleMute _ _ => unfold toggleMute
      | |- wp _ clearConversation _ _ => unfold clearConversation
      | |- wp _ (handleServerEvent _) _ _ => unfold handleServerEvent
      | |- wp _ (dc_onopen _) _ _ => unfold dc_onopen
      | |- wp _ (dc_onmessage _) _ _ => unfold dc_onmessage
      | |- wp _ dc_onerror _ _ => unfold dc_onerror
      | |- wp _ dc_onclose _ _ => unfold dc_onclose
      | |- wp _ (pc_ontrack _ _ _) _ _ => unfold pc_ontrack
      | |- wp _ (channel_opens _) _ _ => unfold channel_opens
      | |- wp _ (message_arrives _ _) _ _ => unfold message_arrives
      | |- wp _ (channel_closes _) _ _ => unfold channel_closes
      | |- wp _ (track_arrives _ _ _) _ _ => unfold track_arrives
      end; simpl_world ].

(** No operation but [clearConversation] removes anything from the history:
    the history before is a prefix of the history after. *)
Lemma history_only_grows o op w :
  op ≠ do_clearConversation ->
  conversationHistory (state w)
    `prefix_of` conversationHistory (state (final (fst (run o (perform op w))))).
Proof.
  intros Hop.
  apply (wp_run o (perform op) w
    (fun p => _ `prefix_of` conversationHistory (state (final (fst p))))).
  destruct op; try done; unfold perform.
  all: repeat wp_step_any.
  all: cbn; first [done | by eexists].
Qed.

Lemma clearConversation_returns w :
  clearConversation w
  = Value tt (with_state
      (fun prev => set_currentResponse None (set_conversationHistory [] prev)) w).
Proof. reflexivity. Qed.

Lemma message_arrives_installed dc event w :
  Browser.onmessage <$> Browser.channels (browser w) !! dc = Some true ->
  message_arrives dc (Some event) w = handleServerEvent event w.
Proof.
  intros Hinstalled. unfold message_arrives, mbind, M_bind, get.
  cbn [res_bind]. rewrite bool_decide_eq_true_2 by done.
  unfold dc_onmessage, try_catch.
  destruct (handleServerEvent_returns event w) as (w' & -> & _). reflexivity.
Qed.

Lemma messages_arrive_installed dc events : forall w,
  Browser.onmessage <$> Browser.channels (browser w) !! dc = Some true ->
  messages_arrive dc events w = handleServerEvents events w.
Proof.
  induction events as [|event events IH]; intros w Hinstalled; [reflexivity|].
  cbn [messages_arrive handleServerEvents]. unfold mbind, M_bind.
  rewrite (message_arrives_installed dc event w Hinstalled).
  destruct (handleServerEvent_returns event w) as (w' & -> & _ & Hb & _).
  cbn [res_bind]. apply IH. by rewrite Hb.
Qed.

(** C6: [disconnect] resets exactly [isConnected], [isConnecting],
    [isListening], [isSpeaking] and [error]; [hasPermission],
    [currentResponse] and [conversationHistory] are what they were.  Items
    appended by [conversation.item.created] events are all still there, in
    order, after [disconnect]: on any world, and on the session that
    [connect] opened, where the history is then exactly the items received.
    [clearConversation] empties the history, and no other operation removes
    anything from it. *)
Theorem history_survives_disconnect (w : World) (items : list ConversationItem) :
  (exists w', disconnect w = Value tt w'
     /\ state w' =
          {| isListening := false; isConnected := false; isConnecting := false;
             isSpeaking := false; hasPermission := hasPermission (state w);
             error := None; currentResponse := currentResponse (state w);
             conversationHistory := conversationHistory (state w) |})
  /\ (exists w1 w2,
        handleServerEvents (map conversation_item_created items) w = Value tt w1
        /\ disconnect w1 = Value tt w2
        /\ conversationHistory (state w2) = conversationHistory (state w) ++ items)
  /\ (exists w1 w2 w3,
        messages_arrive 3 (map conversation_item_created items) session = Value tt w1
        /\ disconnect w1 = Value tt w2
        /\ conversationHistory (state w2) = items
        /\ length (conversationHistory (state w2)) = length items
        /\ clearConversation w2 = Value tt w3
        /\ conversationHistory (state w3) = [])
  /\ (exists w', clearConversation w = Value tt w'
        /\ conversationHistory (state w') = [])
  /\ (forall o op, op ≠ do_clearConversation ->
        conversationHistory (state w)
          `prefix_of` conversationHistory (state (final (fst (run o (perform op w)))))).
Proof.
  split; [|split; [|split; [|split]]].
  - exists (torn_down w). by rewrite disconnect_returns.
  - destruct (items_created_append items w) as (w1 & E1 & Hs & _).
    exists w1, (torn_down w1). rewrite disconnect_returns.
    split; [exact E1|]. split; [reflexivity|]. cbn. by rewrite Hs.
  - destruct (items_created_append items session) as (w1 & E1 & Hs & _).
    exists w1, (torn_down w1), (with_state
      (fun prev => set_currentResponse None (set_conversationHistory [] prev))
      (torn_down w1)).
    rewrite messages_arrive_installed by (by vm_compute).
    rewrite disconnect_returns, clearConversation_returns.
    split; [exact E1|]. split; [reflexivity|]. cbn. rewrite Hs. by cbn.
  - eexists. by rewrite clearConversation_returns.
  - intros o op Hop. by apply history_only_grows.
Qed.

(** Three items, as in the spec's test. *)
Example three_items_survive :
  exists w1 w2,
    messages_arrive 3
      (map conversation_item_created
         [a_user_item "one"; a_user_item "two"; a_user_item "three"]) session
    = Value tt w1
    /\ disconnect w1 = Value tt w2
    /\ length (conversationHistory (state w2)) = 3
    /\ isConnected (state w2) = false
    /\ hasPermission (state w2) = true.
Proof. do 2 eexists. by vm_compute. Qed.

(** * Further properties *)

(** ** Muting *)

Lemma first_audio_alter_enabled (b : bool) (i : nat) (tracks : list Browser.MediaStreamTrack) :
  Browser.first_audio (alter (Browser.set_enabled b) i tracks)
  = Browser.first_audio tracks.
Proof.
  revert i. induction tracks as [|t tracks IH]; intros i; [done|].
  destruct i as [|i]; cbn.
  - reflexivity.
  - by rewrite IH.
Qed.

Lemma track_identity_alter_enabled (b : bool) (i : nat) (tracks : list Browser.MediaStreamTrack) :
  track_identity <$> alter (Browser.set_enabled b) i tracks
  = track_identity <$> tracks.
Proof.
  revert i. induction tracks as [|t tracks IH]; intros i; [done|].
  destruct i as [|i]; cbn; [done|]. by rewrite IH.
Qed.

(** [toggleMute] in closed form. *)
Lemma toggleMute_returns w :
  toggleMute w =
  Value tt
    match localStream (connectionRef w) with
    | Some s =>
        match Browser.streams (browser w) !! s ≫= Browser.first_audio with
        | Some i =>
            with_browser
              (Browser.with_streams
                 (alter (alter (Browser.set_enabled (negb (negb (isMutedRef w)))) i) s))
              (with_isMutedRef (negb (isMutedRef w)) w)
        | None => w
        end
    | None => w
    end.
Proof.
  unfold toggleMute, mbind, M_bind, get. cbn [res_bind].
  destruct (localStream (connectionRef w)) as [s|]; [|reflexivity].
  destruct (option_bind _ _ _ _); reflexivity.
Qed.

(** One toggle keeps everything but the mute flag and the [enabled] bit of
    tracks. *)
Lemma toggleMute_keeps w :
  exists w', toggleMute w = Value tt w'
    /\ connectionRef w' = connectionRef w
    /\ state w' = state w
    /\ options w' = options w
    /\ notified w' = notified w
    /\ Browser.pcs (browser w') = Browser.pcs (browser w)
    /\ Browser.channels (browser w') = Browser.channels (browser w)
    /\ Browser.audios (browser w') = Browser.audios (browser w)
    /\ forall s, fmap track_identity <$> Browser.streams (browser w') !! s
                 = fmap track_identity <$> Browser.streams (browser w) !! s.
Proof.
  eexists. split; [apply toggleMute_returns|].
  destruct (localStream (connectionRef w)) as [s|]; [|done].
  destruct (Browser.streams (browser w) !! s ≫= Browser.first_audio) as [i|];
    [|done].
  cbn. repeat (split; [done|]). intros s'. rewrite lookup_alter.
  case_decide as Hs; [|done]. subst s'.
  destruct (Browser.streams (browser w) !! s) as [tracks|]; [|done]. cbn.
  by rewrite track_identity_alter_enabled.
Qed.

(** X1: muting only toggles track enablement: after any number of calls of
    [toggleMute], Connection State holds the handles it held, the Voice
    Interface State and the notifications are what they were, no peer
    connection, channel or audio element has been touched, and every stream
    has the tracks it had, of the same kind, none of them stopped. *)
Theorem toggleMute_never_releases (n : nat) (w : World) :
  exists w', times n toggleMute w = Value tt w'
    /\ connectionRef w' = connectionRef w
    /\ state w' = state w
    /\ notified w' = notified w
    /\ Browser.pcs (browser w') = Browser.pcs (browser w)
    /\ Browser.channels (browser w') = Browser.channels (browser w)
    /\ Browser.audios (browser w') = Browser.audios (browser w)
    /\ forall s, fmap track_identity <$> Browser.streams (browser w') !! s
                 = fmap track_identity <$> Browser.streams (browser w) !! s.
Proof.
  revert w. induction n as [|n IH]; intros w.
  - exists w. by repeat split.
  - destruct (toggleMute_keeps w)
      as (w1 & E1 & Hc1 & Hs1 & _ & Hn1 & Hp1 & Hch1 & Ha1 & Ht1).
    destruct (IH w1) as (w' & E & Hc & Hs & Hn & Hp & Hch & Ha & Ht).
    exists w'. cbn [times]. unfold mbind, M_bind. rewrite E1. cbn [res_bind].
    split; [exact E|]. rewrite Hc, Hs, Hn, Hp, Hch, Ha.
    repeat (split; [done|]). intros s. by rewrite Ht.
Qed.

(** X2: when Connection State holds a stream with an audio track, [toggleMute]
    flips the mute flag and leaves the first audio track enabled exactly
    when not muted, whatever the track's state was; the other tracks are
    untouched, and a second call restores the flag. *)
Theorem toggleMute_syncs_track (w : World) (s i : nat) (tracks : list Browser.MediaStreamTrack) :
  localStream (connectionRef w) = Some s ->
  Browser.streams (browser w) !! s = Some tracks ->
  Browser.first_audio tracks = Some i ->
  exists w1 w2 tracks1,
    toggleMute w = Value tt w1
    /\ isMutedRef w1 = negb (isMutedRef w)
    /\ Browser.streams (browser w1) !! s = Some tracks1
    /\ Browser.enabled <$> tracks1 !! i = Some (negb (isMutedRef w1))
    /\ (forall j, j ≠ i -> tracks1 !! j = tracks !! j)
    /\ toggleMute w1 = Value tt w2
    /\ isMutedRef w2 = isMutedRef w
    /\ (Browser.enabled <$>
          (Browser.streams (browser w2) !! s ≫= fun tracks2 => tracks2 !! i))
       = Some (negb (isMutedRef w)).
Proof.
  intros Hs Htracks Hi.
  assert (Hlt : is_Some (tracks !! i)).
  { clear -Hi. revert i Hi. induction tracks as [|t tracks IH]; intros i Hi; [done|].
    cbn in Hi. case_decide; [injection Hi as <-; by eexists|].
    destruct (Browser.first_audio tracks) as [k|] eqn:Hk; [|done].
    injection Hi as <-. by apply IH. }
  destruct Hlt as [t Ht].
  pose (tracks1 := alter (Browser.set_enabled (negb (negb (isMutedRef w)))) i tracks).
  pose (w1 := with_browser
                (Browser.with_streams
                   (alter (alter (Browser.set_enabled (negb (negb (isMutedRef w)))) i) s))
                (with_isMutedRef (negb (isMutedRef w)) w)).
  assert (E1 : toggleMute w = Value tt w1).
  { rewrite toggleMute_returns, Hs, Htracks. cbn. by rewrite Hi. }
  assert (Hs1 : Browser.streams (browser w1) !! s = Some tracks1).
  { unfold w1. cbn. by rewrite lookup_alter_eq, Htracks. }
  assert (Hi1 : Browser.first_audio tracks1 = Some i).
  { unfold tracks1. by rewrite first_audio_alter_enabled. }
  eexists w1, _, tracks1. split; [exact E1|]. split; [done|].
  split; [exact Hs1|]. split.
  { unfold tracks1. rewrite list_lookup_alter_eq, Ht. cbn.
    by rewrite negb_involutive. }
  split.
  { intros j Hj. unfold tracks1. by rewrite list_lookup_alter_ne. }
  rewrite (toggleMute_returns w1).
  assert (Hc1 : localStream (connectionRef w1) = Some s) by exact Hs.
  rewrite Hc1, Hs1. cbn [mbind option_bind]. rewrite Hi1.
  split; [reflexivity|]. split; [cbn; by rewrite negb_involutive|].
  cbn. rewrite lookup_alter_eq, lookup_alter_eq, Htracks. cbn.
  rewrite list_lookup_alter_eq. unfold tracks1.
  rewrite list_lookup_alter_eq, Ht. cbn. by rewrite !negb_involutive.
Qed.

Lemma toggleMute_syncs_track_witness :
  localStream (connectionRef session) = Some 2
  /\ Browser.streams (browser session) !! 2 = Some microphone
  /\ Browser.first_audio microphone = Some 0
  /\ exists w1 tracks1,
       toggleMute session = Value tt w1
       /\ isMutedRef w1 = true
       /\ Browser.streams (browser w1) !! 2 = Some tracks1
       /\ Browser.enabled <$> tracks1 !! 0 = Some false.
Proof.
  assert (H1 : localStream (connectionRef session) = Some 2) by reflexivity.
  assert (H2 : Browser.streams (browser session) !! 2 = Some microphone)
    by (vm_compute; reflexivity).
  assert (H3 : Browser.first_audio microphone = Some 0) by reflexivity.
  repeat (split; [assumption|]).
  destruct (toggleMute_syncs_track session 2 0 microphone H1 H2 H3)
    as (w1 & w2 & tracks1 & E1 & Hm & Hs & He & _).
  exists w1, tracks1. split; [exact E1|]. split; [exact Hm|].
  split; [exact Hs|]. rewrite He, Hm. reflexivity.
Defined.

(** ** What the operations leave alone *)

(** X3: the mute flag is written by [toggleMute] alone: no other call of the
    control surface and no handler changes it, whatever the outside
    answers.  In particular [disconnect] does not clear it and [connect]
    does not read it. *)
Theorem mute_flag_written_by_toggleMute_only (o : Oracle) (op : Operation) (w : World) :
  op ≠ do_toggleMute ->
  isMutedRef (final (fst (run o (perform op w)))) = isMutedRef w.
Proof.
  intros Hop.
  apply (wp_run o (perform op) w
    (fun p => isMutedRef (final (fst p)) = _)).
  destruct op; try done; unfold perform.
  all: repeat wp_step_any.
  all: by cbn.
Qed.

Lemma mute_flag_written_by_toggleMute_only_witness :
  do_disconnect ≠ do_toggleMute
  /\ isMutedRef (final (fst (run (all_succeed credential) (perform do_disconnect session))))
     = isMutedRef session.
Proof.
  split; [done|].
  apply (mute_flag_written_by_toggleMute_only (all_succeed credential) do_disconnect session).
  done.
Defined.

(** ** Teardown releases what is held *)

(** X4: [disconnect] releases every object whose handle Connection State
    holds: the channel is closed, the peer connection is closed, every track
    of the stream is stopped, the audio element has no source.  It touches
    no object whose handle Connection State does not hold. *)
Theorem disconnect_releases_what_is_held (w : World) :
  exists w', disconnect w = Value tt w'
    /\ (forall dc, dataChannel (connectionRef w) = Some dc ->
          Browser.channels (browser w') !! dc
          = Browser.close_channel <$> Browser.channels (browser w) !! dc)
    /\ (forall pc, peerConnection (connectionRef w) = Some pc ->
          Browser.pcs (browser w') !! pc
          = Browser.close_pc <$> Browser.pcs (browser w) !! pc)
    /\ (forall s tracks, localStream (connectionRef w) = Some s ->
          Browser.streams (browser w) !! s = Some tracks ->
          exists tracks', Browser.streams (browser w') !! s = Some tracks'
            /\ length tracks' = length tracks
            /\ Forall (fun t => Browser.stopped t = true) tracks')
    /\ (forall a, audioElement (connectionRef w) = Some a ->
          Browser.audios (browser w') !! a
          = Browser.set_srcObject None <$> Browser.audios (browser w) !! a)
    /\ (forall dc, dataChannel (connectionRef w) ≠ Some dc ->
          Browser.channels (browser w') !! dc = Browser.channels (browser w) !! dc)
    /\ (forall pc, peerConnection (connectionRef w) ≠ Some pc ->
          Browser.pcs (browser w') !! pc = Browser.pcs (browser w) !! pc)
    /\ (forall s, localStream (connectionRef w) ≠ Some s ->
          Browser.streams (browser w') !! s = Browser.streams (browser w) !! s)
    /\ (forall a, audioElement (connectionRef w) ≠ Some a ->
          Browser.audios (browser w') !! a = Browser.audios (browser w) !! a).
Proof.
  exists (torn_down w). split; [apply disconnect_returns|].
  unfold torn_down, release. cbn.
  destruct (dataChannel (connectionRef w)) as [dc0|],
           (peerConnection (connectionRef w)) as [pc0|],
           (localStream (connectionRef w)) as [s0|],
           (audioElement (connectionRef w)) as [a0|]; cbn.
  all: repeat split.
  all: try (intros ? [= <-]; by rewrite lookup_alter_eq).
  all: try (intros ? ? [= <-] Htracks; rewrite lookup_alter_eq, Htracks; cbn;
            eexists; split; [done|]; split; [by rewrite length_map|];
            apply Forall_forall; intros t [t0 [-> _]]%list_elem_of_fmap; done).
  all: try (intros ? Hne; rewrite lookup_alter_ne; [done|congruence]).
  all: try done.
Qed.

(** ** Sequences of inbound events *)

Lemma handleServerEvent_effect event w :
  exists w', handleServerEvent event w = Value tt w'
    /\ conversationHistory (state w')
       = conversationHistory (state w) ++ created_items [event]
    /\ currentResponse (state w')
       = accumulate (currentResponse (state w)) (delta_texts [event])
    /\ isConnected (state w') = isConnected (state w)
    /\ isConnecting (state w') = isConnecting (state w)
    /\ hasPermission (state w') = hasPermission (state w)
    /\ connectionRef w' = connectionRef w
    /\ browser w' = browser w
    /\ options w' = options w
    /\ isMutedRef w' = isMutedRef w
    /\ autoConnectAttemptedRef w' = autoConnectAttemptedRef w.
Proof.
  destruct event; unfold_hook;
    try (eexists; split; [reflexivity|]; cbn; by rewrite ?app_nil_r).
  destruct (truthy _); eexists; (split; [reflexivity|]); cbn;
    by rewrite ?app_nil_r.
Qed.

Lemma created_items_cons event events :
  created_items (event :: events) = created_items [event] ++ created_items events.
Proof. by destruct event. Qed.

Lemma accumulate_cons cur event events :
  accumulate cur (delta_texts (event :: events))
  = accumulate (accumulate cur (delta_texts [event])) (delta_texts events).
Proof. by destruct event. Qed.

Lemma string_app_assoc (a b c : string) : (a +:+ b) +:+ c = a +:+ (b +:+ c).
Proof.
  induction a as [|x a IH]; [done|].
  change (String x ((a +:+ b) +:+ c) = String x (a +:+ (b +:+ c))).
  by rewrite IH.
Qed.

Lemma string_app_empty_r (a : string) : a +:+ "" = a.
Proof.
  induction a as [|x a IH]; [done|].
  change (String x (a +:+ "") = String x a). by rewrite IH.
Qed.

(** The accumulated text in closed form: the deltas, in order, after what
    was there. *)
Lemma accumulate_closed cur ds :
  accumulate cur ds =
  match ds with
  | [] => cur
  | _ => Some (default "" cur +:+ concat_text ds)
  end.
Proof.
  revert cur. induction ds as [|d ds IH]; intros cur; [done|].
  cbn [accumulate foldl]. fold (accumulate (Some (or_else cur "" +:+ d)) ds).
  rewrite IH, or_else_empty. destruct ds as [|d' ds].
  - unfold concat_text. cbn [foldr]. by rewrite string_app_empty_r.
  - unfold concat_text. cbn [default from_option id foldr].
    by rewrite string_app_assoc.
Qed.

(** X5: whatever sequence of events the server sends, the history grows by
    exactly the items of its [conversation.item.created] events, in order
    (the output items of [response.done] are not added), [currentResponse]
    grows by the text of its deltas, in order, and is never reset between
    responses; no event changes Connection State, a browser object,
    [isConnected], [isConnecting] or [hasPermission]: the server cannot
    connect or disconnect the client, and its [error] events are not
    fatal. *)
Theorem inbound_events_effect (events : list RealtimeServerEvent) (w : World) :
  exists w', handleServerEvents events w = Value tt w'
    /\ conversationHistory (state w')
       = conversationHistory (state w) ++ created_items events
    /\ currentResponse (state w') =
         match delta_texts events with
         | [] => currentResponse (state w)
         | ds => Some (default "" (currentResponse (state w)) +:+ concat_text ds)
         end
    /\ isConnected (state w') = isConnected (state w)
    /\ isConnecting (state w') = isConnecting (state w)
    /\ hasPermission (state w') = hasPermission (state w)
    /\ connectionRef w' = connectionRef w
    /\ browser w' = browser w.
Proof.
  assert (H : exists w', handleServerEvents events w = Value tt w'
    /\ conversationHistory (state w')
       = conversationHistory (state w) ++ created_items events
    /\ currentResponse (state w')
       = accumulate (currentResponse (state w)) (delta_texts events)
    /\ isConnected (state w') = isConnected (state w)
    /\ isConnecting (state w') = isConnecting (state w)
    /\ hasPermission (state w') = hasPermission (state w)
    /\ connectionRef w' = connectionRef w
    /\ browser w' = browser w).
  { revert w. induction events as [|event events IH]; intros w.
    - exists w. cbn. by rewrite app_nil_r.
    - destruct (handleServerEvent_effect event w)
        as (w1 & E1 & Hh1 & Hr1 & Hc1 & Hg1 & Hp1 & Hcr1 & Hb1 & _).
      destruct (IH w1) as (w' & E & Hh & Hr & Hc & Hg & Hp & Hcr & Hb).
      exists w'. rewrite (handleServerEvents_step _ _ _ _ E1).
      split; [exact E|]. rewrite Hh, Hr, Hc, Hg, Hp, Hcr, Hb.
      rewrite Hh1, Hr1, Hc1, Hg1, Hp1, Hcr1, Hb1.
      rewrite (created_items_cons event events), (accumulate_cons _ event events).
      by rewrite app_assoc. }
  destruct H as (w' & E & Hh & Hr & Hrest). exists w'.
  split; [exact E|]. split; [exact Hh|]. split; [|exact Hrest].
  rewrite Hr, accumulate_closed. by destruct (delta_texts events).
Qed.

(** Two responses in a row: the text of the second is appended to the text
    of the first. *)
Example currentResponse_spans_responses :
  exists w',
    handleServerEvents
      [ response_created (assistant_says "Yes"); response_text_delta "Yes";
        response_done (assistant_says "Yes");
        response_created (assistant_says "No"); response_text_delta "No";
        response_done (assistant_says "No") ] session = Value tt w'
    /\ currentResponse (state w') = Some "YesNo"
    /\ conversationHistory (state w') = [].
Proof. eexists. by vm_compute. Qed.

(** ** Messages that do not parse *)

Lemma message_arrives_keeps dc d w :
  exists w', message_arrives dc d w = Value tt w'
    /\ browser w' = browser w
    /\ connectionRef w' = connectionRef w
    /\ options w' = options w.
Proof.
  unfold message_arrives, mbind, M_bind, get. cbn [res_bind].
  case_bool_decide; [|by exists w].
  unfold dc_onmessage, try_catch. destruct d as [event|].
  - destruct (handleServerEvent_returns event w) as (w' & -> & Hc & Hb & Ho).
    by exists w'.
  - eexists. unfold throw, log, modify. cbn [res_catch]. by split.
Qed.

Lemma handleServerEvent_on_equal_states event w w0 :
  state w = state w0 -> notified w = notified w0 -> options w = options w0 ->
  exists w' w0',
    handleServerEvent event w = Value tt w'
    /\ handleServerEvent event w0 = Value tt w0'
    /\ state w' = state w0'
    /\ notified w' = notified w0'
    /\ options w' = options w0'
    /\ browser w' = browser w
    /\ connectionRef w' = connectionRef w.
Proof.
  intros Hs Hn Ho.
  destruct event; unfold_hook;
    try (do 2 eexists; split; [reflexivity|]; split; [reflexivity|]; cbn;
         by rewrite ?Hs, ?Hn, ?Ho).
  destruct (truthy _); do 2 eexists; (split; [reflexivity|]);
    (split; [reflexivity|]); cbn; by rewrite ?Hs, ?Hn, ?Ho.
Qed.

(** X6: a message that fails to parse is dropped, with a console error, and
    only that message: after any sequence of messages on the channel, the
    Voice Interface State and the notifications fired are those of handling
    the parseable messages alone, and Connection State and the browser
    objects are unchanged. *)
Theorem unparseable_messages_are_dropped
    (dc : nat) (data : list (option RealtimeServerEvent)) (w : World) :
  Browser.onmessage <$> Browser.channels (browser w) !! dc = Some true ->
  exists w1 w2,
    data_arrives dc data w = Value tt w1
    /\ handleServerEvents (omap id data) w = Value tt w2
    /\ state w1 = state w2
    /\ notified w1 = notified w2
    /\ connectionRef w1 = connectionRef w
    /\ browser w1 = browser w.
Proof.
  intros Hinstalled.
  assert (H : forall w0, state w = state w0 -> notified w = notified w0 ->
    options w = options w0 ->
    exists w1 w2,
      data_arrives dc data w = Value tt w1
      /\ handleServerEvents (omap id data) w0 = Value tt w2
      /\ state w1 = state w2 /\ notified w1 = notified w2
      /\ connectionRef w1 = connectionRef w /\ browser w1 = browser w).
  2: { apply (H w); done. }
  revert w Hinstalled. induction data as [|d data IH]; intros w Hinstalled w0 Hs Hn Ho.
  - exists w, w0. by repeat split.
  - cbn [data_arrives]. unfold mbind at 1, M_bind.
    destruct d as [event|].
    + rewrite (message_arrives_installed dc event w Hinstalled).
      destruct (handleServerEvent_on_equal_states event w w0 Hs Hn Ho)
        as (w' & w0' & E & E0 & Hs' & Hn' & Ho' & Hb' & Hc').
      rewrite E. cbn [res_bind].
      destruct (IH w') with (w0 := w0')
        as (w1 & w2 & E1 & E2 & Hs1 & Hn1 & Hc1 & Hb1); try done.
      { by rewrite Hb'. }
      exists w1, w2. split; [exact E1|]. split.
      { change (omap id (Some event :: data)) with (event :: omap id data).
        by rewrite (handleServerEvents_step _ _ _ _ E0). }
      rewrite Hc1, Hb1. by repeat split.
    + assert (E : message_arrives dc None w
                  = Value tt (with_console
                      (fun l => l ++ [console_error "Failed to parse server event:"]) w)).
      { unfold message_arrives, mbind, M_bind, get. cbn [res_bind].
        by rewrite bool_decide_eq_true_2 by done. }
      rewrite E. cbn [res_bind].
      destruct (IH (with_console
                      (fun l => l ++ [console_error "Failed to parse server event:"]) w))
        with (w0 := w0)
        as (w1 & w2 & E1 & E2 & Hs1 & Hn1 & Hc1 & Hb1); try done.
      exists w1, w2. by repeat split.
Qed.

Lemma unparseable_messages_are_dropped_witness :
  Browser.onmessage <$> Browser.channels (browser session) !! 3 = Some true
  /\ exists w1 w2,
       data_arrives 3 [None; Some (response_text_delta "Hel"); None] session
       = Value tt w1
       /\ handleServerEvents [response_text_delta "Hel"] session = Value tt w2
       /\ state w1 = state w2
       /\ notified w1 = notified w2.
Proof.
  assert (H : Browser.onmessage <$> Browser.channels (browser session) !! 3 = Some true)
    by (vm_compute; reflexivity).
  split; [exact H|].
  destruct (unparseable_messages_are_dropped 3
              [None; Some (response_text_delta "Hel"); None] session H)
    as (w1 & w2 & E1 & E2 & Hs & Hn & _).
  exists w1, w2. split; [exact E1|]. split; [exact E2|]. split; [exact Hs|exact Hn].
Defined.

(** ** The channel opens *)

(** A computation whose run makes no call did not suspend. *)
Lemma run_without_calls {A} (o : Oracle) (m : M A) w a w' :
  run o (m w) = (Returned a w', []) -> m w = Value a w'.
Proof.
  destruct (m w) as [a0 w0|e w0|c w0 k]; cbn.
  - by intros [= -> ->].
  - done.
  - by destruct (run o (k (o c) w0)).
Qed.

Lemma channel_opens_held
    (dc : nat) (ch : Browser.RTCDataChannel) (td : EphemeralTokenResponse) (w : World) :
  Browser.channels (browser w) !! dc = Some ch ->
  Browser.onopen ch = Some td ->
  dataChannel (connectionRef w) = Some dc ->
  channel_opens dc w = Value tt (opened dc td w).
Proof.
  intros Hch Hopen Hdc.
  apply (run_without_calls (all_succeed credential)).
  apply (wp_run (all_succeed credential) (channel_opens dc) w
    (fun p => p = (Returned tt (opened dc td w), []))).
  repeat wp_step_any.
  all: repeat match goal with
              | H : context [alter _ ?k _ !! ?k] |- _ =>
                  rewrite lookup_alter_eq, Hch in H; cbn in H
              | H : Some _ = Some _ |- _ => injection H as H; subst
              | H : Some _ = None |- _ => discriminate H
              | H : None = Some _ |- _ => discriminate H
              end.
  all: rewrite ?Hdc in *.
  all: try (rewrite Hopen in *; simplify_eq).
  all: try (match goal with
            | H : is_open _ _ = false |- _ =>
                unfold is_open in H; cbn in H;
                rewrite lookup_alter_eq, Hch in H; cbn in H; discriminate H
            end).
  all: reflexivity.
Qed.

(** X7: when the side-channel held in Connection State opens, the connection
    is marked connected and no longer connecting, the state's error is
    cleared, the connected notification fires, and [session.update] goes out
    on the channel, after whatever had been sent on it: its model is the one
    the credential names, or 'gpt-realtime' when it names none or an empty
    one.  The handles and the history are what they were. *)
Theorem channel_open_announces_session
    (dc : nat) (ch : Browser.RTCDataChannel) (td : EphemeralTokenResponse) (w : World) :
  Browser.channels (browser w) !! dc = Some ch ->
  Browser.onopen ch = Some td ->
  dataChannel (connectionRef w) = Some dc ->
  exists w' s,
    channel_opens dc w = Value tt w'
    /\ connected (connectionRef w') = true
    /\ connecting (connectionRef w') = false
    /\ isConnected (state w') = true
    /\ isConnecting (state w') = false
    /\ error (state w') = None
    /\ notified w' = (if onConnected (options w)
                      then notified w ++ [connected_notification] else notified w)
    /\ Browser.readyState <$> Browser.channels (browser w') !! dc = Some Browser.rs_open
    /\ Browser.sent <$> Browser.channels (browser w') !! dc
       = Some (Browser.sent ch ++ [session_update s])
    /\ session_model s
       = Some (match session_config td ≫= session_model with
               | Some model => if bool_decide (model = "") then "gpt-realtime" else model
               | None => "gpt-realtime"
               end)
    /\ session_instructions s = session_config td ≫= session_instructions
    /\ peerConnection (connectionRef w') = peerConnection (connectionRef w)
    /\ localStream (connectionRef w') = localStream (connectionRef w)
    /\ conversationHistory (state w') = conversationHistory (state w).
Proof.
  intros Hch Hopen Hdc. exists (opened dc td w), (initial_session td).
  split; [by apply (channel_opens_held dc ch)|].
  unfold opened. cbn. rewrite !lookup_alter_eq, Hch. cbn.
  repeat (split; [done|]). split; [|done].
  unfold or_else, truthy.
  destruct (session_config td ≫= session_model) as [model|]; [|done].
  cbn. by destruct (bool_decide (model = "")).
Qed.

Lemma channel_open_announces_session_witness :
  Browser.channels (browser (connect_from_mount (all_succeed credential))) !! 3
  = Some {| Browser.label := "oai-events";
            Browser.readyState := Browser.rs_connecting;
            Browser.sent := []; Browser.onopen := Some credential;
            Browser.onmessage := true; Browser.onerror := true;
            Browser.onclose := true |}
  /\ dataChannel (connectionRef (connect_from_mount (all_succeed credential))) = Some 3
  /\ exists w' s,
       channel_opens 3 (connect_from_mount (all_succeed credential)) = Value tt w'
       /\ isConnected (state w') = true
       /\ Browser.sent <$> Browser.channels (browser w') !! 3 = Some [session_update s]
       /\ session_model s = Some "m1".
Proof.
  assert (H1 : Browser.channels (browser (connect_from_mount (all_succeed credential))) !! 3
    = Some {| Browser.label := "oai-events";
              Browser.readyState := Browser.rs_connecting;
              Browser.sent := []; Browser.onopen := Some credential;
              Browser.onmessage := true; Browser.onerror := true;
              Browser.onclose := true |}) by (vm_compute; reflexivity).
  assert (H2 : dataChannel (connectionRef (connect_from_mount (all_succeed credential)))
               = Some 3) by reflexivity.
  split; [exact H1|]. split; [exact H2|].
  destruct (channel_open_announces_session 3 _ credential _ H1 eq_refl H2)
    as (w' & s & E & _ & _ & Hc & _ & _ & _ & _ & Hsent & Hmodel & _).
  exists w', s. split; [exact E|]. split; [exact Hc|]. split; [exact Hsent|].
  rewrite Hmodel. reflexivity.
Defined.

(** ** Sending a message on a live session *)

(** X8: [sendMessage] on a connection marked connected appends the user item
    to the history whether or not anything went out.  When the channel held
    in Connection State is open, [conversation.item.create] with that item
    and then [response.create] go out on it, in this order, after what had
    been sent; when it is not open, or none is held, nothing is sent and no
    browser object is touched. *)
Theorem sendMessage_connected_effect (message : string) (w : World) :
  connected (connectionRef w) = true ->
  exists w',
    sendMessage message w = Value tt w'
    /\ conversationHistory (state w')
       = conversationHistory (state w) ++ [a_user_item message]
    /\ connectionRef w' = connectionRef w
    /\ notified w' = notified w
    /\ (forall dc ch,
          dataChannel (connectionRef w) = Some dc ->
          Browser.channels (browser w) !! dc = Some ch ->
          Browser.readyState ch = Browser.rs_open ->
          Browser.sent <$> Browser.channels (browser w') !! dc
          = Some (Browser.sent ch
                  ++ [conversation_item_create (a_user_item message); response_create]))
    /\ ((forall dc, dataChannel (connectionRef w) = Some dc ->
           is_open dc (browser w) = false) ->
        browser w' = browser w).
Proof.
  intros Hconnected.
  assert (H : exists w',
    run (all_succeed credential) (sendMessage message w) = (Returned tt w', [])
    /\ conversationHistory (state w')
       = conversationHistory (state w) ++ [a_user_item message]
    /\ connectionRef w' = connectionRef w
    /\ notified w' = notified w
    /\ (forall dc ch,
          dataChannel (connectionRef w) = Some dc ->
          Browser.channels (browser w) !! dc = Some ch ->
          Browser.readyState ch = Browser.rs_open ->
          Browser.sent <$> Browser.channels (browser w') !! dc
          = Some (Browser.sent ch
                  ++ [conversation_item_create (a_user_item message); response_create]))
    /\ ((forall dc, dataChannel (connectionRef w) = Some dc ->
           is_open dc (browser w) = false) ->
        browser w' = browser w)).
  2: { destruct H as (w' & Hrun & H). exists w'.
       split; [exact (run_without_calls _ _ _ _ _ Hrun)|exact H]. }
  apply (wp_run (all_succeed credential) (sendMessage message) w
    (fun p => exists w', p = (Returned tt w', []) /\ _)).
  repeat wp_step_any.
  all: try (rewrite Hconnected in *; discriminate).
  all: eexists; (split; [reflexivity|]); cbn.
  all: do 3 (split; [done|]).
  all: split; [intros dc ch Hdc Hch Hopen|intros Hclosed].
  all: cbn in *; simplify_eq.
  all: repeat match goal with
              | H1 : ?x = Some _, H2 : ?x = Some _ |- _ =>
                  rewrite H1 in H2; injection H2 as H2; subst
              | H1 : ?x = None, H2 : ?x = Some _ |- _ =>
                  rewrite H1 in H2; discriminate H2
              end.
  all: try (match goal with
            | H : is_open _ _ = false |- _ =>
                unfold is_open in H; cbn in H;
                rewrite ?lookup_alter_eq, ?Hch in H; cbn in H;
                rewrite ?Hopen in H;
                by rewrite bool_decide_eq_true_2 in H
            end).
  all: try (cbn; rewrite ?lookup_alter_eq, ?Hch; cbn; by rewrite <- ?app_assoc).
  all: try (match goal with
            | Hd : dataChannel _ = Some ?dc, Ho : is_open ?dc _ = true |- _ =>
                rewrite (Hclosed dc Hd) in Ho; discriminate Ho
            end).
  all: try done.
  all: try (match goal with
            | Ho : is_open ?n (browser _) = true |- _ =>
                rewrite (Hclosed n) in Ho by done; discriminate Ho
            end).
Qed.

Lemma sendMessage_connected_effect_witness :
  connected (connectionRef session) = true
  /\ exists w',
       sendMessage "Will I get the job?" session = Value tt w'
       /\ conversationHistory (state w')
          = conversationHistory (state session) ++ [a_user_item "Will I get the job?"].
Proof.
  split; [reflexivity|].
  destruct (sendMessage_connected_effect "Will I get the job?" session eq_refl)
    as (w' & E & Hh & _).
  exists w'. split; [exact E|exact Hh].
Defined.

(** ** [connect] and the objects of an earlier connection *)

(** Lookups at a reference older than the ones a path created. *)
Ltac old_ref :=
  cbn;
  repeat match goal with
         | |- context [match Browser.first_audio ?t with _ => _ end] =>
             destruct (Browser.first_audio t)
         | |- context [if negb ?b then _ else _] => destruct (negb b)
         end;
  cbn;
  repeat first [ rewrite lookup_alter_ne by lia
               | rewrite lookup_insert_ne by lia ];
  try done; try lia.

(** X9: [connect] creates objects and works on the ones it created: whatever
    the outside answers, every browser object that existed before the call
    is after it exactly what it was.  So it closes no earlier peer
    connection or channel and stops no earlier track. *)
Theorem connect_touches_only_fresh_objects (o : Oracle) (w : World) (k : nat) :
  k < Browser.next_ref (browser w) ->
  Browser.pcs (browser (final (fst (run o (connect w))))) !! k
    = Browser.pcs (browser w) !! k
  /\ Browser.channels (browser (final (fst (run o (connect w))))) !! k
    = Browser.channels (browser w) !! k
  /\ Browser.streams (browser (final (fst (run o (connect w))))) !! k
    = Browser.streams (browser w) !! k
  /\ Browser.audios (browser (final (fst (run o (connect w))))) !! k
    = Browser.audios (browser w) !! k
  /\ Browser.next_ref (browser w)
     <= Browser.next_ref (browser (final (fst (run o (connect w))))).
Proof.
  intros Hk.
  apply (wp_run o connect w
    (fun p => Browser.pcs (browser (final (fst p))) !! k = _
              /\ Browser.channels (browser (final (fst p))) !! k = _
              /\ Browser.streams (browser (final (fst p))) !! k = _
              /\ Browser.audios (browser (final (fst p))) !! k = _
              /\ _ <= Browser.next_ref (browser (final (fst p))))).
  repeat wp_step_any.
  all: repeat split; old_ref.
Qed.

Lemma connect_touches_only_fresh_objects_witness :
  0 < Browser.next_ref (browser (connect_from_mount offer_refused))
  /\ Browser.pcs (browser (final (fst (run (all_succeed credential)
        (connect (connect_from_mount offer_refused)))))) !! 0
     = Browser.pcs (browser (connect_from_mount offer_refused)) !! 0.
Proof.
  assert (H : 0 < Browser.next_ref (browser (connect_from_mount offer_refused)))
    by (vm_compute; lia).
  split; [exact H|].
  exact (proj1 (connect_touches_only_fresh_objects (all_succeed credential)
                  (connect_from_mount offer_refused) 0 H)).
Defined.

(** ** A successful attempt *)

(** Closes the paths on which a call fails, when every call succeeds. *)
Ltac cooperative Hall Hok :=
  repeat match goal with
         | H : negb _ = true |- _ => apply negb_true_iff in H
         | H : negb _ = false |- _ => apply negb_false_iff in H
         end;
  try match goal with
      | He : ?o ?c = Rejected _ |- _ =>
          let x := fresh in let Hx := fresh in
          destruct (Hall c) as [x Hx]; rewrite Hx in He; discriminate He
      end;
  try match goal with
      | Hf : ?o (fetch ?url ?init) = Fulfilled ?r, Hr : ok ?r = false |- _ =>
          rewrite (Hok url init r Hf) in Hr; discriminate Hr
      | Hf : ?o token_request = Fulfilled ?r, Hr : ok ?r = false |- _ =>
          rewrite (Hok _ _ r Hf) in Hr; discriminate Hr
      end.

(** The world a successful attempt leaves. *)
Lemma connect_cooperative (o : Oracle) (w : World) :
  connecting (connectionRef w) || connected (connectionRef w) = false ->
  (forall c, exists x, o c = Fulfilled x) ->
  (forall url init r, o (fetch url init) = Fulfilled r -> ok r = true) ->
  exists w1 t r td tracks,
    run o (connect w) = (Returned tt w1, t)
    /\ o token_request = Fulfilled r
    /\ o (response_json r) = Fulfilled td
    /\ o getUserMedia = Fulfilled tracks
    /\ (peerConnection (connectionRef w1) = Some (Browser.next_ref (browser w))
        /\ audioElement (connectionRef w1) = Some (1 + Browser.next_ref (browser w))
        /\ localStream (connectionRef w1) = Some (2 + Browser.next_ref (browser w))
        /\ dataChannel (connectionRef w1) = Some (3 + Browser.next_ref (browser w))
        /\ connecting (connectionRef w1) = true
        /\ connected (connectionRef w1) = false
        /\ isConnecting (state w1) = true
        /\ isConnected (state w1) = isConnected (state w)
        /\ hasPermission (state w1) = true
        /\ error (state w1) = None
        /\ notified w1 = notified w
        /\ isMutedRef w1 = isMutedRef w
        /\ options w1 = options w)
    /\ Browser.streams (browser w1) !! (2 + Browser.next_ref (browser w)) = Some tracks
    /\ Browser.channels (browser w1) !! (3 + Browser.next_ref (browser w))
       = Some {| Browser.label := "oai-events";
                 Browser.readyState := Browser.rs_connecting;
                 Browser.sent := []; Browser.onopen := Some td;
                 Browser.onmessage := true; Browser.onerror := true;
                 Browser.onclose := true |}
    /\ Browser.closed <$> Browser.pcs (browser w1) !! Browser.next_ref (browser w)
       = Some false
    /\ forall k, k < Browser.next_ref (browser w) ->
         Browser.pcs (browser w1) !! k = Browser.pcs (browser w) !! k
         /\ Browser.channels (browser w1) !! k = Browser.channels (browser w) !! k
         /\ Browser.streams (browser w1) !! k = Browser.streams (browser w) !! k
         /\ Browser.audios (browser w1) !! k = Browser.audios (browser w) !! k.
Proof.
  intros Hidle Hall Hok.
  rewrite (run_connect o w Hidle).
  apply orb_false_elim in Hidle as [_ Hconnected].
  apply (wp_run o connect_attempt w
    (fun p => exists w1 t r td tracks,
       match p with
       | (Returned a w1, t) => (Returned a w1, t)
       | (Threw e w2, t) => (Returned tt (failure_recorded e w2), t)
       end = (Returned tt w1, t) /\ _)).
  wp_run; cooperative Hall Hok.
  all: do 5 eexists; (split; [reflexivity|]); do 3 (split; [eassumption|]).
  all: split; [cbn; by repeat split|].
  all: cbn.
  all: repeat match goal with
         | |- context [match Browser.first_audio ?t with _ => _ end] =>
             destruct (Browser.first_audio t)
         | |- context [if negb ?b then _ else _] => destruct (negb b)
         end.
  all: cbn; rewrite ?lookup_alter_eq, ?lookup_insert_eq; cbn.
  all: repeat first [ rewrite lookup_alter_ne by lia
                    | rewrite lookup_insert_ne by lia
                    | rewrite lookup_alter_eq | rewrite lookup_insert_eq ]; cbn.
  all: do 3 (split; [done|]).
  all: intros k Hk; repeat split; old_ref.
Qed.

(** X10: when every call succeeds, [connect] returns with the four handles in
    Connection State, the microphone stream as it was granted, the handlers
    installed on a channel that is still connecting, the peer connection
    open; the connection is still marked connecting, no notification has
    fired and the mute flag is what it was.  It is the opening of the
    channel that marks it connected, fires the connected notification and
    sends [session.update], the first event on the channel. *)
Theorem connect_then_open (o : Oracle) (w : World) :
  connecting (connectionRef w) || connected (connectionRef w) = false ->
  (forall c, exists x, o c = Fulfilled x) ->
  (forall url init r, o (fetch url init) = Fulfilled r -> ok r = true) ->
  exists w1 t r td tracks,
    run o (connect w) = (Returned tt w1, t)
    /\ o token_request = Fulfilled r
    /\ o (response_json r) = Fulfilled td
    /\ o getUserMedia = Fulfilled tracks
    /\ peerConnection (connectionRef w1) = Some (Browser.next_ref (browser w))
    /\ audioElement (connectionRef w1) = Some (1 + Browser.next_ref (browser w))
    /\ localStream (connectionRef w1) = Some (2 + Browser.next_ref (browser w))
    /\ dataChannel (connectionRef w1) = Some (3 + Browser.next_ref (browser w))
    /\ connecting (connectionRef w1) = true
    /\ connected (connectionRef w1) = false
    /\ isConnecting (state w1) = true
    /\ isConnected (state w1) = isConnected (state w)
    /\ hasPermission (state w1) = true
    /\ error (state w1) = None
    /\ notified w1 = notified w
    /\ isMutedRef w1 = isMutedRef w
    /\ Browser.streams (browser w1) !! (2 + Browser.next_ref (browser w)) = Some tracks
    /\ Browser.closed <$> Browser.pcs (browser w1) !! Browser.next_ref (browser w)
       = Some false
    /\ exists w2,
         channel_opens (3 + Browser.next_ref (browser w)) w1 = Value tt w2
         /\ connected (connectionRef w2) = true
         /\ connecting (connectionRef w2) = false
         /\ isConnected (state w2) = true
         /\ isConnecting (state w2) = false
         /\ notified w2 = (if onConnected (options w)
                           then notified w ++ [connected_notification]
                           else notified w)
         /\ Browser.sent <$> Browser.channels (browser w2) !! (3 + Browser.next_ref (browser w))
            = Some [session_update (initial_session td)].
Proof.
  intros Hidle Hall Hok.
  destruct (connect_cooperative o w Hidle Hall Hok)
    as (w1 & t & r & td & tracks & Hrun & Hr & Htd & Htracks
        & Hflags & Hstream & Hchannel & Hpc & _).
  destruct Hflags as (Hp & Ha & Hs & Hd & Hcing & Hced & HisCing & HisCed
                      & Hperm & Herr & Hn & Hm & Ho).
  exists w1, t, r, td, tracks.
  repeat (split; [assumption|]).
  exists (opened (3 + Browser.next_ref (browser w)) td w1).
  split; [by eapply channel_opens_held|].
  unfold opened. cbn in *. rewrite !lookup_alter_eq, Hchannel, Ho, Hn. by cbn.
Qed.

Lemma connect_then_open_witness :
  connecting (connectionRef (mount every_callback))
    || connected (connectionRef (mount every_callback)) = false
  /\ (forall c, exists x, all_succeed credential c = Fulfilled x)
  /\ (forall url init r, all_succeed credential (fetch url init) = Fulfilled r ->
        ok r = true)
  /\ exists w1 t w2,
       run (all_succeed credential) (connect (mount every_callback)) = (Returned tt w1, t)
       /\ dataChannel (connectionRef w1) = Some 3
       /\ isConnected (state w1) = false
       /\ channel_opens 3 w1 = Value tt w2
       /\ isConnected (state w2) = true.
Proof.
  assert (H1 : forall c, exists x, all_succeed credential c = Fulfilled x)
    by (intros c; destruct c; eexists; reflexivity).
  assert (H2 : forall url init r,
             all_succeed credential (fetch url init) = Fulfilled r -> ok r = true)
    by (intros url init r [= <-]; reflexivity).
  split; [reflexivity|]. split; [exact H1|]. split; [exact H2|].
  destruct (connect_then_open (all_succeed credential) (mount every_callback)
              eq_refl H1 H2)
    as (w1 & t & r & td & tracks & Hrun & _ & _ & _ & _ & _ & _ & Hd & _ & _ & _
        & Hced & _ & _ & _ & _ & _ & _ & w2 & E & _ & _ & Hc2 & _).
  exists w1, t, w2. split; [exact Hrun|]. split; [exact Hd|].
  split; [exact Hced|]. split; [exact E|exact Hc2].
Defined.

(** ** What goes to the remote signaling endpoint *)

(** Splits the membership of a call in the calls of one path. *)
Ltac in_calls H :=
  cbn in H;
  repeat match type of H with
         | _ ∈ _ :: _ => apply elem_of_cons in H as [H|H]
         | _ ∈ [] => apply elem_of_nil in H; destruct H
         end.

(** X11: whatever the outside answers, the only request [connect] makes beside
    the token request is the offer, and it makes it only after the token
    backend answered with success, the microphone was granted, and ICE
    gathering was complete or reported complete; it is a POST to the calls
    endpoint for the model the credential names, authorized by the secret of
    that credential. *)
Theorem offer_carries_the_credential (o : Oracle) (w : World) (url : string) (init : RequestInit) :
  connecting (connectionRef w) || connected (connectionRef w) = false ->
  fetch url init ∈ calls (snd (run o (connect w))) ->
  url ≠ token_url ->
  exists r td tracks,
    o token_request = Fulfilled r
    /\ ok r = true
    /\ o (response_json r) = Fulfilled td
    /\ o getUserMedia = Fulfilled tracks
    /\ (o (iceGatheringState (Browser.next_ref (browser w))) = Fulfilled ice_complete
        \/ o (icegatheringstatechange_complete (Browser.next_ref (browser w)))
           = Fulfilled tt)
    /\ url = baseUrl +:+ "?model=" +:+ interpolate (session_config td ≫= session_model)
    /\ method init = "POST"
    /\ headers init = [("Authorization", "Bearer " +:+ interpolate (value td));
                       ("Content-Type", "application/sdp")].
Proof.
  intros Hidle Hin Hurl. revert Hin. rewrite (run_connect o w Hidle).
  apply (wp_run o connect_attempt w
    (fun p => fetch url init ∈ calls (snd
                match p with
                | (Returned a w1, t) => (Returned a w1, t)
                | (Threw e w2, t) => (Returned tt (failure_recorded e w2), t)
                end) -> _)).
  wp_run; intros Hin; in_calls Hin; try discriminate Hin.
  all: try (unfold token_request in Hin; injection Hin as -> _; by destruct Hurl).
  all: injection Hin as -> ->.
  all: repeat match goal with
              | H : negb _ = true |- _ => apply negb_true_iff in H
              | H : negb _ = false |- _ => apply negb_false_iff in H
              | u : answer (icegatheringstatechange_complete _) |- _ => destruct u
              end.
  all: do 3 eexists; do 4 (split; [eassumption|]).
  all: split; [first [left; eassumption | right; eassumption]|].
  all: by repeat split.
Qed.

Lemma offer_carries_the_credential_witness :
  connecting (connectionRef (mount every_callback))
    || connected (connectionRef (mount every_callback)) = false
  /\ fetch (baseUrl +:+ "?model=m1")
       {| method := "POST";
          headers := [("Authorization", "Bearer tok");
                      ("Content-Type", "application/sdp")];
          body := "v=0 offer" |}
     ∈ calls (snd (run (all_succeed credential) (connect (mount every_callback))))
  /\ baseUrl +:+ "?model=m1" ≠ token_url
  /\ exists td,
       all_succeed credential (response_json {| ok := true; status := 200 |})
       = Fulfilled td
       /\ [("Authorization", "Bearer tok"); ("Content-Type", "application/sdp")]
          = [("Authorization", "Bearer " +:+ interpolate (value td));
             ("Content-Type", "application/sdp")].
Proof.
  assert (H1 : fetch (baseUrl +:+ "?model=m1")
       {| method := "POST";
          headers := [("Authorization", "Bearer tok");
                      ("Content-Type", "application/sdp")];
          body := "v=0 offer" |}
     ∈ calls (snd (run (all_succeed credential) (connect (mount every_callback)))))
    by (vm_compute; repeat constructor).
  assert (H2 : baseUrl +:+ "?model=m1" ≠ token_url) by (vm_compute; discriminate).
  split; [reflexivity|]. split; [exact H1|]. split; [exact H2|].
  destruct (offer_carries_the_credential (all_succeed credential) (mount every_callback)
              _ _ eq_refl H1 H2)
    as (r & td & tracks & Hr & _ & Htd & _ & _ & _ & _ & Hheaders).
  injection Hr as <-. exists td. split; [exact Htd|exact Hheaders].
Defined.

(** X12: whatever the outside answers, [connect] applies a remote description
    only when the remote endpoint answered the offer with success, and the
    description it applies is the text of that answer. *)
Theorem answer_applied_only_when_accepted
    (o : Oracle) (w : World) (pc : nat) (sdp : string) :
  connecting (connectionRef w) || connected (connectionRef w) = false ->
  setRemoteDescription pc sdp ∈ calls (snd (run o (connect w))) ->
  pc = Browser.next_ref (browser w)
  /\ exists url init r,
       fetch url init ∈ calls (snd (run o (connect w)))
       /\ url ≠ token_url
       /\ o (fetch url init) = Fulfilled r
       /\ ok r = true
       /\ o (response_text r) = Fulfilled sdp.
Proof.
  intros Hidle Hin. revert Hin. rewrite (run_connect o w Hidle).
  apply (wp_run o connect_attempt w
    (fun p => setRemoteDescription pc sdp ∈ calls (snd
                match p with
                | (Returned a w1, t) => (Returned a w1, t)
                | (Threw e w2, t) => (Returned tt (failure_recorded e w2), t)
                end) ->
              pc = _ /\ exists url init r,
                fetch url init ∈ calls (snd
                  match p with
                  | (Returned a w1, t) => (Returned a w1, t)
                  | (Threw e w2, t) => (Returned tt (failure_recorded e w2), t)
                  end) /\ _)).
  wp_run; intros Hin; in_calls Hin; try discriminate Hin.
  all: injection Hin as -> ->.
  all: repeat match goal with
              | H : negb _ = true |- _ => apply negb_true_iff in H
              | H : negb _ = false |- _ => apply negb_false_iff in H
              end.
  all: split; [reflexivity|].
  all: do 3 eexists; split;
         [cbn; apply elem_of_cons; right;
          repeat first [ apply elem_of_cons; left; reflexivity
                       | apply elem_of_cons; right ]|].
  all: split;
    [intros Heq;
     apply (f_equal (fun s => match s with String a _ => Some a | _ => None end)) in Heq;
     vm_compute in Heq; discriminate Heq|].
  all: by repeat split.
Qed.

Lemma answer_applied_only_when_accepted_witness :
  connecting (connectionRef (mount every_callback))
    || connected (connectionRef (mount every_callback)) = false
  /\ setRemoteDescription 0 "v=0 answer"
     ∈ calls (snd (run (all_succeed credential) (connect (mount every_callback))))
  /\ exists url init r,
       all_succeed credential (fetch url init) = Fulfilled r
       /\ ok r = true
       /\ all_succeed credential (response_text r) = Fulfilled "v=0 answer".
Proof.
  assert (H1 : setRemoteDescription 0 "v=0 answer"
     ∈ calls (snd (run (all_succeed credential) (connect (mount every_callback)))))
    by (vm_compute; repeat constructor).
  split; [reflexivity|]. split; [exact H1|].
  destruct (answer_applied_only_when_accepted (all_succeed credential)
              (mount every_callback) 0 "v=0 answer" eq_refl H1)
    as (_ & url & init & r & _ & _ & Hr & Hok & Htext).
  exists url, init, r. split; [exact Hr|]. split; [exact Hok|exact Htext].
Defined.

(** ** The remote side closes the channel *)

(** X13: when the channel is closed from outside, the [onclose] handler marks
    the connection not connected and fires the disconnected notification,
    and that is all: Connection State keeps its four handles, the peer
    connection is not closed, the microphone tracks are not stopped, and
    [isListening], [isSpeaking], [isConnecting] and [error] stay what they
    were.  Only [disconnect] releases. *)
Theorem remote_close_releases_nothing (dc : nat) (w : World) :
  Browser.onclose <$> Browser.channels (browser w) !! dc = Some true ->
  exists w',
    channel_closes dc w = Value tt w'
    /\ connected (connectionRef w') = false
    /\ isConnected (state w') = false
    /\ notified w' = (if onDisconnected (options w)
                      then notified w ++ [disconnected_notification]
                      else notified w)
    /\ Browser.readyState <$> Browser.channels (browser w') !! dc
       = Some Browser.rs_closed
    /\ peerConnection (connectionRef w') = peerConnection (connectionRef w)
    /\ dataChannel (connectionRef w') = dataChannel (connectionRef w)
    /\ localStream (connectionRef w') = localStream (connectionRef w)
    /\ audioElement (connectionRef w') = audioElement (connectionRef w)
    /\ connecting (connectionRef w') = connecting (connectionRef w)
    /\ Browser.pcs (browser w') = Browser.pcs (browser w)
    /\ Browser.streams (browser w') = Browser.streams (browser w)
    /\ Browser.audios (browser w') = Browser.audios (browser w)
    /\ isListening (state w') = isListening (state w)
    /\ isSpeaking (state w') = isSpeaking (state w)
    /\ isConnecting (state w') = isConnecting (state w)
    /\ error (state w') = error (state w)
    /\ autoConnectAttemptedRef w' = autoConnectAttemptedRef w.
Proof.
  intros Hinstalled.
  destruct (Browser.channels (browser w) !! dc) as [ch|] eqn:Hch; [|done].
  unfold channel_closes, update_channel, mbind at 1 2, M_bind, modify, get.
  cbn [res_bind]. simpl_world.
  rewrite bool_decide_eq_true_2.
  2: { rewrite lookup_alter_eq, Hch. cbn in *. exact Hinstalled. }
  eexists. split; [reflexivity|]. cbn.
  rewrite lookup_alter_eq, Hch. by repeat split.
Qed.

Lemma remote_close_releases_nothing_witness :
  Browser.onclose <$> Browser.channels (browser session) !! 3 = Some true
  /\ exists w',
       channel_closes 3 session = Value tt w'
       /\ isConnected (state w') = false
       /\ peerConnection (connectionRef w') = peerConnection (connectionRef session)
       /\ Browser.streams (browser w') = Browser.streams (browser session).
Proof.
  assert (H : Browser.onclose <$> Browser.channels (browser session) !! 3 = Some true)
    by (vm_compute; reflexivity).
  split; [exact H|].
  destruct (remote_close_releases_nothing 3 session H)
    as (w' & E & _ & Hc & _ & _ & Hp & _ & _ & _ & _ & _ & Hs & _).
  exists w'. split; [exact E|]. split; [exact Hc|]. split; [exact Hp|exact Hs].
Defined.

(** ** Connecting again over an earlier connection *)

(** X14: [connect] never releases what Connection State holds.  When the
    connection is neither connecting nor connected but still holds the
    handles of an earlier connection (after the remote side closed the
    channel, or after a failed negotiation), a new attempt that succeeds
    overwrites the four handles with those of the objects it creates.  The
    earlier objects are left as they were, the peer connection not closed,
    the tracks not stopped, and [disconnect] afterwards does not touch them
    either: no handle to them is left. *)
Theorem reconnect_orphans_earlier_connection
    (o : Oracle) (w : World) (pc0 dc0 s0 a0 : nat) :
  connecting (connectionRef w) || connected (connectionRef w) = false ->
  peerConnection (connectionRef w) = Some pc0 ->
  dataChannel (connectionRef w) = Some dc0 ->
  localStream (connectionRef w) = Some s0 ->
  audioElement (connectionRef w) = Some a0 ->
  pc0 < Browser.next_ref (browser w) ->
  dc0 < Browser.next_ref (browser w) ->
  s0 < Browser.next_ref (browser w) ->
  a0 < Browser.next_ref (browser w) ->
  (forall c, exists x, o c = Fulfilled x) ->
  (forall url init r, o (fetch url init) = Fulfilled r -> ok r = true) ->
  exists w1 t w2,
    run o (connect w) = (Returned tt w1, t)
    /\ peerConnection (connectionRef w1) = Some (Browser.next_ref (browser w))
    /\ audioElement (connectionRef w1) = Some (1 + Browser.next_ref (browser w))
    /\ localStream (connectionRef w1) = Some (2 + Browser.next_ref (browser w))
    /\ dataChannel (connectionRef w1) = Some (3 + Browser.next_ref (browser w))
    /\ Browser.pcs (browser w1) !! pc0 = Browser.pcs (browser w) !! pc0
    /\ Browser.channels (browser w1) !! dc0 = Browser.channels (browser w) !! dc0
    /\ Browser.streams (browser w1) !! s0 = Browser.streams (browser w) !! s0
    /\ Browser.audios (browser w1) !! a0 = Browser.audios (browser w) !! a0
    /\ disconnect w1 = Value tt w2
    /\ connectionRef w2 = baseline
    /\ Browser.pcs (browser w2) !! pc0 = Browser.pcs (browser w) !! pc0
    /\ Browser.channels (browser w2) !! dc0 = Browser.channels (browser w) !! dc0
    /\ Browser.streams (browser w2) !! s0 = Browser.streams (browser w) !! s0
    /\ Browser.audios (browser w2) !! a0 = Browser.audios (browser w) !! a0.
Proof.
  intros Hidle Hpc0 Hdc0 Hs0 Ha0 Hlt_pc Hlt_dc Hlt_s Hlt_a Hall Hok.
  destruct (connect_cooperative o w Hidle Hall Hok)
    as (w1 & t & r & td & tracks & Hrun & _ & _ & _ & Hflags & _ & _ & _ & Hold).
  destruct Hflags as (Hp & Ha & Hs & Hd & _).
  destruct (Hold pc0 Hlt_pc) as (Hpcs & _).
  destruct (Hold dc0 Hlt_dc) as (_ & Hchannels & _).
  destruct (Hold s0 Hlt_s) as (_ & _ & Hstreams & _).
  destruct (Hold a0 Hlt_a) as (_ & _ & _ & Haudios).
  exists w1, t, (torn_down w1).
  split; [exact Hrun|]. do 4 (split; [assumption|]).
  do 4 (split; [assumption|]).
  split; [apply disconnect_returns|]. split; [reflexivity|].
  unfold torn_down, release. cbn [browser]. rewrite Hp, Ha, Hs, Hd. cbn.
  rewrite !lookup_alter_ne by lia. by repeat split.
Qed.

Lemma reconnect_orphans_earlier_connection_witness :
  connecting (connectionRef remotely_closed)
    || connected (connectionRef remotely_closed) = false
  /\ peerConnection (connectionRef remotely_closed) = Some 0
  /\ localStream (connectionRef remotely_closed) = Some 2
  /\ Browser.next_ref (browser remotely_closed) = 4
  /\ exists w1 t w2,
       run (all_succeed credential) (connect remotely_closed) = (Returned tt w1, t)
       /\ peerConnection (connectionRef w1) = Some 4
       /\ disconnect w1 = Value tt w2
       /\ connectionRef w2 = baseline
       /\ Browser.closed <$> Browser.pcs (browser w2) !! 0 = Some false
       /\ Browser.streams (browser w2) !! 2 = Some microphone.
Proof.
  assert (H1 : forall c, exists x, all_succeed credential c = Fulfilled x)
    by (intros c; destruct c; eexists; reflexivity).
  assert (H2 : forall url init r,
             all_succeed credential (fetch url init) = Fulfilled r -> ok r = true)
    by (intros url init r [= <-]; reflexivity).
  do 4 (split; [reflexivity|]).
  destruct (reconnect_orphans_earlier_connection (all_succeed credential)
              remotely_closed 0 3 2 1
              eq_refl eq_refl eq_refl eq_refl eq_refl
              ltac:(vm_compute; lia) ltac:(vm_compute; lia)
              ltac:(vm_compute; lia) ltac:(vm_compute; lia) H1 H2)
    as (w1 & t & w2 & Hrun & Hp & _ & _ & _ & _ & _ & _ & _ & E & Hb & Hpc & _ & Hs & _).
  exists w1, t, w2. split; [exact Hrun|]. split; [exact Hp|]. split; [exact E|].
  split; [exact Hb|]. split.
  - rewrite Hpc. vm_compute. reflexivity.
  - rewrite Hs. vm_compute. reflexivity.
Defined.

(** ** Muting across sessions *)

Lemma first_audio_lookup (tracks : list Browser.MediaStreamTrack) : forall i,
  Browser.first_audio tracks = Some i -> is_Some (tracks !! i).
Proof.
  induction tracks as [|t tracks IH]; intros i Hi; [done|].
  cbn in Hi. case_decide; [injection Hi as <-; by eexists|].
  destruct (Browser.first_audio tracks) as [k|] eqn:Hk; [|done].
  injection Hi as <-. by apply IH.
Qed.

(** X15: the mute flag outlives the session, the muted track does not.  After
    [disconnect] and a [connect] that succeeds, whatever Connection State
    held before, the session that opens has the microphone stream exactly
    as the browser granted it while the flag still says muted; the next
    [toggleMute] lowers the flag and enables a track that was never
    disabled. *)
Theorem mute_is_not_reapplied_on_reconnect
    (o : Oracle) (w : World) (tracks : list Browser.MediaStreamTrack) (i : nat) :
  isMutedRef w = true ->
  (forall c, exists x, o c = Fulfilled x) ->
  (forall url init r, o (fetch url init) = Fulfilled r -> ok r = true) ->
  o getUserMedia = Fulfilled tracks ->
  Browser.first_audio tracks = Some i ->
  exists w0 w1 t w2 w3 s,
    disconnect w = Value tt w0
    /\ run o (connect w0) = (Returned tt w1, t)
    /\ dataChannel (connectionRef w1) = Some (3 + s)
    /\ localStream (connectionRef w1) = Some (2 + s)
    /\ channel_opens (3 + s) w1 = Value tt w2
    /\ isConnected (state w2) = true
    /\ isMutedRef w2 = true
    /\ Browser.streams (browser w2) !! (2 + s) = Some tracks
    /\ toggleMute w2 = Value tt w3
    /\ isMutedRef w3 = false
    /\ (Browser.enabled <$>
          (Browser.streams (browser w3) !! (2 + s) ≫= fun tracks3 => tracks3 !! i))
       = Some true.
Proof.
  intros Hmuted Hall Hok Htracks Hi.
  destruct (connect_cooperative o (torn_down w) eq_refl Hall Hok)
    as (w1 & t & r & td & tracks' & Hrun & _ & _ & Htracks'
        & Hflags & Hstream & Hchannel & _).
  rewrite Htracks in Htracks'. injection Htracks' as <-.
  destruct Hflags as (_ & _ & Hs & Hd & _ & _ & _ & _ & _ & _ & _ & Hm & _).
  assert (Hm1 : isMutedRef w1 = true) by (rewrite Hm; exact Hmuted).
  clear Hm.
  set (s := Browser.next_ref (browser (torn_down w))) in *.
  exists (torn_down w), w1, t, (opened (3 + s) td w1).
  assert (Hstream2 : Browser.streams (browser (opened (3 + s) td w1)) !! (2 + s)
                     = Some tracks) by exact Hstream.
  assert (Hs2 : localStream (connectionRef (opened (3 + s) td w1)) = Some (2 + s))
    by exact Hs.
  eexists _, s.
  split; [apply disconnect_returns|]. split; [exact Hrun|].
  split; [exact Hd|]. split; [exact Hs|].
  split; [by eapply channel_opens_held|].
  split; [reflexivity|].
  split; [exact Hm1|].
  split; [exact Hstream2|].
  rewrite toggleMute_returns, Hs2, Hstream2. cbn [mbind option_bind].
  rewrite Hi. split; [reflexivity|].
  split; [cbn; by rewrite Hm1|].
  cbn -[Nat.add]. rewrite lookup_alter_eq.
  change (Browser.streams (browser w1) !! (2 + s)) with
    (Browser.streams (browser (opened (3 + s) td w1)) !! (2 + s)).
  rewrite Hstream2. cbn. rewrite list_lookup_alter_eq, Hm1.
  by destruct (first_audio_lookup tracks i Hi) as [t0 ->].
Qed.

Lemma mute_is_not_reapplied_on_reconnect_witness :
  isMutedRef muted_session = true
  /\ (forall c, exists x, all_succeed credential c = Fulfilled x)
  /\ (forall url init r, all_succeed credential (fetch url init) = Fulfilled r ->
        ok r = true)
  /\ all_succeed credential getUserMedia = Fulfilled microphone
  /\ Browser.first_audio microphone = Some 0
  /\ exists w0 w1 t w2 s,
       disconnect muted_session = Value tt w0
       /\ run (all_succeed credential) (connect w0) = (Returned tt w1, t)
       /\ channel_opens (3 + s) w1 = Value tt w2
       /\ isConnected (state w2) = true
       /\ isMutedRef w2 = true
       /\ Browser.streams (browser w2) !! (2 + s) = Some microphone.
Proof.
  assert (H1 : forall c, exists x, all_succeed credential c = Fulfilled x)
    by (intros c; destruct c; eexists; reflexivity).
  assert (H2 : forall url init r,
             all_succeed credential (fetch url init) = Fulfilled r -> ok r = true)
    by (intros url init r [= <-]; reflexivity).
  split; [reflexivity|]. split; [exact H1|]. split; [exact H2|].
  split; [reflexivity|]. split; [reflexivity|].
  destruct (mute_is_not_reapplied_on_reconnect (all_succeed credential) muted_session
              microphone 0 eq_refl H1 H2 eq_refl eq_refl)
    as (w0 & w1 & t & w2 & w3 & s & E0 & Hrun & _ & _ & E2 & Hc & Hm & Hs & _).
  exists w0, w1, t, w2, s. split; [exact E0|]. split; [exact Hrun|].
  split; [exact E2|]. split; [exact Hc|]. split; [exact Hm|exact Hs].
Defined.

(** ** A task that runs while [connect] is suspended *)

Section Wpi.
Context (o : Oracle) (task : World -> World).

Lemma interrupted_bind {A B} (f : A -> M B) (r : Res A) :
  interrupted o task (res_bind f r) =
  match interrupted o task r with
  | (Returned a w, t) =>
      let '(out, t') := if has_suspended t then run o (f a w)
                        else interrupted o task (f a w) in
      (out, t ++ t')
  | (Threw e w, t) => (Threw e w, t)
  end.
Proof.
  induction r as [a w|e w|c w k IH]; cbn [res_bind interrupted].
  - cbn. by destruct (interrupted o task (f a w)).
  - reflexivity.
  - destruct (suspends c) eqn:Hc.
    + rewrite run_bind.
      destruct (run o (k (o c) (task w))) as [[a w'|e w'] t]; [|reflexivity].
      unfold has_suspended. cbn [existsb fst]. rewrite Hc. cbn [orb].
      by destruct (run o (f a w')).
    + rewrite IH.
      destruct (interrupted o task (k (o c) w)) as [[a w'|e w'] t]; [|reflexivity].
      unfold has_suspended. cbn [existsb fst]. rewrite Hc. cbn [orb].
      fold (has_suspended t).
      by destruct (if has_suspended t then run o (f a w')
                   else interrupted o task (f a w')).
Qed.

Lemma interrupted_catch {A} (h : Thrown -> M A) (r : Res A) :
  interrupted o task (res_catch h r) =
  match interrupted o task r with
  | (Returned a w, t) => (Returned a w, t)
  | (Threw e w, t) =>
      let '(out, t') := if has_suspended t then run o (h e w)
                        else interrupted o task (h e w) in
      (out, t ++ t')
  end.
Proof.
  induction r as [a w|e w|c w k IH]; cbn [res_catch interrupted].
  - reflexivity.
  - cbn. by destruct (interrupted o task (h e w)).
  - destruct (suspends c) eqn:Hc.
    + rewrite run_catch.
      destruct (run o (k (o c) (task w))) as [[a w'|e w'] t]; [reflexivity|].
      unfold has_suspended. cbn [existsb fst]. rewrite Hc. cbn [orb].
      by destruct (run o (h e w')).
    + rewrite IH.
      destruct (interrupted o task (k (o c) w)) as [[a w'|e w'] t]; [reflexivity|].
      unfold has_suspended. cbn [existsb fst]. rewrite Hc. cbn [orb].
      fold (has_suspended t).
      by destruct (if has_suspended t then run o (h e w')
                   else interrupted o task (h e w')).
Qed.

Lemma wpi_run {A} (m : M A) (w : World) (P : Outcome A * Trace -> Prop) :
  wpi o task m w (fun out t => P (out, t)) -> P (interrupted o task (m w)).
Proof. unfold wpi. by destruct (interrupted o task (m w)). Qed.

Lemma wpi_ret {A} (a : A) w (Q : Outcome A -> Trace -> Prop) :
  Q (Returned a w) [] -> wpi o task (mret a) w Q.
Proof. exact id. Qed.

Lemma wpi_get w (Q : Outcome World -> Trace -> Prop) :
  Q (Returned w w) [] -> wpi o task get w Q.
Proof. exact id. Qed.

Lemma wpi_modify (g : World -> World) w (Q : Outcome unit -> Trace -> Prop) :
  Q (Returned tt (g w)) [] -> wpi o task (modify g) w Q.
Proof. exact id. Qed.

Lemma wpi_call (c : Call) w (Q : Outcome (answer c) -> Trace -> Prop) :
  (forall x, o c = Fulfilled x ->
     Q (Returned x (if suspends c then task w else w)) [(c, w)]) ->
  (forall e, o c = Rejected e ->
     Q (Threw e (if suspends c then task w else w)) [(c, w)]) ->
  wpi o task (call c) w Q.
Proof.
  intros Hx He. unfold wpi, call. cbn [interrupted run].
  destruct (suspends c), (o c) as [x|e]; cbn; auto.
Qed.

Lemma wpi_bind {A B} (m : M A) (f : A -> M B) w (Q : Outcome B -> Trace -> Prop) :
  wpi o task m w (fun out t =>
    match out with
    | Returned a w' =>
        if has_suspended t
        then wp o (f a) w' (fun out' t' => Q out' (t ++ t'))
        else wpi o task (f a) w' (fun out' t' => Q out' (t ++ t'))
    | Threw e w' => Q (Threw e w') t
    end) ->
  wpi o task (m ≫= f) w Q.
Proof.
  unfold wpi, mbind, M_bind. rewrite interrupted_bind.
  destruct (interrupted o task (m w)) as [[a w'|e w'] t]; cbn [fst snd]; [|done].
  destruct (has_suspended t).
  - intros H.
    pose proof (wp_run o (f a) w' (fun p => Q (fst p) (t ++ snd p)) H) as H'.
    by destruct (run o (f a w')).
  - unfold wpi. by destruct (interrupted o task (f a w')).
Qed.

Lemma wpi_try_catch {A} (m : M A) (h : Thrown -> M A) w (Q : Outcome A -> Trace -> Prop) :
  wpi o task m w (fun out t =>
    match out with
    | Returned a w' => Q (Returned a w') t
    | Threw e w' =>
        if has_suspended t
        then wp o (h e) w' (fun out' t' => Q out' (t ++ t'))
        else wpi o task (h e) w' (fun out' t' => Q out' (t ++ t'))
    end) ->
  wpi o task (try_catch m h) w Q.
Proof.
  unfold wpi, try_catch. rewrite interrupted_catch.
  destruct (interrupted o task (m w)) as [[a w'|e w'] t]; cbn [fst snd]; [done|].
  destruct (has_suspended t).
  - intros H.
    pose proof (wp_run o (h e) w' (fun p => Q (fst p) (t ++ snd p)) H) as H'.
    by destruct (run o (h e w')).
  - unfold wpi. by destruct (interrupted o task (h e w')).
Qed.

End Wpi.

#[global] Opaque wpi.

(** One step through a computation that has not suspended yet. *)
Ltac wpi_step :=
  lazymatch goal with
  | |- wpi _ _ (mbind _ _) _ _ => apply wpi_bind
  | |- wpi _ _ (mret _) _ _ => apply wpi_ret
  | |- wpi _ _ get _ _ => apply wpi_get
  | |- wpi _ _ (modify _) _ _ => apply wpi_modify
  | |- wpi _ _ (try_catch _ _) _ _ => apply wpi_try_catch
  | |- wpi ?o ?task (call ?c) ?w ?Q =>
      apply (wpi_call o task c w Q); [intros ? ?|intros ? ?]
  | |- wpi _ _ (if ?b then _ else _) _ _ => destruct b eqn:?
  | |- wpi _ _ (setState _) _ _ => unfold setState
  | |- wpi _ _ getEphemeralToken _ _ => unfold getEphemeralToken
  | |- wpi _ _ connect_attempt _ _ => unfold connect_attempt
  | |- wpi _ _ connect _ _ => unfold connect
  end;
  cbn [has_suspended existsb suspends token_request fst orb];
  simpl_world.

(** [disconnect] on a Connection State that holds no handle, as updates of
    the world. *)
Lemma torn_down_unheld w :
  peerConnection (connectionRef w) = None ->
  dataChannel (connectionRef w) = None ->
  localStream (connectionRef w) = None ->
  audioElement (connectionRef w) = None ->
  torn_down w =
  with_notified
    (fun l => if onDisconnected (options w) then l ++ [disconnected_notification] else l)
    (with_state
       (fun prev => set_error None (set_isSpeaking false (set_isListening false
                      (set_isConnecting false (set_isConnected false prev)))))
       (with_autoConnectAttemptedRef false
          (with_connectionRef (fun _ => baseline) w))).
Proof.
  intros Hp Hd Hs Ha. unfold torn_down, release. rewrite Hp, Hd, Hs, Ha.
  destruct w as [s c m a op b n co]. cbn. by destruct (onDisconnected op).
Qed.

(** X16: [disconnect] does not cancel an attempt in flight.  When it runs while
    [connect] waits for the credential (the cleanup on unmount calls it,
    and so can any caller), it finds no handle to release and resets the
    flags; the attempt then resumes and, when every call succeeds, acquires
    the microphone and negotiates all the same.  [connect] returns with the
    four handles held, the stream live, the peer connection open, while the
    flags say that nothing is connecting or connected; when the channel
    opens the state says connected. *)
Theorem disconnect_does_not_cancel_connect (o : Oracle) (w : World) :
  connectionRef w = baseline ->
  (forall c, exists x, o c = Fulfilled x) ->
  (forall url init r, o (fetch url init) = Fulfilled r -> ok r = true) ->
  exists w0 k w1 t tracks,
    connect w = Ext token_request w0 k
    /\ disconnect w0 = Value tt (torn_down w0)
    /\ interrupted o torn_down (connect w) = (Returned tt w1, t)
    /\ o getUserMedia = Fulfilled tracks
    /\ peerConnection (connectionRef w1) = Some (Browser.next_ref (browser w))
    /\ audioElement (connectionRef w1) = Some (1 + Browser.next_ref (browser w))
    /\ localStream (connectionRef w1) = Some (2 + Browser.next_ref (browser w))
    /\ dataChannel (connectionRef w1) = Some (3 + Browser.next_ref (browser w))
    /\ connecting (connectionRef w1) = false
    /\ connected (connectionRef w1) = false
    /\ isConnecting (state w1) = false
    /\ isConnected (state w1) = false
    /\ notified w1 = (if onDisconnected (options w)
                      then notified w ++ [disconnected_notification]
                      else notified w)
    /\ Browser.streams (browser w1) !! (2 + Browser.next_ref (browser w)) = Some tracks
    /\ Browser.closed <$> Browser.pcs (browser w1) !! Browser.next_ref (browser w)
       = Some false
    /\ exists w2,
         channel_opens (3 + Browser.next_ref (browser w)) w1 = Value tt w2
         /\ connected (connectionRef w2) = true
         /\ isConnected (state w2) = true.
Proof.
  intros Hbase Hall Hok.
  assert (H : exists w1 t tracks td,
    interrupted o torn_down (connect w) = (Returned tt w1, t)
    /\ o getUserMedia = Fulfilled tracks
    /\ (peerConnection (connectionRef w1) = Some (Browser.next_ref (browser w))
    /\ audioElement (connectionRef w1) = Some (1 + Browser.next_ref (browser w))
    /\ localStream (connectionRef w1) = Some (2 + Browser.next_ref (browser w))
    /\ dataChannel (connectionRef w1) = Some (3 + Browser.next_ref (browser w))
    /\ connecting (connectionRef w1) = false
    /\ connected (connectionRef w1) = false
    /\ isConnecting (state w1) = false
    /\ isConnected (state w1) = false
    /\ notified w1 = (if onDisconnected (options w)
                      then notified w ++ [disconnected_notification]
                      else notified w))
    /\ Browser.streams (browser w1) !! (2 + Browser.next_ref (browser w)) = Some tracks
    /\ Browser.closed <$> Browser.pcs (browser w1) !! Browser.next_ref (browser w)
       = Some false
    /\ Browser.channels (browser w1) !! (3 + Browser.next_ref (browser w))
       = Some {| Browser.label := "oai-events";
                 Browser.readyState := Browser.rs_connecting;
                 Browser.sent := []; Browser.onopen := Some td;
                 Browser.onmessage := true; Browser.onerror := true;
                 Browser.onclose := true |}).
  { apply (wpi_run o torn_down connect w
      (fun p => exists w1 t tracks td, p = (Returned tt w1, t) /\ _)).
    repeat first
      [ wpi_step
      | wp_step
      | progress (rewrite torn_down_unheld by (cbn; by rewrite Hbase); simpl_world)
      | progress (cbn [has_suspended existsb suspends token_request fst orb app];
                  simpl_world) ].
    all: cooperative Hall Hok.
    1: { rewrite Hbase in *. discriminate. }
    all: do 4 eexists; (split; [reflexivity|]); (split; [eassumption|]).
    all: split; [cbn; by repeat split|].
    all: cbn.
    all: repeat match goal with
           | |- context [match Browser.first_audio ?t with _ => _ end] =>
               destruct (Browser.first_audio t)
           | |- context [if negb ?b then _ else _] => destruct (negb b)
           end.
    all: cbn; rewrite ?lookup_alter_eq, ?lookup_insert_eq; cbn.
    all: repeat first [ rewrite lookup_alter_ne by lia
                      | rewrite lookup_insert_ne by lia
                      | rewrite lookup_alter_eq | rewrite lookup_insert_eq ]; cbn.
    all: by repeat split. }
  destruct H as (w1 & t & tracks & td & Hrun & Htracks & Hflags & Hstream & Hpc & Hchannel).
  destruct Hflags as (Hp & Ha & Hs & Hd & Hcing & Hced & HisCing & HisCed & Hn).
  assert (Hidle : connecting (connectionRef w) || connected (connectionRef w) = false)
    by (by rewrite Hbase).
  eexists _, _, w1, t, tracks.
  split.
  { rewrite (connect_idle w Hidle). unfold try_catch, connect_attempt.
    unfold mbind at 1 2, M_bind, setState, modify. cbn [res_bind].
    unfold getEphemeralToken, mbind at 1 2, M_bind, call. cbn [res_bind res_catch].
    reflexivity. }
  split; [apply disconnect_returns|].
  repeat (split; [assumption|]).
  exists (opened (3 + Browser.next_ref (browser w)) td w1).
  split; [by eapply channel_opens_held|]. by cbn.
Qed.

Lemma disconnect_does_not_cancel_connect_witness :
  connectionRef (mount every_callback) = baseline
  /\ (forall c, exists x, all_succeed credential c = Fulfilled x)
  /\ (forall url init r, all_succeed credential (fetch url init) = Fulfilled r ->
        ok r = true)
  /\ exists w1 t,
       interrupted (all_succeed credential) torn_down (connect (mount every_callback))
       = (Returned tt w1, t)
       /\ peerConnection (connectionRef w1) = Some 0
       /\ localStream (connectionRef w1) = Some 2
       /\ Browser.streams (browser w1) !! 2 = Some microphone
       /\ isConnecting (state w1) = false
       /\ connecting (connectionRef w1) = false.
Proof.
  assert (H1 : forall c, exists x, all_succeed credential c = Fulfilled x)
    by (intros c; destruct c; eexists; reflexivity).
  assert (H2 : forall url init r,
             all_succeed credential (fetch url init) = Fulfilled r -> ok r = true)
    by (intros url init r [= <-]; reflexivity).
  split; [reflexivity|]. split; [exact H1|]. split; [exact H2|].
  destruct (disconnect_does_not_cancel_connect (all_succeed credential)
              (mount every_callback) eq_refl H1 H2)
    as (w0 & k & w1 & t & tracks & _ & _ & Hrun & Htracks & Hp & _ & Hs & _
        & Hcing & _ & HisCing & _ & _ & Hstream & _).
  injection Htracks as <-.
  exists w1, t. split; [exact Hrun|]. split; [exact Hp|]. split; [exact Hs|].
  split; [exact Hstream|]. split; [exact HisCing|exact Hcing].
Defined.

(** ** Auto-connect *)

Lemma autoConnect_latch (o : Oracle) (op : Operation) (w : World) :
  op ≠ do_disconnect ->
  autoConnectAttemptedRef (final (fst (run o (perform op w))))
  = autoConnectAttemptedRef w
  /\ options (final (fst (run o (perform op w)))) = options w.
Proof.
  intros Hop.
  apply (wp_run o (perform op) w
    (fun p => autoConnectAttemptedRef (final (fst p)) = _
              /\ options (final (fst p)) = _)).
  destruct op; try done; unfold perform.
  all: repeat wp_step_any.
  all: by cbn.
Qed.

Lemma autoConnect_latch_performs (steps : list (Oracle * Operation)) : forall w,
  do_disconnect ∉ steps.*2 ->
  autoConnectAttemptedRef (performs steps w) = autoConnectAttemptedRef w
  /\ options (performs steps w) = options w.
Proof.
  induction steps as [|[o op] steps IH]; intros w Hops; [done|].
  cbn [performs].
  destruct (IH (final (fst (run o (perform op w))))) as [-> ->].
  { intros Hin. apply Hops. cbn. apply elem_of_cons; by right. }
  apply autoConnect_latch. intros ->. apply Hops. cbn. apply elem_of_cons; by left.
Qed.

Lemma autoConnect_effect_latched w :
  autoConnect (options w) && negb (autoConnectAttemptedRef w) = false ->
  autoConnect_effect w = Value tt w.
Proof.
  intros H. unfold autoConnect_effect, mbind, M_bind, get. cbn [res_bind].
  by rewrite H.
Qed.

(** X17: auto-connect is attempted once.  When the effect runs with nothing
    connected or connecting it calls [connect], if it has not done so
    before, behind a latch that nothing but [disconnect] lowers.  So
    whatever came of the attempt, and whatever was done or happened since
    short of a [disconnect], each operation against an outside of its own
    (a backend that was down may be up again), the effect does nothing when
    it runs again: a failed attempt is not retried. *)
Theorem autoConnect_is_attempted_once
    (o : Oracle) (steps : list (Oracle * Operation)) (w : World) :
  isConnected (state w) = false ->
  isConnecting (state w) = false ->
  do_disconnect ∉ steps.*2 ->
  autoConnect_effect
    (performs steps (final (fst (run o (autoConnect_effect w)))))
  = Value tt (performs steps (final (fst (run o (autoConnect_effect w))))).
Proof.
  intros Hced Hcing Hops.
  apply autoConnect_effect_latched.
  destruct (autoConnect_latch_performs steps
              (final (fst (run o (autoConnect_effect w)))) Hops) as [-> ->].
  apply (wp_run o autoConnect_effect w
    (fun p => autoConnect (options (final (fst p)))
              && negb (autoConnectAttemptedRef (final (fst p))) = false)).
  unfold autoConnect_effect.
  apply wp_bind, wp_get. rewrite Hced, Hcing. cbn [negb].
  destruct (autoConnect (options w)) eqn:Hauto,
           (autoConnectAttemptedRef w) eqn:Hlatch; cbn [negb andb].
  all: repeat wp_step_any.
  all: cbn; by rewrite ?Hauto, ?Hlatch.
Qed.

Lemma autoConnect_is_attempted_once_witness :
  isConnected (state (mount auto_connecting)) = false
  /\ isConnecting (state (mount auto_connecting)) = false
  /\ (do_disconnect ∉ [(backend_down, do_connect); (all_succeed credential, on_error)].*2)
  /\ error (state (final (fst (run backend_down
                                 (autoConnect_effect (mount auto_connecting))))))
     = Some "Internal server error"
  /\ autoConnect_effect
       (performs [(backend_down, do_connect); (all_succeed credential, on_error)]
          (final (fst (run backend_down (autoConnect_effect (mount auto_connecting))))))
     = Value tt
         (performs [(backend_down, do_connect); (all_succeed credential, on_error)]
            (final (fst (run backend_down (autoConnect_effect (mount auto_connecting)))))).
Proof.
  assert (H : do_disconnect
              ∉ [(backend_down, do_connect); (all_succeed credential, on_error)].*2).
  { cbn. intros Hin. apply elem_of_cons in Hin as [Hin|Hin]; [discriminate Hin|].
    apply elem_of_cons in Hin as [Hin|Hin]; [discriminate Hin|].
    by apply elem_of_nil in Hin. }
  split; [reflexivity|]. split; [reflexivity|]. split; [exact H|].
  split; [vm_compute; reflexivity|].
  exact (autoConnect_is_attempted_once backend_down
           [(backend_down, do_connect); (all_succeed credential, on_error)]
           (mount auto_connecting) eq_refl eq_refl H).
Defined.

(** X18: with auto-connect on, ending a session starts the next one:
    [disconnect] lowers the latch and the connection flags, so the effect
    that runs after the render that follows calls [connect], which sends
    the token request. *)
Theorem disconnect_restarts_autoConnect (w : World) :
  autoConnect (options w) = true ->
  isConnected (state w) || isConnecting (state w) = true ->
  exists w1 w2 k,
    disconnect w = Value tt w1
    /\ autoConnect_after_render (state w) w1 = Ext token_request w2 k
    /\ autoConnectAttemptedRef w2 = true
    /\ connecting (connectionRef w2) = true
    /\ isConnecting (state w2) = true.
Proof.
  intros Hauto Hlive. exists (torn_down w). rewrite disconnect_returns.
  unfold autoConnect_after_render, mbind at 1, M_bind, get. cbn [res_bind].
  rewrite bool_decide_eq_false_2.
  2: { cbn. intros [= Hc Hi]. rewrite Hc, Hi in Hlive. discriminate. }
  unfold autoConnect_effect, mbind at 1, M_bind, get. cbn [res_bind].
  cbn [torn_down options autoConnectAttemptedRef state isConnected isConnecting].
  rewrite Hauto. cbn [negb andb].
  unfold mbind at 1, M_bind, modify. cbn [res_bind].
  do 2 eexists. split; [reflexivity|].
  rewrite connect_idle by reflexivity.
  unfold try_catch, connect_attempt.
  unfold mbind at 1 2, M_bind, setState, modify. cbn [res_bind].
  unfold getEphemeralToken, mbind at 1 2, M_bind, call. cbn [res_bind res_catch].
  split; [reflexivity|]. by cbn.
Qed.

Lemma disconnect_restarts_autoConnect_witness :
  autoConnect (options auto_session) = true
  /\ isConnected (state auto_session) || isConnecting (state auto_session) = true
  /\ exists w1 w2 k,
       disconnect auto_session = Value tt w1
       /\ autoConnect_after_render (state auto_session) w1 = Ext token_request w2 k
       /\ connecting (connectionRef w2) = true.
Proof.
  split; [reflexivity|]. split; [reflexivity|].
  destruct (disconnect_restarts_autoConnect auto_session eq_refl eq_refl)
    as (w1 & w2 & k & E1 & E2 & _ & Hc & _).
  exists w1, w2, k. split; [exact E1|]. split; [exact E2|exact Hc].
Defined.

(** ** Invariants of the mounted hook *)

Lemma offer_url_is_not_token_url (model : string) :
  baseUrl +:+ model ≠ token_url.
Proof.
  intros Heq.
  apply (f_equal (fun s => match s with String a _ => Some a | _ => None end)) in Heq.
  vm_compute in Heq. discriminate Heq.
Qed.

(** No operation makes the same call twice, so an outside that answers by
    the call alone loses nothing within one operation. *)
Lemma calls_of_an_operation_are_distinct (o : Oracle) (op : Operation) (w : World) :
  NoDup (calls (snd (run o (perform op w)))).
Proof.
  apply (wp_run o (perform op) w (fun p => NoDup (calls (snd p)))).
  destruct op; unfold perform.
  all: repeat wp_step_any.
  all: cbn.
  all: repeat (apply NoDup_cons; split;
               [intros Hin; in_calls Hin; try discriminate Hin;
                unfold token_request in Hin; injection Hin as Hin _;
                first [ by apply offer_url_is_not_token_url in Hin
                      | symmetry in Hin; by apply offer_url_is_not_token_url in Hin ]|]).
  all: apply NoDup_nil; done.
Qed.

Lemma flags_agree_step (o : Oracle) (op : Operation) (w : World) :
  flags_agree w -> flags_agree (final (fst (run o (perform op w)))).
Proof.
  intros [Hced Hcing].
  apply (wp_run o (perform op) w (fun p => flags_agree (final (fst p)))).
  destruct op; unfold perform.
  all: repeat wp_step_any.
  all: unfold flags_agree; cbn; try done.
  all: by rewrite ?Hced, ?Hcing.
Qed.

(** X19: the two pairs of flags never part: after any sequence of calls of
    the control surface and of events, each run to its end against an
    outside of its own, [isConnected] is Connection State's [connected] and
    [isConnecting] its [connecting].  So the guard of [connect], which
    reads Connection State, and the interface, which reads the state, see
    the same thing. *)
Theorem state_flags_mirror_connection_flags
    (steps : list (Oracle * Operation)) (opts : UseRealtimeVoiceOptions) :
  isConnected (state (performs steps (mount opts)))
  = connected (connectionRef (performs steps (mount opts)))
  /\ isConnecting (state (performs steps (mount opts)))
     = connecting (connectionRef (performs steps (mount opts))).
Proof.
  assert (H : forall w, flags_agree w -> flags_agree (performs steps w)).
  { induction steps as [|[o op] steps IH]; intros w Hw; [exact Hw|].
    cbn [performs]. apply IH. by apply flags_agree_step. }
  apply (H (mount opts)). by split.
Qed.

Lemma handles_allocated_step (o : Oracle) (op : Operation) (w : World) :
  handles_allocated w -> handles_allocated (final (fst (run o (perform op w)))).
Proof.
  intros Hw.
  assert (Hp : forall k, peerConnection (connectionRef w) = Some k ->
                         k < Browser.next_ref (browser w)) by (intros k ?; apply Hw; auto).
  assert (Hd : forall k, dataChannel (connectionRef w) = Some k ->
                         k < Browser.next_ref (browser w)) by (intros k ?; apply Hw; auto).
  assert (Hs : forall k, localStream (connectionRef w) = Some k ->
                         k < Browser.next_ref (browser w)) by (intros k ?; apply Hw; auto).
  assert (Ha : forall k, audioElement (connectionRef w) = Some k ->
                         k < Browser.next_ref (browser w)) by (intros k ?; apply Hw; auto).
  clear Hw.
  apply (wp_run o (perform op) w (fun p => handles_allocated (final (fst p)))).
  destruct op; unfold perform.
  all: repeat wp_step_any.
  all: unfold handles_allocated; cbn; intros k [Hk|[Hk|[Hk|Hk]]].
  all: try discriminate Hk; simplify_eq.
  all: repeat match goal with
              | H : forall k, Some ?n = Some k -> _ |- _ =>
                  pose proof (H n eq_refl); clear H
              | H : forall k, ?x = Some k -> _, Hk : ?x = Some ?k |- _ =>
                  pose proof (H k Hk); clear H
              | H : forall k, _ = Some k -> _ |- _ => clear H
              end.
  all: lia.
Qed.

(** X20: every handle Connection State holds is a reference the browser
    gave out before: after any sequence of calls and events from the mounted
    hook, each run to its end against an outside of its own, the four
    handles are below the next free reference.  So the objects [connect]
    creates next are never the ones already held. *)
Theorem handles_are_allocated_references
    (steps : list (Oracle * Operation)) (opts : UseRealtimeVoiceOptions) (k : nat) :
  (peerConnection (connectionRef (performs steps (mount opts))) = Some k
   \/ dataChannel (connectionRef (performs steps (mount opts))) = Some k
   \/ localStream (connectionRef (performs steps (mount opts))) = Some k
   \/ audioElement (connectionRef (performs steps (mount opts))) = Some k) ->
  k < Browser.next_ref (browser (performs steps (mount opts))).
Proof.
  revert k.
  assert (H : forall w, handles_allocated w -> handles_allocated (performs steps w)).
  { induction steps as [|[o op] steps IH]; intros w Hw; [exact Hw|].
    cbn [performs]. apply IH. by apply handles_allocated_step. }
  apply (H (mount opts)). intros k [Hk|[Hk|[Hk|Hk]]]; discriminate Hk.
Qed.

Lemma handles_are_allocated_references_witness :
  peerConnection (connectionRef
    (performs [(microphone_denied, do_connect); (microphone_denied, do_disconnect);
               (all_succeed credential, do_connect)] (mount every_callback))) = Some 2
  /\ 2 < Browser.next_ref (browser
           (performs [(microphone_denied, do_connect); (microphone_denied, do_disconnect);
                      (all_succeed credential, do_connect)] (mount every_callback))).
Proof.
  assert (H : peerConnection (connectionRef
     (performs [(microphone_denied, do_connect); (microphone_denied, do_disconnect);
                (all_succeed credential, do_connect)] (mount every_callback))) = Some 2)
    by (vm_compute; reflexivity).
  split; [exact H|].
  exact (handles_are_allocated_references
           [(microphone_denied, do_connect); (microphone_denied, do_disconnect);
            (all_succeed credential, do_connect)]
           every_callback 2 (or_introl H)).
Defined.

(** ** The voice interface after a refusal of the microphone *)

(** X21: when the microphone is refused on a first attempt, the interface is
    left with no control that can be clicked: the state says connecting and
    not connected, so the session button is disabled and the other controls
    are not rendered; the status line reads 'Connecting...' beside the
    microphone error.  No channel was created whose events could change
    the state, and [connect], were it called, would return at once. *)
Theorem interface_stuck_after_microphone_refusal
    (o : Oracle) (w : World) (r : Response) (body : EphemeralTokenResponse) (e : Thrown) :
  connecting (connectionRef w) || connected (connectionRef w) = false ->
  isConnected (state w) = false ->
  o token_request = Fulfilled r ->
  ok r = true ->
  o (response_json r) = Fulfilled body ->
  o new_RTCPeerConnection = Fulfilled tt ->
  o getUserMedia = Rejected e ->
  exists w' t,
    run o (connect w) = (Returned tt w', t)
    /\ (forall c, VoiceInterface.clickable (state w') c = false)
    /\ VoiceInterface.status (state w') = "Connecting..."
    /\ error (state w') = Some "Microphone permission denied or not available"
    /\ Browser.channels (browser w') = Browser.channels (browser w)
    /\ dataChannel (connectionRef w') = dataChannel (connectionRef w)
    /\ connect w' = Value tt w'.
Proof.
  intros Hidle HisConnected Hr Hok Hbody Hpc Hmic. rewrite (run_connect o w Hidle).
  apply (wp_run o connect_attempt w
    (fun p => exists w' t,
       match p with
       | (Returned a w1, t) => (Returned a w1, t)
       | (Threw e w2, t) => (Returned tt (failure_recorded e w2), t)
       end = (Returned tt w', t) /\ _)).
  wp_run; oracle_facts.
  do 2 eexists. split; [reflexivity|].
  split.
  { intros c. unfold VoiceInterface.clickable.
    destruct c; cbn; by rewrite ?HisConnected. }
  split.
  { unfold VoiceInterface.status. cbn. by rewrite HisConnected. }
  do 3 (split; [by cbn|]).
  apply connect_guard. by cbn.
Qed.

Lemma interface_stuck_after_microphone_refusal_witness :
  connecting (connectionRef (mount every_callback))
    || connected (connectionRef (mount every_callback)) = false
  /\ isConnected (state (mount every_callback)) = false
  /\ microphone_denied token_request = Fulfilled {| ok := true; status := 200 |}
  /\ microphone_denied (response_json {| ok := true; status := 200 |})
     = Fulfilled credential
  /\ microphone_denied new_RTCPeerConnection = Fulfilled tt
  /\ microphone_denied getUserMedia = Rejected (Error "NotAllowedError")
  /\ exists w' t,
       run microphone_denied (connect (mount every_callback)) = (Returned tt w', t)
       /\ (forall c, VoiceInterface.clickable (state w') c = false)
       /\ VoiceInterface.status (state w') = "Connecting...".
Proof.
  do 6 (split; [reflexivity|]).
  destruct (interface_stuck_after_microphone_refusal microphone_denied
              (mount every_callback) {| ok := true; status := 200 |} credential
              (Error "NotAllowedError")
              eq_refl eq_refl eq_refl eq_refl eq_refl eq_refl eq_refl)
    as (w' & t & Hrun & Hclick & Hstatus & _).
  exists w', t. split; [exact Hrun|]. split; [exact Hclick|exact Hstatus].
Defined.

(** ** Failures of the token route, as the hook shows them *)

Lemma or_else_truthy (s : option string) (d : string) :
  d ≠ "" -> truthy (Some (or_else s d)) = true.
Proof.
  intros Hd. unfold or_else, truthy. destruct s as [s|]; cbn.
  - destruct (bool_decide (s = "")) eqn:Hs; cbn.
    + by rewrite bool_decide_eq_false_2.
    + by rewrite Hs.
  - by rewrite bool_decide_eq_false_2.
Qed.

Lemma or_else_of_truthy (s d : string) :
  truthy (Some s) = true -> or_else (Some s) d = s.
Proof. intros H. unfold or_else. by rewrite H. Qed.

(** X22: when the invocation of the edge function fails, the route answers 500
    with a text that is never empty, and that text is what [connect]
    records and passes to the error notification: the message of the
    invocation error, or 'Failed to generate token' when it has none, or
    'Internal server error' when the invocation threw.  The hook's own
    fallback text is not used, and no call follows the reading of the
    body. *)
Theorem route_failure_reaches_the_user
    (invoked : TokenRoute.Invoked) (o : Oracle) (w : World) :
  connecting (connectionRef w) || connected (connectionRef w) = false ->
  (forall data, invoked ≠ TokenRoute.invoke_data data) ->
  exists w' t text,
    run (TokenRoute.behind invoked o) (connect w) = (Returned tt w', t)
    /\ calls t = [token_request;
                  response_json (TokenRoute.received (TokenRoute.POST invoked))]
    /\ TokenRoute.answer_status (TokenRoute.POST invoked) = 500
    /\ text = match invoked with
              | TokenRoute.invoke_error message =>
                  or_else message "Failed to generate token"
              | _ => "Internal server error"
              end
    /\ text ≠ ""
    /\ error (state w') = Some text
    /\ notified w' = (if onError (options w)
                      then notified w ++ [error_notification text]
                      else notified w)
    /\ isConnecting (state w') = false
    /\ connecting (connectionRef w') = false
    /\ browser w' = browser w.
Proof.
  intros Hidle Hfailed. rewrite (run_connect _ w Hidle).
  assert (Htext : forall message,
    or_else (Some (or_else message "Failed to generate token"))
            "Failed to get ephemeral token"
    = or_else message "Failed to generate token").
  { intros message. apply or_else_of_truthy. by apply or_else_truthy. }
  destruct invoked as [data|message|]; [by destruct (Hfailed data)| |].
  all: apply (wp_run _ connect_attempt w
    (fun p => exists w' t text,
       match p with
       | (Returned a w1, t) => (Returned a w1, t)
       | (Threw e w2, t) => (Returned tt (failure_recorded e w2), t)
       end = (Returned tt w', t) /\ _)).
  all: repeat (wp_step;
               try match goal with
                   | H : TokenRoute.behind _ _ _ = _ |- _ =>
                       cbn in H; first [discriminate H | injection H as <-]
                   end;
               cbn [TokenRoute.received TokenRoute.POST TokenRoute.answer_status
                    TokenRoute.answer_body TokenRoute.error_body body_error
                    ok negb Nat.leb andb]).
  all: cbn [app].
  all: do 3 eexists; (split; [reflexivity|]).
  all: split; [reflexivity|]; split; [reflexivity|]; split; [reflexivity|].
  all: cbn; rewrite ?Htext.
  all: split; [|by repeat split].
  - intros Hempty.
    pose proof (or_else_truthy message "Failed to generate token") as Ht.
    rewrite Hempty in Ht. by specialize (Ht ltac:(done)).
  - done.
Qed.

Lemma route_failure_reaches_the_user_witness :
  connecting (connectionRef (mount every_callback))
    || connected (connectionRef (mount every_callback)) = false
  /\ (forall data, TokenRoute.invoke_error None ≠ TokenRoute.invoke_data data)
  /\ exists w' t,
       run (TokenRoute.behind (TokenRoute.invoke_error None) (all_succeed credential))
           (connect (mount every_callback)) = (Returned tt w', t)
       /\ error (state w') = Some "Failed to generate token".
Proof.
  assert (H : forall data, TokenRoute.invoke_error None ≠ TokenRoute.invoke_data data)
    by (intros data; discriminate).
  split; [reflexivity|]. split; [exact H|].
  destruct (route_failure_reaches_the_user (TokenRoute.invoke_error None)
              (all_succeed credential) (mount every_callback) eq_refl H)
    as (w' & t & text & Hrun & _ & _ & -> & _ & Herror & _).
  exists w', t. split; [exact Hrun|exact Herror].
Defined.

(** ** The token edge function *)

(** X23: the edge function asks upstream at most once, and only when a key is
    configured; the request carries that key and a session configuration
    in which every override of a POST is kept and every default is present.
    It answers 200 or 500, and it answers with a credential exactly when
    upstream answered with success and a body that parses; the
    [session_config] of that answer is the configuration that was sent
    upstream, whatever upstream returned under that key. *)
Theorem token_reply_carries_the_session_asked_for
    (instructions : string) (req : RealtimeToken.Request) (openaiKey : option string)
    (upstream : RealtimeToken.Asked -> RealtimeToken.Upstream) :
  let reply := fst (RealtimeToken.serve instructions req openaiKey upstream) in
  let asked := snd (RealtimeToken.serve instructions req openaiKey upstream) in
  length asked <= 1
  /\ (RealtimeToken.reply_status reply = 200 \/ RealtimeToken.reply_status reply = 500)
  /\ (forall a, a ∈ asked ->
        truthy openaiKey = true
        /\ RealtimeToken.req_method req ≠ "OPTIONS"
        /\ RealtimeToken.asked_authorization a = "Bearer " +:+ default "" openaiKey
        /\ (forall custom k v,
              RealtimeToken.req_method req = "POST" ->
              RealtimeToken.req_session req = Some custom ->
              custom !! k = Some v ->
              RealtimeToken.asked_session a !! k = Some v)
        /\ (forall k, is_Some (RealtimeToken.defaultSessionConfig instructions !! k) ->
              is_Some (RealtimeToken.asked_session a !! k)))
  /\ (forall data,
        RealtimeToken.reply_body reply = RealtimeToken.token data <->
        exists a status text data0,
          asked = [a]
          /\ upstream a = RealtimeToken.responded true status text (inr data0)
          /\ data = <["session_config" := RealtimeToken.json_session
                                            (RealtimeToken.asked_session a)]> data0)
  /\ (forall data,
        RealtimeToken.reply_body reply = RealtimeToken.token data ->
        RealtimeToken.reply_status reply = 200
        /\ exists a, asked = [a]
             /\ data !! "session_config"
                = Some (RealtimeToken.json_session (RealtimeToken.asked_session a))).
Proof.
  unfold RealtimeToken.serve.
  destruct (bool_decide (RealtimeToken.req_method req = "OPTIONS")) eqn:Hoptions.
  { cbn. split; [lia|]. split; [by left|]. split; [by intros a Ha%elem_of_nil|].
    split; [|done]. intros data. split; [done|]. by intros (a & ? & ? & ? & ? & _). }
  apply bool_decide_eq_false in Hoptions.
  destruct (truthy openaiKey) eqn:Hkey; cbn [negb].
  2: { cbn. split; [lia|]. split; [by right|]. split; [by intros a Ha%elem_of_nil|].
       split; [|done]. intros data. split; [done|]. by intros (a & ? & ? & ? & ? & _). }
  set (custom := if bool_decide (RealtimeToken.req_method req = "POST")
                 then default ∅ (RealtimeToken.req_session req) else ∅).
  set (a0 := {| RealtimeToken.asked_url := _ |}).
  assert (Hasked : forall a, a ∈ [a0] ->
    truthy openaiKey = true
    /\ RealtimeToken.req_method req ≠ "OPTIONS"
    /\ RealtimeToken.asked_authorization a = "Bearer " +:+ default "" openaiKey
    /\ (forall custom k v,
          RealtimeToken.req_method req = "POST" ->
          RealtimeToken.req_session req = Some custom ->
          custom !! k = Some v ->
          RealtimeToken.asked_session a !! k = Some v)
    /\ (forall k, is_Some (RealtimeToken.defaultSessionConfig instructions !! k) ->
          is_Some (RealtimeToken.asked_session a !! k))).
  { intros a ->%list_elem_of_singleton. do 3 (split; [done|]). split.
    - intros c k v Hpost Hc Hk. unfold a0. cbn [RealtimeToken.asked_session].
      apply lookup_union_Some_l.
      unfold custom. rewrite bool_decide_eq_true_2 by done. by rewrite Hc.
    - intros k [v Hv]. unfold a0. cbn [RealtimeToken.asked_session].
      destruct (custom !! k) as [v'|] eqn:Hk.
      + exists v'. by apply lookup_union_Some_l.
      + exists v. apply lookup_union_Some_raw. by right. }
  destruct (upstream a0) as [message|ok status text [message|data0]] eqn:Hup;
    [|destruct ok..]; cbn.
  all: split; [lia|].
  all: split; [first [by left | by right]|].
  all: split; [intros a Ha; by destruct (Hasked a Ha) as (_ & ? & ? & ? & ?)|].
  all: split.
  all: try (intros data; split; [done|];
            intros (a & st & tx & d0 & [= <-] & Hup' & _);
            rewrite Hup in Hup'; discriminate Hup').
  all: try done.
  - intros data. split.
    + intros [= <-]. by exists a0, status, text, data0.
    + intros (a & st & tx & d0 & [= <-] & Hup' & ->).
      rewrite Hup in Hup'. by injection Hup' as _ _ <-.
  - intros data [= <-]. split; [done|]. exists a0. split; [done|].
    by rewrite lookup_insert_eq.
Qed.

(** ** Utilities *)

Lemma length_append (a b : string) :
  String.length (a +:+ b) = String.length a + String.length b.
Proof.
  induction a as [|c a IH]; [done|].
  change (String c a +:+ b) with (String c (a +:+ b)). cbn. by rewrite IH.
Qed.

Lemma length_substring_0 (n : nat) : forall s : string,
  n <= String.length s -> String.length (String.substring 0 n s) = n.
Proof.
  induction n as [|n IH]; intros s Hn.
  - by destruct s.
  - destruct s as [|c s]; cbn in *; [lia|]. rewrite IH; [done|lia].
Qed.

Lemma substring_0_append (n : nat) : forall s t : string,
  n <= String.length s ->
  String.substring 0 n (String.substring 0 n s +:+ t) = String.substring 0 n s.
Proof.
  induction n as [|n IH]; intros s t Hn.
  - destruct s; cbn; by destruct t.
  - destruct s as [|c s]; cbn in *; [lia|].
    change (String c (String.substring 0 n s) +:+ t)
      with (String c (String.substring 0 n s +:+ t)).
    cbn. rewrite IH; [done|lia].
Qed.

(** X24: [truncateText] with a limit that is not negative returns the text as
    it is when it fits, and otherwise its first [maxLength] characters and
    three dots: a result of [maxLength + 3] characters, over the limit, and
    longer than the text it was given when that text has one or two
    characters too many.  Truncating the result again changes nothing. *)
Theorem truncateText_exceeds_the_limit (text : string) (maxLength : Z) :
  (0 <= maxLength)%Z ->
  ((Z.of_nat (String.length text) <= maxLength)%Z ->
     Utils.truncateText text maxLength = text)
  /\ ((maxLength < Z.of_nat (String.length text))%Z ->
      Z.of_nat (String.length (Utils.truncateText text maxLength)) = (maxLength + 3)%Z
      /\ String.substring 0 (Z.to_nat maxLength) (Utils.truncateText text maxLength)
         = String.substring 0 (Z.to_nat maxLength) text)
  /\ ((maxLength < Z.of_nat (String.length text) < maxLength + 3)%Z ->
      String.length text < String.length (Utils.truncateText text maxLength))
  /\ Utils.truncateText (Utils.truncateText text maxLength) maxLength
     = Utils.truncateText text maxLength.
Proof.
  intros Hn. unfold Utils.truncateText.
  destruct (Z.of_nat (String.length text) <=? maxLength)%Z eqn:Hfits.
  - apply Z.leb_le in Hfits. rewrite (proj2 (Z.leb_le _ _) Hfits).
    repeat split; try done; lia.
  - apply Z.leb_gt in Hfits.
    assert (Hslice : Utils.slice_to text maxLength
                     = String.substring 0 (Z.to_nat maxLength) text).
    { unfold Utils.slice_to. rewrite (proj2 (Z.ltb_ge _ _) Hn).
      by rewrite Z.min_l by lia. }
    assert (Hlen : String.length (Utils.slice_to text maxLength +:+ "...")
                   = Z.to_nat maxLength + 3).
    { rewrite length_append, Hslice, length_substring_0 by lia. done. }
    split; [lia|]. split.
    { intros _. split; [rewrite Hlen; lia|].
      rewrite Hslice. apply substring_0_append. lia. }
    split; [rewrite Hlen; lia|].
    rewrite Hlen. rewrite (proj2 (Z.leb_gt _ _)) by lia.
    f_equal. unfold Utils.slice_to at 1. rewrite (proj2 (Z.ltb_ge _ _) Hn).
    rewrite Hlen, Z.min_l by lia. rewrite Hslice.
    apply substring_0_append. lia.
Qed.

Lemma truncateText_exceeds_the_limit_witness :
  (0 <= 5)%Z
  /\ Utils.truncateText "horary" 5 = "horar..."
  /\ String.length "horary" < String.length (Utils.truncateText "horary" 5).
Proof.
  assert (H : (0 <= 5)%Z) by lia.
  split; [exact H|]. split; [reflexivity|].
  apply (proj1 (proj2 (proj2 (truncateText_exceeds_the_limit "horary" 5 H)))).
  vm_compute. split; reflexivity.
Defined.

(** X25: [getEnvVar] never returns the empty text.  It returns what it read
    from the environment when that is truthy: a text that is not empty, or
    a value that is not a text at all (reading [constructor] gives one), so
    the result is not always a text; it returns the default when what it
    read is [undefined], empty or falsy and the default is not empty; and
    it throws exactly when what it read is [undefined], empty or falsy and
    the default is missing or empty. *)
Theorem getEnvVar_is_never_empty
    (env : string -> option Utils.Property) (name : string)
    (defaultValue : option string) :
  match Utils.getEnvVar env name defaultValue with
  | inl v =>
      v ≠ Utils.a_text ""
      /\ Utils.holds (Some v) = true
      /\ (env name = Some v
          \/ Utils.holds (env name) = false
             /\ exists d, defaultValue = Some d /\ d ≠ "" /\ v = Utils.a_text d)
  | inr e =>
      Utils.holds (env name) = false
      /\ (defaultValue = None \/ defaultValue = Some "")
      /\ e = Error ("Environment variable " +:+ name +:+ " is required")
  end
  /\ (forall s, env name = Some (Utils.a_text s) -> s ≠ "" ->
        Utils.getEnvVar env name defaultValue = inl (Utils.a_text s))
  /\ (env name = Some (Utils.not_a_text true) ->
        Utils.getEnvVar env name defaultValue = inl (Utils.not_a_text true)).
Proof.
  unfold Utils.getEnvVar, truthy.
  split; [|split].
  - destruct (env name) as [[s|[]]|], defaultValue as [d|]; cbn;
      repeat case_bool_decide; subst; cbn; try done.
    all: repeat split; try done; auto.
    all: try (right; split; [done|]; eexists; by repeat split).
    all: try (by intros [= ->]).
    all: by rewrite bool_decide_eq_false_2.
  - intros s -> Hs. cbn. by rewrite bool_decide_eq_false_2.
  - by intros ->.
Qed.
